(** * Updog backend: the user controller

    A shallow embedding of [backend/server/controllers/user.js] together with
    the pieces of the platform the controller leans on (the engine's
    [Array.prototype.sort], the ORM calls on the model registry, the token
    service and the response object), and the properties of the controller
    that the specification states. *)

From Stdlib Require Import String Ascii.
From Stdlib Require Import List ZArith Lia Bool Arith.
From Stdlib Require Import Permutation Sorted.
Import ListNotations.

Set Implicit Arguments.

(* ===================================================================== *)
(** ** The engine's [Array.prototype.sort]

    The controller sorts the activity feed with
    [activity.sort((a, b) => (a.timestamp < b.timestamp) ? 1 : -1)].
    The comparator never answers [0], so it is not a consistent comparator
    in the sense of ECMAScript and the order of the result is left to the
    engine.  The backend runs on Node, whose engine sorts with TimSort
    (V8 7.0 and later, [third_party/v8/builtins/array-sort.tq]).  The
    module below follows that algorithm on lists: a run is a list, the
    stack of pending runs is a list of runs with the most recent run first,
    and every loop carries a fuel argument that bounds its iterations.

    The algorithm looks at the comparator only through the test
    [order < 0], and it asks for the later of two array elements first:
    [CountAndMakeRun] starts with [Compare(a[low + 1], a[low])] and
    [BinaryInsertionSort] asks [Compare(pivot, a[mid])] for a [pivot] that
    stands behind [a[mid]].  An answer [< 0] therefore moves the later
    element in front of the earlier one. *)

Module ArraySort.

Section TimSort.

Context {A : Type}.
Variable comparefn : A -> A -> Z.

(** [sortState.Compare(x, y) < 0] *)
Definition order_lt (x y : A) : bool := (comparefn x y <? 0)%Z.

(** Reads [array[i]] and applies a test to it; a read past the end does
    not happen in the algorithm and answers [false]. *)
Definition test_at (arr : list A) (i : nat) (t : A -> bool) : bool :=
  match nth_error arr i with
  | Some x => t x
  | None => false
  end.

(** *** CountAndMakeRun *)

(** The loop of [CountAndMakeRun]: how many further elements extend the
    run that ends in [previousElement]. *)
Fixpoint run_extent (isDescending : bool) (previousElement : A)
         (l : list A) : nat :=
  match l with
  | [] => 0
  | currentElement :: l' =>
      let order := order_lt currentElement previousElement in
      if isDescending
      then (if order then S (run_extent isDescending currentElement l')
            else 0)
      else (if order then 0
            else S (run_extent isDescending currentElement l'))
  end.

(** [CountAndMakeRun(low, high)] on the part [l] of the array that starts
    at [low]: the run found at the front and the elements after it.  The
    run is descending when [Compare(a[low + 1], a[low]) < 0]; a descending
    run is reversed in place. *)
Definition CountAndMakeRun (l : list A) : list A * list A :=
  match l with
  | [] => ([], [])
  | [x] => ([x], [])
  | elementHigh :: elementLow :: l' =>
      let isDescending := order_lt elementLow elementHigh in
      let runLength := 2 + run_extent isDescending elementLow l' in
      let run := firstn runLength l in
      (if isDescending then rev run else run, skipn runLength l)
  end.

(** *** BinaryInsertionSort *)

(** The binary search of [BinaryInsertionSort] for the place of [pivot]
    in the sorted part [arr], between [left] and [right]. *)
Fixpoint insertion_point (fuel : nat) (pivot : A) (arr : list A)
         (left right : nat) : nat :=
  match fuel with
  | 0 => left
  | S fuel' =>
      if left <? right then
        let mid := left + (right - left) / 2 in
        if test_at arr mid (order_lt pivot)
        then insertion_point fuel' pivot arr left mid
        else insertion_point fuel' pivot arr (mid + 1) right
      else left
  end.

Definition insert_at (k : nat) (x : A) (arr : list A) : list A :=
  firstn k arr ++ x :: skipn k arr.

(** [BinaryInsertionSort(low, start, high)]: [sorted] is the part
    [low, start) and [pending] the part [start, high). *)
Fixpoint BinaryInsertionSort (sorted pending : list A) : list A :=
  match pending with
  | [] => sorted
  | pivot :: pending' =>
      let left :=
        insertion_point (length sorted) pivot sorted 0 (length sorted) in
      BinaryInsertionSort (insert_at left pivot sorted) pending'
  end.

(** *** GallopLeft and GallopRight

    Both functions are one search, run with a different test.
    [goLeft i] says that the place looked for is at or before index [i]:
    for [GallopRight] it is [Compare(key, a[i]) < 0], for [GallopLeft] it
    is [Compare(a[i], key) >= 0]. *)

(** The exponential phase: offsets 1, 3, 7, ... until [stop] or
    [maxOfs]. *)
Fixpoint gallop_phase (fuel : nat) (stop : nat -> bool)
         (maxOfs lastOfs offset : nat) : nat * nat :=
  match fuel with
  | 0 => (lastOfs, offset)
  | S fuel' =>
      if offset <? maxOfs then
        if stop offset then (lastOfs, offset)
        else gallop_phase fuel' stop maxOfs offset (2 * offset + 1)
      else (lastOfs, offset)
  end.

(** The closing binary search between [lastOfs] and [offset]. *)
Fixpoint gallop_bisect (fuel : nat) (goLeft : nat -> bool)
         (lastOfs offset : nat) : nat :=
  match fuel with
  | 0 => offset
  | S fuel' =>
      if lastOfs <? offset then
        let m := lastOfs + (offset - lastOfs) / 2 in
        if goLeft m
        then gallop_bisect fuel' goLeft lastOfs m
        else gallop_bisect fuel' goLeft (m + 1) offset
      else offset
  end.

Definition gallop (goLeft : nat -> bool) (length hint : nat) : nat :=
  if goLeft hint then
    (* gallop left, until a[hint - offset] is on the left side *)
    let maxOfs := hint + 1 in
    let '(lastOfs, offset) :=
      gallop_phase maxOfs (fun o => negb (goLeft (hint - o))) maxOfs 0 1 in
    let offset := Nat.min offset maxOfs in
    gallop_bisect length goLeft (hint + 1 - offset) (hint - lastOfs)
  else
    (* gallop right, until a[hint + offset] is on the right side *)
    let maxOfs := length - hint in
    let '(lastOfs, offset) :=
      gallop_phase maxOfs (fun o => goLeft (hint + o)) maxOfs 0 1 in
    let offset := Nat.min offset maxOfs in
    gallop_bisect length goLeft (lastOfs + hint + 1) (offset + hint).

(** [GallopRight(array, key, base, length, hint)] on the run [arr]. *)
Definition GallopRight (key : A) (arr : list A) (hint : nat) : nat :=
  gallop (fun i => test_at arr i (order_lt key)) (length arr) hint.

(** [GallopLeft(array, key, base, length, hint)] on the run [arr]. *)
Definition GallopLeft (key : A) (arr : list A) (hint : nat) : nat :=
  gallop (fun i => negb (test_at arr i (fun x => order_lt x key)))
         (length arr) hint.

(** *** MergeLow and MergeHigh

    [dest] holds the merged elements, last written first.  The merge
    functions return the merged part of the array together with the value
    of [sortState.minGallop] they leave behind. *)

Definition kMinGallopWins : nat := 7.

(** Label [Succeed] of [MergeLow]: what is left of the copy of run A goes
    behind the merged elements; what is left of run B is in place. *)
Definition MergeLow_Succeed (dest tempA runB : list A) : list A :=
  rev dest ++ tempA ++ runB.

(** Label [CopyB] of [MergeLow]: the rest of run B moves down and the
    last element of run A closes the merge. *)
Definition MergeLow_CopyB (dest tempA runB : list A) : list A :=
  rev dest ++ runB ++ tempA.

Fixpoint MergeLow_loop (fuel : nat) (galloping : bool)
         (nofWinsA nofWinsB minGallop : nat)
         (dest tempA runB : list A) {struct fuel} : list A * nat :=
  match fuel with
  | 0 => (MergeLow_Succeed dest tempA runB, minGallop)
  | S fuel' =>
    if galloping then
      (* one round of the galloping loop *)
      let minGallop := Nat.max 1 (minGallop - 1) in
      match runB with
      | [] => (MergeLow_Succeed dest tempA runB, minGallop)
      | keyB :: runB1 =>
        let nofWinsA := GallopRight keyB tempA 0 in
        let dest := rev (firstn nofWinsA tempA) ++ dest in
        let tempA := skipn nofWinsA tempA in
        if (0 <? nofWinsA) && (length tempA =? 1)
        then (MergeLow_CopyB dest tempA runB, minGallop)
        else if (0 <? nofWinsA) && (length tempA =? 0)
        then (MergeLow_Succeed dest tempA runB, minGallop)
        else
          let dest := keyB :: dest in
          match runB1, tempA with
          | [], _ => (MergeLow_Succeed dest tempA runB1, minGallop)
          | _ :: _, [] => (MergeLow_Succeed dest tempA runB1, minGallop)
          | _ :: _, keyA :: tempA1 =>
            let nofWinsB := GallopLeft keyA runB1 0 in
            let dest := rev (firstn nofWinsB runB1) ++ dest in
            let runB2 := skipn nofWinsB runB1 in
            if (0 <? nofWinsB) && (length runB2 =? 0)
            then (MergeLow_Succeed dest tempA runB2, minGallop)
            else
              let dest := keyA :: dest in
              if length tempA1 =? 1
              then (MergeLow_CopyB dest tempA1 runB2, minGallop)
              else if (kMinGallopWins <=? nofWinsA)
                      || (kMinGallopWins <=? nofWinsB)
              then MergeLow_loop fuel' true nofWinsA nofWinsB minGallop
                                 dest tempA1 runB2
              else MergeLow_loop fuel' false 0 0 (S minGallop)
                                 dest tempA1 runB2
          end
      end
    else
      (* one step of the one-element-at-a-time loop *)
      match runB, tempA with
      | b :: runB1, a :: tempA1 =>
        if order_lt b a then
          let dest := b :: dest in
          if length runB1 =? 0
          then (MergeLow_Succeed dest tempA runB1, minGallop)
          else if minGallop <=? S nofWinsB
          then MergeLow_loop fuel' true 0 (S nofWinsB) (S minGallop)
                             dest tempA runB1
          else MergeLow_loop fuel' false 0 (S nofWinsB) minGallop
                             dest tempA runB1
        else
          let dest := a :: dest in
          if length tempA1 =? 1
          then (MergeLow_CopyB dest tempA1 runB, minGallop)
          else if minGallop <=? S nofWinsA
          then MergeLow_loop fuel' true (S nofWinsA) 0 (S minGallop)
                             dest tempA1 runB
          else MergeLow_loop fuel' false (S nofWinsA) 0 minGallop
                             dest tempA1 runB
      | _, _ => (MergeLow_Succeed dest tempA runB, minGallop)
      end
  end.

(** [MergeLow(baseA, lengthA, baseB, lengthB)], called with
    [lengthA <= lengthB]; run A is copied to the temporary array. *)
Definition MergeLow (minGallop : nat) (runA runB : list A)
  : list A * nat :=
  match runB with
  | [] => (runA, minGallop)
  | b0 :: runB1 =>
      let dest := [b0] in
      if length runB1 =? 0
      then (MergeLow_Succeed dest runA runB1, minGallop)
      else if length runA =? 1
      then (MergeLow_CopyB dest runA runB1, minGallop)
      else MergeLow_loop (length runA + length runB1) false 0 0 minGallop
                         dest runA runB1
  end.

(** Splits off the last element of a run. *)
Definition unsnoc (l : list A) : option (list A * A) :=
  match rev l with
  | [] => None
  | x :: r => Some (rev r, x)
  end.

(** [MergeHigh] fills the array from the right: [dest] holds the merged
    elements in array order. *)

(** Label [Succeed] of [MergeHigh]: what is left of the copy of run B goes
    in front of the merged elements; what is left of run A is in place. *)
Definition MergeHigh_Succeed (runA tempB dest : list A) : list A :=
  runA ++ tempB ++ dest.

(** Label [CopyA] of [MergeHigh]: the rest of run A moves up and the
    first element of run B opens the merge. *)
Definition MergeHigh_CopyA (runA tempB dest : list A) : list A :=
  tempB ++ runA ++ dest.

Fixpoint MergeHigh_loop (fuel : nat) (galloping : bool)
         (nofWinsA nofWinsB minGallop : nat)
         (runA tempB dest : list A) {struct fuel} : list A * nat :=
  match fuel with
  | 0 => (MergeHigh_Succeed runA tempB dest, minGallop)
  | S fuel' =>
    if galloping then
      let minGallop := Nat.max 1 (minGallop - 1) in
      match unsnoc tempB with
      | None => (MergeHigh_Succeed runA tempB dest, minGallop)
      | Some (tempB1, keyB) =>
        let k := GallopRight keyB runA (length runA - 1) in
        let nofWinsA := length runA - k in
        let dest := skipn k runA ++ dest in
        let runA1 := firstn k runA in
        if (0 <? nofWinsA) && (length runA1 =? 0)
        then (MergeHigh_Succeed runA1 tempB dest, minGallop)
        else
          let dest := keyB :: dest in
          if length tempB1 =? 1
          then (MergeHigh_CopyA runA1 tempB1 dest, minGallop)
          else
            match unsnoc runA1 with
            | None => (MergeHigh_Succeed runA1 tempB1 dest, minGallop)
            | Some (runA2, keyA) =>
              let k := GallopLeft keyA tempB1 (length tempB1 - 1) in
              let nofWinsB := length tempB1 - k in
              let dest := skipn k tempB1 ++ dest in
              let tempB2 := firstn k tempB1 in
              if (0 <? nofWinsB) && (length tempB2 =? 1)
              then (MergeHigh_CopyA runA1 tempB2 dest, minGallop)
              else if (0 <? nofWinsB) && (length tempB2 =? 0)
              then (MergeHigh_Succeed runA1 tempB2 dest, minGallop)
              else
                let dest := keyA :: dest in
                if length runA2 =? 0
                then (MergeHigh_Succeed runA2 tempB2 dest, minGallop)
                else if (kMinGallopWins <=? nofWinsA)
                        || (kMinGallopWins <=? nofWinsB)
                then MergeHigh_loop fuel' true nofWinsA nofWinsB minGallop
                                    runA2 tempB2 dest
                else MergeHigh_loop fuel' false 0 0 (S minGallop)
                                    runA2 tempB2 dest
            end
      end
    else
      match unsnoc tempB, unsnoc runA with
      | Some (tempB1, b), Some (runA1, a) =>
        if order_lt b a then
          let dest := a :: dest in
          if length runA1 =? 0
          then (MergeHigh_Succeed runA1 tempB dest, minGallop)
          else if minGallop <=? S nofWinsA
          then MergeHigh_loop fuel' true (S nofWinsA) 0 (S minGallop)
                              runA1 tempB dest
          else MergeHigh_loop fuel' false (S nofWinsA) 0 minGallop
                              runA1 tempB dest
        else
          let dest := b :: dest in
          if length tempB1 =? 1
          then (MergeHigh_CopyA runA tempB1 dest, minGallop)
          else if minGallop <=? S nofWinsB
          then MergeHigh_loop fuel' true 0 (S nofWinsB) (S minGallop)
                              runA tempB1 dest
          else MergeHigh_loop fuel' false 0 (S nofWinsB) minGallop
                              runA tempB1 dest
      | _, _ => (MergeHigh_Succeed runA tempB dest, minGallop)
      end
  end.

(** [MergeHigh(baseA, lengthA, baseB, lengthB)], called with
    [lengthA > lengthB]; run B is copied to the temporary array. *)
Definition MergeHigh (minGallop : nat) (runA runB : list A)
  : list A * nat :=
  match unsnoc runA with
  | None => (runB, minGallop)
  | Some (runA1, a0) =>
      let dest := [a0] in
      if length runA1 =? 0
      then (MergeHigh_Succeed runA1 runB dest, minGallop)
      else if length runB =? 1
      then (MergeHigh_CopyA runA1 runB dest, minGallop)
      else MergeHigh_loop (length runA1 + length runB) false 0 0 minGallop
                          runA1 runB dest
  end.

(** *** MergeAt, the stack of pending runs and the driver *)

(** [MergeAt(i)] for the adjacent runs [runA] (at [i]) and [runB]
    (at [i + 1]): the elements of A that are in place already and the
    elements of B that are in place already are left out of the merge. *)
Definition MergeAt (minGallop : nat) (runA runB : list A)
  : list A * nat :=
  match runB with
  | [] => (runA ++ runB, minGallop)
  | keyRight :: _ =>
      let k := GallopRight keyRight runA 0 in
      let runA1 := skipn k runA in
      match unsnoc runA1 with
      | None => (runA ++ runB, minGallop)
      | Some (_, keyLeft) =>
          let lengthB := GallopLeft keyLeft runB (length runB - 1) in
          if lengthB =? 0 then (runA ++ runB, minGallop)
          else
            let runB1 := firstn lengthB runB in
            let '(merged, minGallop) :=
              if length runA1 <=? lengthB
              then MergeLow minGallop runA1 runB1
              else MergeHigh minGallop runA1 runB1 in
            (firstn k runA ++ merged ++ skipn lengthB runB, minGallop)
      end
  end.

(** [RunInvariantEstablished(pendingRuns, n)] for the run [rn], with the
    two runs below it on the stack when there are two. *)
Definition RunInvariantEstablished (rn : list A) (below : list (list A))
  : bool :=
  match below with
  | rnm :: rnmm :: _ => length rnm + length rn <? length rnmm
  | _ => true
  end.

Fixpoint MergeCollapse (fuel minGallop : nat) (pendingRuns : list (list A))
  : list (list A) * nat :=
  match fuel with
  | 0 => (pendingRuns, minGallop)
  | S fuel' =>
      match pendingRuns with
      | r0 :: r1 :: below =>
          if negb (RunInvariantEstablished r0 (r1 :: below))
             || negb (RunInvariantEstablished r1 below)
          then
            match below with
            | r2 :: below' =>
                if length r2 <? length r0 then
                  let '(m, minGallop) := MergeAt minGallop r2 r1 in
                  MergeCollapse fuel' minGallop (r0 :: m :: below')
                else
                  let '(m, minGallop) := MergeAt minGallop r1 r0 in
                  MergeCollapse fuel' minGallop (m :: below)
            | [] =>
                let '(m, minGallop) := MergeAt minGallop r1 r0 in
                MergeCollapse fuel' minGallop (m :: below)
            end
          else if length r1 <=? length r0 then
            let '(m, minGallop) := MergeAt minGallop r1 r0 in
            MergeCollapse fuel' minGallop (m :: below)
          else (pendingRuns, minGallop)
      | _ => (pendingRuns, minGallop)
      end
  end.

Fixpoint MergeForceCollapse (fuel minGallop : nat)
         (pendingRuns : list (list A)) : list (list A) * nat :=
  match fuel with
  | 0 => (pendingRuns, minGallop)
  | S fuel' =>
      match pendingRuns with
      | r0 :: r1 :: below =>
          match below with
          | r2 :: below' =>
              if length r2 <? length r0 then
                let '(m, minGallop) := MergeAt minGallop r2 r1 in
                MergeForceCollapse fuel' minGallop (r0 :: m :: below')
              else
                let '(m, minGallop) := MergeAt minGallop r1 r0 in
                MergeForceCollapse fuel' minGallop (m :: below)
          | [] =>
              let '(m, minGallop) := MergeAt minGallop r1 r0 in
              MergeForceCollapse fuel' minGallop (m :: below)
          end
      | _ => (pendingRuns, minGallop)
      end
  end.

Fixpoint ComputeMinRunLength_loop (fuel n r : nat) : nat :=
  match fuel with
  | 0 => n + r
  | S fuel' =>
      if 64 <=? n
      then ComputeMinRunLength_loop fuel' (Nat.shiftr n 1)
                                    (Nat.lor r (Nat.land n 1))
      else n + r
  end.

Definition ComputeMinRunLength (n : nat) : nat :=
  ComputeMinRunLength_loop n n 0.

(** The loop of [ArrayTimSortImpl] over the part of the array that is not
    yet cut into runs. *)
Fixpoint ArrayTimSortImpl_loop (fuel minRunLength minGallop : nat)
         (pendingRuns : list (list A)) (remaining : list A)
  : list (list A) * nat :=
  match remaining with
  | [] => (pendingRuns, minGallop)
  | _ :: _ =>
      match fuel with
      | 0 => (remaining :: pendingRuns, minGallop)
      | S fuel' =>
          let '(run, rest) := CountAndMakeRun remaining in
          let forced :=
            Nat.min minRunLength (length remaining) - length run in
          let '(run, rest) :=
            if length run <? minRunLength
            then (BinaryInsertionSort run (firstn forced rest),
                  skipn forced rest)
            else (run, rest) in
          let '(pendingRuns, minGallop) :=
            MergeCollapse (S (length pendingRuns)) minGallop
                          (run :: pendingRuns) in
          ArrayTimSortImpl_loop fuel' minRunLength minGallop
                                pendingRuns rest
      end
  end.

(** The content of the work array: the pending runs, oldest first. *)
Definition workArray_of (pendingRuns : list (list A)) : list A :=
  concat (rev pendingRuns).

Definition ArrayTimSortImpl (l : list A) : list A :=
  if length l <? 2 then l
  else
    let minRunLength := ComputeMinRunLength (length l) in
    let '(pendingRuns, minGallop) :=
      ArrayTimSortImpl_loop (length l) minRunLength kMinGallopWins [] l in
    let '(pendingRuns, _) :=
      MergeForceCollapse (length pendingRuns) minGallop pendingRuns in
    workArray_of pendingRuns.

End TimSort.

(** [arr.sort(comparefn)] for an array of objects. *)
Definition sort {A : Type} (comparefn : A -> A -> Z) (arr : list A)
  : list A :=
  ArrayTimSortImpl comparefn arr.

End ArraySort.

(** ** Notions used to state the facts about the sort *)

Module ArraySortNotions.

Import ArraySort.

Section Tests.

Variable goLeft : nat -> bool.
Variable len : nat.

(** The test turns from [false] to [true] at most once along the run. *)
Definition monotone_test : Prop :=
  forall i j, i <= j -> j < len -> goLeft i = true -> goLeft j = true.

(** [k] is the place where the test turns. *)
Definition turning_point (k : nat) : Prop :=
  k <= len
  /\ (forall i, i < k -> goLeft i = false)
  /\ (forall i, k <= i -> i < len -> goLeft i = true).

End Tests.

Section Orders.

Context {A : Type}.
Variable comparefn : A -> A -> Z.

(** [before x y] is the answer [Compare(x, y) < 0]. *)
Definition before (x y : A) : Prop := order_lt comparefn x y = true.

(** A search cuts a sorted run at [k] so that [key] may stand between
    the two parts. *)
Definition cuts (key : A) (arr : list A) (k : nat) : Prop :=
  k <= length arr
  /\ Forall (fun a => before a key) (firstn k arr)
  /\ Forall (before key) (skipn k arr).

(** The result of a merge: sorted, with the elements of [orig]. *)
Definition merged (orig res : list A) : Prop :=
  StronglySorted before res /\ Permutation res orig.

(** The state of [MergeLow]: [out] is the merged part, [ta] what is left
    of the copy of run A, [rb] what is left of run B. *)
Record low_state (orig out ta rb : list A) : Prop := {
  ls_ta : StronglySorted before (out ++ ta);
  ls_rb : StronglySorted before (out ++ rb);
  ls_last : forall b z pre, In b rb -> ta = pre ++ [z] -> before b z;
  ls_perm : Permutation (out ++ ta ++ rb) orig
}.

(** The state of [MergeHigh]: [ra] is what is left of run A, [tb] what is
    left of the copy of run B, [dest] the merged part. *)
Record high_state (orig ra tb dest : list A) : Prop := {
  hs_ra : StronglySorted before (ra ++ dest);
  hs_tb : StronglySorted before (tb ++ dest);
  hs_first : forall a z post, In a ra -> tb = z :: post -> before z a;
  hs_perm : Permutation (ra ++ tb ++ dest) orig
}.

(** The runs of [runs'] are sorted and hold the elements of [runs]. *)
Definition collapsed (runs runs' : list (list A)) : Prop :=
  Forall (StronglySorted before) runs'
  /\ Permutation (workArray_of runs') (workArray_of runs).

End Orders.

End ArraySortNotions.

(* ===================================================================== *)
(** ** The data the controller works on *)

Open Scope string_scope.
Open Scope list_scope.
Open Scope nat_scope.

(** Modelled from the spec: the model declarations ([database/models]) are
    not part of the controller.  A user has an id, a username, a nickname,
    an e-mail address and a password that is stored as a digest; these are
    the fields the controller names. *)
Record User := {
  user_id : nat;
  user_username : string;
  user_nickname : option string;
  user_email : string;
  user_password : string   (* the stored digest *)
}.

(** Modelled from the spec: a post has an id, an author and a creation
    time; the controller reads [id], [author] and [createdAt]. *)
Record Post := {
  post_id : nat;
  post_author : nat;
  post_createdAt : Z       (* milliseconds *)
}.

(** Modelled from the spec: a row of [sharedPost] or of [likedPost] has an
    id of its own, the id of the user, the id of the post it refers to and
    the time of the share or like; the controller reads [userID], [postId]
    and [createdAt]. *)
Record PostRef := {
  ref_id : nat;
  ref_userID : nat;
  ref_postId : nat;
  ref_createdAt : Z
}.

Record Database := {
  users : list User;
  posts : list Post;
  sharedPost : list PostRef;
  likedPost : list PostRef;
  next_user_id : nat
}.

Definition with_users (d : Database) (us : list User) (next : nat)
  : Database :=
  {| users := us; posts := posts d; sharedPost := sharedPost d;
     likedPost := likedPost d; next_user_id := next |}.

(** [enums/activity] *)
Inductive Activity := POSTED | SHARED | LIKED.

Record ActivityEntry := {
  activity : Activity;
  postID : nat;
  timestamp : Z
}.

(** Modelled from the spec: [Activity.convertToActivity] of
    [enums/activity] is not part of the controller; the specification gives
    an activity entry a kind, a post id and a timestamp, and the comparator
    of the controller reads the field [timestamp]. *)
Definition convertToActivity (a : Activity) (id : nat) (ts : Z)
  : ActivityEntry :=
  {| activity := a; postID := id; timestamp := ts |}.

(** ** Values, errors and responses *)

Inductive Error :=
| TypeError (message : string)
| ValidationError (message : string)
| DatabaseError (message : string)
| TokenError (message : string)
| ERR_HTTP_HEADERS_SENT.

Definition Error_toString (e : Error) : string :=
  match e with
  | TypeError m => String.append "TypeError: " m
  | ValidationError m => String.append "SequelizeValidationError: " m
  | DatabaseError m => String.append "SequelizeDatabaseError: " m
  | TokenError m => String.append "JsonWebTokenError: " m
  | ERR_HTTP_HEADERS_SENT =>
      "Error [ERR_HTTP_HEADERS_SENT]: Cannot set headers after they are sent to the client"
  end.

(** What a handler passes to [res.send]. *)
Inductive Payload :=
| ErrorJson (error : string)                  (* { error: ... } *)
| ErrorMessageJson (message : string)         (* { 'Error message': ... } *)
| TokenJson (message authToken : string)      (* { message, authToken } *)
| Text (text : string)
| ActivityJson (entries : list ActivityEntry)
| ErrorObject (e : Error).

Record Response := {
  status : nat;
  payload : Payload
}.

(** The decoded token. *)
Record Identity := { identity_id : nat }.

(** The outcome of [Authentication.extractUser]: it throws, or it returns a
    value that is either falsy ([None]) or an identity. *)
Inductive Extracted :=
| Threw (e : Error)
| Returned (v : option Identity).

(** The services the controller calls and that live outside of it: the
    password hook and [validatePassword] of the user model, the e-mail
    validator of the user model, and [middlewares/authentication]. *)
Record Platform := {
  hashPassword : string -> string;
  validatePassword : string -> string -> bool;   (* digest, candidate *)
  isEmail : string -> bool;
  generateAuthToken : User -> string;
  extractUser : option string -> Extracted
}.

Record Body := {
  body_username : string;
  body_nickname : option string;
  body_email : string;
  body_password : string
}.

Record Request := {
  params_username : string;
  Authorization : option string;      (* req.get('Authorization') *)
  body : Body
}.

(** [!authToken]: the header is absent or empty. *)
Definition falsy (authToken : option string) : bool :=
  match authToken with
  | None => true
  | Some s => String.eqb s ""
  end.

(** ** The model registry *)

Inductive Model := users_model | posts_model | sharedPost_model
                 | likedPost_model.

(** Modelled from the spec: [models] is the registry object of
    [database/models], which is not part of the controller.  It has one
    property for each persisted entity of the data model, under the names
    the controller and the tests use.  Reading a property that the registry
    does not have gives [undefined]. *)
Definition models (property : string) : option Model :=
  if String.eqb property "users" then Some users_model
  else if String.eqb property "posts" then Some posts_model
  else if String.eqb property "sharedPost" then Some sharedPost_model
  else if String.eqb property "likedPost" then Some likedPost_model
  else None.

(** ** Handlers

    A handler runs on the database and the response object and keeps a log
    of the calls it makes.  It completes normally or by throwing. *)

Inductive Event :=
| FindOneByUsername (username : string)
| FindOneByEmail (email : string)
| Create (username email : string)
| Update (property username : string)
| Destroy (username : string)
| FindAll (property : string) (id : nat)
| ExtractUser (authToken : option string)
| Send (status : nat) (p : Payload).

Record World := {
  db : Database;
  sent : option Response;     (* the response the client receives *)
  log : list Event            (* oldest first *)
}.

Inductive Completion (A : Type) :=
| Normal (a : A)
| Thrown (e : Error).
Arguments Normal {A} a.
Arguments Thrown {A} e.

Definition Handler (A : Type) : Type := World -> Completion A * World.

Definition ret {A} (a : A) : Handler A := fun w => (Normal a, w).

Definition throw {A} (e : Error) : Handler A := fun w => (Thrown e, w).

Definition bind {A B} (h : Handler A) (k : A -> Handler B) : Handler B :=
  fun w =>
    match h w with
    | (Normal a, w') => k a w'
    | (Thrown e, w') => (Thrown e, w')
    end.

(** [try { body } catch (error) { handler }] *)
Definition try_catch {A} (body : Handler A) (handler : Error -> Handler A)
  : Handler A :=
  fun w =>
    match body w with
    | (Normal a, w') => (Normal a, w')
    | (Thrown e, w') => handler e w'
    end.

Notation "x <- h ;; k" := (bind h (fun x => k))
  (at level 61, h at next level, right associativity).
Notation "h ;;; k" := (bind h (fun _ => k))
  (at level 61, right associativity).

Definition record (e : Event) : Handler unit :=
  fun w => (Normal tt, {| db := db w; sent := sent w; log := log w ++ [e] |}).

Definition get_db : Handler Database := fun w => (Normal (db w), w).

Definition put_db (d : Database) : Handler unit :=
  fun w => (Normal tt, {| db := d; sent := sent w; log := log w |}).

(** [res.status(code).send(p)]: the first call answers the client, a later
    call throws because the headers are sent already. *)
Definition send (code : nat) (p : Payload) : Handler unit :=
  record (Send code p) ;;;
  fun w =>
    match sent w with
    | Some _ => (Thrown ERR_HTTP_HEADERS_SENT, w)
    | None =>
        (Normal tt,
         {| db := db w;
            sent := Some {| status := code; payload := p |};
            log := log w |})
    end.

(** ** The calls on the models *)

(** The first row of [users] with the given username, if there is one. *)
Definition user_by_username (d : Database) (username : string)
  : option User :=
  find (fun u => String.eqb (user_username u) username) (users d).

(** The first row of [users] with the given e-mail address. *)
Definition user_by_email (d : Database) (email : string) : option User :=
  find (fun u => String.eqb (user_email u) email) (users d).

(** [models.users.findOne({ where: { username } })] *)
Definition users_findOne_username (username : string)
  : Handler (option User) :=
  record (FindOneByUsername username) ;;;
  d <- get_db ;;
  ret (user_by_username d username).

(** [models.users.findOne({ where: { email } })] *)
Definition users_findOne_email (email : string) : Handler (option User) :=
  record (FindOneByEmail email) ;;;
  d <- get_db ;;
  ret (user_by_email d email).

(** Modelled from the spec: [models.users.create({ username, nickname,
    email, password })].  The user model is not part of the controller; the
    specification and the test of the backend have it refuse an e-mail
    address that is not valid, before any row is written, with the message
    below, and store the digest of the password. *)
Definition users_create (P : Platform) (username : string)
           (nickname : option string) (email password : string)
  : Handler User :=
  record (Create username email) ;;;
  if isEmail P email then
    d <- get_db ;;
    let created :=
      {| user_id := next_user_id d;
         user_username := username;
         user_nickname := nickname;
         user_email := email;
         user_password := hashPassword P password |} in
    put_db (with_users d (users d ++ [created]) (S (next_user_id d))) ;;;
    ret created
  else throw (ValidationError "The email address you entered is invalid").

(** [models.users.destroy({ where: { username } })]: the number of rows
    that were removed. *)
Definition rows_kept (d : Database) (username : string) : list User :=
  filter (fun u => negb (String.eqb (user_username u) username)) (users d).

Definition users_destroy (username : string) : Handler nat :=
  record (Destroy username) ;;;
  d <- get_db ;;
  let kept := rows_kept d username in
  put_db (with_users d kept (next_user_id d)) ;;;
  ret (length (users d) - length kept).

Definition update_row (nickname : option string) (email password : string)
           (u : User) : User :=
  {| user_id := user_id u;
     user_username := user_username u;
     user_nickname := match nickname with
                      | Some n => Some n
                      | None => user_nickname u
                      end;
     user_email := email;
     user_password := password |}.

(** [models.<property>.update({ nickname, email, password },
    { returning: true, where: { username } })]: the call throws when the
    registry has no such property; on the user model it answers an array
    that holds the number of rows it changed. *)
Definition models_update (property : string) (nickname : option string)
           (email password username : string) : Handler (list nat) :=
  match models property with
  | None =>
      throw (TypeError "Cannot read property 'update' of undefined")
  | Some users_model =>
      record (Update property username) ;;;
      d <- get_db ;;
      let hit := fun u => String.eqb (user_username u) username in
      put_db (with_users d
                (map (fun u => if hit u
                               then update_row nickname email password u
                               else u) (users d))
                (next_user_id d)) ;;;
      ret [length (filter hit (users d))]
  | Some _ =>
      record (Update property username) ;;;
      throw (DatabaseError "no such column: username")
  end.

(** An array is an object, and an object is truthy. *)
Definition truthy_array {A : Type} (a : list A) : bool := true.

Definition posts_findAll (author : nat) : Handler (list Post) :=
  record (FindAll "posts" author) ;;;
  d <- get_db ;;
  ret (filter (fun p => post_author p =? author) (posts d)).

Definition sharedPost_findAll (userID : nat) : Handler (list PostRef) :=
  record (FindAll "sharedPost" userID) ;;;
  d <- get_db ;;
  ret (filter (fun p => ref_userID p =? userID) (sharedPost d)).

Definition likedPost_findAll (userID : nat) : Handler (list PostRef) :=
  record (FindAll "likedPost" userID) ;;;
  d <- get_db ;;
  ret (filter (fun p => ref_userID p =? userID) (likedPost d)).

(** [userOfInterest.id] *)
Definition property_id (userOfInterest : option User) : Handler nat :=
  match userOfInterest with
  | Some u => ret (user_id u)
  | None => throw (TypeError "Cannot read property 'id' of null")
  end.

Definition Authentication_extractUser (P : Platform)
           (authToken : option string) : Handler (option Identity) :=
  record (ExtractUser authToken) ;;;
  match extractUser P authToken with
  | Threw e => throw e
  | Returned v => ret v
  end.

(** ** The controller *)

Definition addUser (P : Platform) (req : Request) : Handler unit :=
  try_catch
    (let body := body req in
     duplicateUsername <- users_findOne_username (body_username body) ;;
     match duplicateUsername with
     | Some _ => send 409 (ErrorJson "Username already taken")
     | None =>
         duplicateEmail <- users_findOne_email (body_email body) ;;
         match duplicateEmail with
         | Some _ => send 409 (ErrorJson "Email has already been taken")
         | None =>
             createUser <- users_create P (body_username body)
                             (body_nickname body) (body_email body)
                             (body_password body) ;;
             let authToken := generateAuthToken P createUser in
             send 201 (TokenJson "User successfully created" authToken)
         end
     end)
    (fun error => send 500 (ErrorObject error)).

Definition authenticateUser (P : Platform) (req : Request) : Handler unit :=
  try_catch
    (let body := body req in
     user <- users_findOne_email (body_email body) ;;
     match user with
     | None => send 401 (ErrorJson "Incorrect email or password")
     | Some u =>
         if negb (validatePassword P (user_password u) (body_password body))
         then send 401 (ErrorJson "Incorrect email or password")
         else
           let authToken := generateAuthToken P u in
           send 200 (TokenJson "Authentication successful" authToken)
     end)
    (fun error => send 500 (ErrorMessageJson (Error_toString error))).

(** The comparator of the activity feed:
    [(a, b) => (a.timestamp < b.timestamp) ? 1 : -1] *)
Definition activity_comparefn (a b : ActivityEntry) : Z :=
  if (timestamp a <? timestamp b)%Z then 1%Z else (-1)%Z.

Definition getUserActivity (P : Platform) (req : Request) : Handler unit :=
  try_catch
    (userOfInterest <- users_findOne_username (params_username req) ;;
     let authToken := Authorization req in
     (if falsy authToken
      then send 400 (ErrorMessageJson "Auth token not provided")
      else ret tt) ;;;
     loggedInUser <- Authentication_extractUser P authToken ;;
     match loggedInUser with
     | None => send 401 (ErrorMessageJson "Auth token invalid")
     | Some _ =>
         author <- property_id userOfInterest ;;
         posts <- posts_findAll author ;;
         let postsActivity :=
           map (fun p => convertToActivity POSTED (post_id p)
                                           (post_createdAt p)) posts in
         userID <- property_id userOfInterest ;;
         sharedPosts <- sharedPost_findAll userID ;;
         let sharedPostsActivity :=
           map (fun p => convertToActivity SHARED (ref_postId p)
                                           (ref_createdAt p)) sharedPosts in
         userID <- property_id userOfInterest ;;
         likedPosts <- likedPost_findAll userID ;;
         let likedPostsActivity :=
           map (fun p => convertToActivity LIKED (ref_postId p)
                                           (ref_createdAt p)) likedPosts in
         let activity :=
           postsActivity ++ likedPostsActivity ++ sharedPostsActivity in
         let activity := ArraySort.sort activity_comparefn activity in
         send 200 (ActivityJson activity)
     end)
    (fun error => send 500 (ErrorMessageJson (Error_toString error))).

Definition modifyUserByUsername (P : Platform) (req : Request)
  : Handler unit :=
  try_catch
    (userOfInterest <- users_findOne_username (params_username req) ;;
     let authToken := Authorization req in
     (if falsy authToken
      then send 400 (ErrorMessageJson "Auth token not provided")
      else ret tt) ;;;
     loggedInUser <- Authentication_extractUser P authToken ;;
     match loggedInUser with
     | None => send 401 (ErrorMessageJson "Auth token invalid")
     | Some _ =>
         match userOfInterest with
         | None => send 404 (Text "Invalid username.")
         | Some _ =>
             updatedUser <- models_update "userOfInterest"
                              (body_nickname (body req))
                              (body_email (body req))
                              (body_password (body req))
                              (params_username req) ;;
             if truthy_array updatedUser
             then send 200 (Text "The profile has been updated.")
             else send 500 (Text "Failed to update the profile.")
         end
     end)
    (fun error => send 500 (ErrorObject error)).

Definition deleteUserByUsername (P : Platform) (req : Request)
  : Handler unit :=
  try_catch
    (userOfInterest <- users_findOne_username (params_username req) ;;
     let authToken := Authorization req in
     (if falsy authToken
      then send 400 (ErrorMessageJson "Auth token not provided")
      else ret tt) ;;;
     loggedInUser <- Authentication_extractUser P authToken ;;
     match loggedInUser with
     | None => send 401 (ErrorMessageJson "Auth token invalid")
     | Some _ =>
         match userOfInterest with
         | None => send 404 (Text "Invalid username.")
         | Some _ =>
             deleteUser <- users_destroy (params_username req) ;;
             if negb (deleteUser =? 0)
             then send 200 (Text "The user has been deleted.")
             else send 500 (Text "Failed to destroy the user.")
         end
     end)
    (fun error => send 500 (ErrorObject error)).

(** *** The delete handler over any store

    What [models.users.destroy({ where: { username } })] does is the
    store's business: [destroy] gives, for a store and a username, the store
    that the call leaves behind and the number of rows that it reports.  The
    handler below is [deleteUserByUsername] with that call left open;
    [store_destroy] is the call of the store modelled above. *)

Definition users_destroy_by (destroy : Database -> string -> Database * nat)
           (username : string) : Handler nat :=
  record (Destroy username) ;;;
  d <- get_db ;;
  put_db (fst (destroy d username)) ;;;
  ret (snd (destroy d username)).

Definition deleteUserByUsername_over
           (destroy : Database -> string -> Database * nat)
           (P : Platform) (req : Request) : Handler unit :=
  try_catch
    (userOfInterest <- users_findOne_username (params_username req) ;;
     let authToken := Authorization req in
     (if falsy authToken
      then send 400 (ErrorMessageJson "Auth token not provided")
      else ret tt) ;;;
     loggedInUser <- Authentication_extractUser P authToken ;;
     match loggedInUser with
     | None => send 401 (ErrorMessageJson "Auth token invalid")
     | Some _ =>
         match userOfInterest with
         | None => send 404 (Text "Invalid username.")
         | Some _ =>
             deleteUser <- users_destroy_by destroy (params_username req) ;;
             if negb (deleteUser =? 0)
             then send 200 (Text "The user has been deleted.")
             else send 500 (Text "Failed to destroy the user.")
         end
     end)
    (fun error => send 500 (ErrorObject error)).

Definition store_destroy (d : Database) (username : string)
  : Database * nat :=
  (with_users d (rows_kept d username) (next_user_id d),
   length (users d) - length (rows_kept d username)).

(** ** Running a handler on a request *)

Definition start (d : Database) : World :=
  {| db := d; sent := None; log := [] |}.

(** The world a handler leaves behind when it serves one request. *)
Definition serve (h : Handler unit) (d : Database) : World :=
  snd (h (start d)).

(** How the handler ended: [None] when it returned, the error when the
    promise of the handler was rejected. *)
Definition rejection (h : Handler unit) (d : Database) : option Error :=
  match fst (h (start d)) with
  | Normal _ => None
  | Thrown e => Some e
  end.

(** ** A reference platform and a small database

    One instance of the services, used to run the controller on concrete
    requests: the digest of a password is the password behind a tag, an
    e-mail address is valid when it has an [@], and a token is the id of the
    user in unary, sent behind [Bearer]. *)

Module Reference.

Definition digest (password : string) : string :=
  String.append "digest:" password.

Definition verify (stored candidate : string) : bool :=
  String.eqb stored (digest candidate).

Fixpoint has_at (s : string) : bool :=
  match s with
  | EmptyString => false
  | String c s' => Ascii.eqb c "@"%char || has_at s'
  end.

Fixpoint unary (n : nat) : string :=
  match n with
  | 0 => EmptyString
  | S k => String "I"%char (unary k)
  end.

Fixpoint count (s : string) : option nat :=
  match s with
  | EmptyString => Some 0
  | String c s' =>
      if Ascii.eqb c "I"%char then option_map S (count s') else None
  end.

Definition bearer (header : string) : option string :=
  match header with
  | String "B"%char (String "e"%char (String "a"%char (String "r"%char
      (String "e"%char (String "r"%char (String " "%char token)))))) =>
      Some token
  | _ => None
  end.

Definition decode (header : option string) : Extracted :=
  match header with
  | None => Threw (TypeError "Cannot read property 'split' of undefined")
  | Some h =>
      match bearer h with
      | None => Threw (TokenError "jwt must be provided")
      | Some token =>
          match count token with
          | Some n => Returned (Some {| identity_id := n |})
          | None => Threw (TokenError "jwt malformed")
          end
      end
  end.

Definition platform : Platform :=
  {| hashPassword := digest;
     validatePassword := verify;
     isEmail := has_at;
     generateAuthToken := fun u => unary (user_id u);
     extractUser := decode |}.

Definition alice : User :=
  {| user_id := 1; user_username := "alice"; user_nickname := Some "Al";
     user_email := "alice@updog.nz"; user_password := digest "wonderland" |}.

Definition bob : User :=
  {| user_id := 2; user_username := "bob"; user_nickname := None;
     user_email := "bob@updog.nz"; user_password := digest "builder" |}.

(** Alice wrote post 10 and liked post 20 in the same millisecond, and
    shared post 30 later. *)
Definition database : Database :=
  {| users := [alice; bob];
     posts := [ {| post_id := 10; post_author := 1; post_createdAt := 5000 |};
                {| post_id := 20; post_author := 2; post_createdAt := 4000 |};
                {| post_id := 30; post_author := 2; post_createdAt := 4500 |} ];
     sharedPost := [ {| ref_id := 1; ref_userID := 1; ref_postId := 30;
                        ref_createdAt := 7000 |} ];
     likedPost := [ {| ref_id := 1; ref_userID := 1; ref_postId := 20;
                       ref_createdAt := 5000 |} ];
     next_user_id := 3 |}.

Definition no_body : Body :=
  {| body_username := ""; body_nickname := None; body_email := "";
     body_password := "" |}.

(** Bob's token and Alice's token, as they are sent. *)
Definition token_of_bob : string := "Bearer II".
Definition token_of_alice : string := "Bearer I".

(** [POST /users] *)
Definition create_request (username email : string) : Request :=
  {| params_username := ""; Authorization := None;
     body := {| body_username := username; body_nickname := None;
                body_email := email; body_password := "pw" |} |}.

(** [POST /users/authenticate] *)
Definition login_request (email password : string) : Request :=
  {| params_username := ""; Authorization := None;
     body := {| body_username := ""; body_nickname := None;
                body_email := email; body_password := password |} |}.

(** A request on [/users/:username], with or without a token. *)
Definition profile_request (username : string) (token : option string)
  : Request :=
  {| params_username := username; Authorization := token;
     body := {| body_username := ""; body_nickname := Some "Ally";
                body_email := "ally@updog.nz";
                body_password := "looking-glass" |} |}.

Definition posted : ActivityEntry :=
  {| activity := POSTED; postID := 10; timestamp := 5000 |}.
Definition liked : ActivityEntry :=
  {| activity := LIKED; postID := 20; timestamp := 5000 |}.
Definition shared : ActivityEntry :=
  {| activity := SHARED; postID := 30; timestamp := 7000 |}.

End Reference.

(** ** Notions used to state the properties *)

(** The request carries a token and the token decodes to [who]. *)
Definition authenticated (P : Platform) (req : Request) (who : Identity)
  : Prop :=
  falsy (Authorization req) = false
  /\ extractUser P (Authorization req) = Returned (Some who).

(** A token that is sent behind [Bearer] decodes to the user it was issued
    for (the contract of [middlewares/authentication] that the tests of the
    backend rely on). *)
Definition token_round_trip (P : Platform) : Prop :=
  forall u, exists who,
    extractUser P (Some (String.append "Bearer " (generateAuthToken P u)))
    = Returned (Some who)
    /\ identity_id who = user_id u.

(** No two rows of [users] have the same e-mail address. *)
Definition unique_emails (d : Database) : Prop :=
  NoDup (map user_email (users d)).

(** The three sequences of entries that the feed of [u] is made of. *)
Definition posted_entries (d : Database) (u : User) : list ActivityEntry :=
  map (fun p => {| activity := POSTED; postID := post_id p;
                   timestamp := post_createdAt p |})
      (filter (fun p => post_author p =? user_id u) (posts d)).

Definition liked_entries (d : Database) (u : User) : list ActivityEntry :=
  map (fun p => {| activity := LIKED; postID := ref_postId p;
                   timestamp := ref_createdAt p |})
      (filter (fun p => ref_userID p =? user_id u) (likedPost d)).

Definition shared_entries (d : Database) (u : User) : list ActivityEntry :=
  map (fun p => {| activity := SHARED; postID := ref_postId p;
                   timestamp := ref_createdAt p |})
      (filter (fun p => ref_userID p =? user_id u) (sharedPost d)).

Definition concatenation (d : Database) (u : User) : list ActivityEntry :=
  posted_entries d u ++ liked_entries d u ++ shared_entries d u.

(** [a] stands somewhere before [b] in [l]. *)
Definition precedes {A : Type} (a b : A) (l : list A) : Prop :=
  exists l1 l2 l3, l = l1 ++ a :: l2 ++ b :: l3.

(** Entries with equal timestamps keep the order they have in [before]. *)
Definition keeps_tie_order (before after : list ActivityEntry) : Prop :=
  forall a b, timestamp a = timestamp b ->
              precedes a b before -> precedes a b after.

(** The number of rows that [destroy] removes for a username. *)
Definition rows_removed (d : Database) (username : string) : nat :=
  length (users d) - length (rows_kept d username).

(** The row that [create] writes for a request. *)
Definition created_row (P : Platform) (d : Database) (b : Body) : User :=
  {| user_id := next_user_id d;
     user_username := body_username b;
     user_nickname := body_nickname b;
     user_email := body_email b;
     user_password := hashPassword P (body_password b) |}.

Definition response (code : nat) (p : Payload) : option Response :=
  Some {| status := code; payload := p |}.

(** The create-user operation as the specification words it: a request
    whose username and e-mail address are both free is answered with 201
    and a token. *)
Definition create_succeeds_when_free : Prop :=
  forall P req d,
    user_by_username d (body_username (body req)) = None ->
    user_by_email d (body_email (body req)) = None ->
    exists authToken,
      sent (serve (addUser P req) d)
      = response 201 (TokenJson "User successfully created" authToken).

(** Logging in as the specification words it: every stored user who gives
    their e-mail address and a password that verifies against their digest
    is answered with 200 and a token that decodes to their id. *)
Definition every_stored_user_logs_in : Prop :=
  forall P req d u,
    token_round_trip P ->
    In u (users d) ->
    user_email u = body_email (body req) ->
    validatePassword P (user_password u) (body_password (body req)) = true ->
    exists authToken who,
      sent (serve (authenticateUser P req) d)
      = response 200 (TokenJson "Authentication successful" authToken)
      /\ extractUser P (Some (String.append "Bearer " authToken))
         = Returned (Some who)
      /\ identity_id who = user_id u.

(** A second user who was stored with the e-mail address of Alice, as
    [models.users.create] allows it. *)
Definition Reference_alix : User :=
  {| user_id := 3; user_username := "alix"; user_nickname := None;
     user_email := "alice@updog.nz";
     user_password := Reference.digest "mirror" |}.

Definition Reference_shared_address : Database :=
  {| users := [Reference.alice; Reference.bob; Reference_alix];
     posts := []; sharedPost := []; likedPost := [];
     next_user_id := 4 |}.

(** ** The profile read *)

(** [decodedUser.id]: reading a property of [null] throws. *)
Definition decodedUser_id (decodedUser : option Identity) : Handler nat :=
  match decodedUser with
  | Some who => ret (identity_id who)
  | None => throw (TypeError "Cannot read property 'id' of null")
  end.

(** Modelled from the spec: [UserDTO.convertToDto] of [dto/users] is not
    part of the controller.  The specification has it shape the part of a
    user record that may be shown; here it is a service that is given the
    row that was found ([None] for [null]) and answers the body to send, or
    throws. *)
Definition UserDTO_convertToDto
           (convertToDto : option User -> Completion Payload)
           (user : option User) : Handler Payload :=
  fun w => (convertToDto user, w).

Definition getUsersByUsername (P : Platform)
           (convertToDto : option User -> Completion Payload)
           (req : Request) : Handler unit :=
  try_catch
    (user <- users_findOne_username (params_username req) ;;
     let authToken := Authorization req in
     (if falsy authToken
      then send 400 (ErrorMessageJson "Auth token not provided")
      else ret tt) ;;;
     decodedUser <- Authentication_extractUser P authToken ;;
     id <- decodedUser_id decodedUser ;;
     if id =? 0                              (* [!decodedUser.id] *)
     then send 401 (ErrorMessageJson "Auth token invalid")
     else
       userDTO <- UserDTO_convertToDto convertToDto user ;;
       send 200 userDTO)
    (fun error => send 500 (ErrorMessageJson (Error_toString error))).

(** ** More notions used to state properties *)

(** The calls of [res.send] that a handler made, in order; only the first
    one reaches the client. *)
Fixpoint send_attempts (l : list Event) : list Response :=
  match l with
  | [] => []
  | Send code p :: l' => {| status := code; payload := p |} :: send_attempts l'
  | _ :: l' => send_attempts l'
  end.

(** The calls that write to the store. *)
Fixpoint write_calls (l : list Event) : list Event :=
  match l with
  | [] => []
  | Create username email :: l' => Create username email :: write_calls l'
  | Update property username :: l' =>
      Update property username :: write_calls l'
  | Destroy username :: l' => Destroy username :: write_calls l'
  | _ :: l' => write_calls l'
  end.


(** A password verifies against its own digest (the contract between the
    hook that stores the digest and [validatePassword]). *)
Definition password_round_trip (P : Platform) : Prop :=
  forall password, validatePassword P (hashPassword P password) password = true.

(** The timestamps of the entries strictly decrease along the list. *)
Definition strictly_descending (l : list ActivityEntry) : Prop :=
  StronglySorted (fun a b => (timestamp b < timestamp a)%Z) l.

(** A conversion used to run the profile read on concrete requests: the
    body is the username of the row, and [null] makes it throw. *)
Definition Reference_convertToDto (user : option User) : Completion Payload :=
  match user with
  | Some u => Normal (Text (user_username u))
  | None => Thrown (TypeError "Cannot read property 'dataValues' of null")
  end.

(** The handler made one call of [res.send], the client received that
    response, and the promise of the handler is fulfilled. *)
Definition answers_once (h : Handler unit) (d : Database) : Prop :=
  rejection h d = None
  /\ exists r, send_attempts (log (serve h d)) = [r]
               /\ sent (serve h d) = Some r.


(** A token service that answers [null] where the reference one throws. *)
Definition Reference_quiet : Platform :=
  {| hashPassword := Reference.digest;
     validatePassword := Reference.verify;
     isEmail := Reference.has_at;
     generateAuthToken := fun u => Reference.unary (user_id u);
     extractUser := fun header =>
                      match Reference.decode header with
                      | Threw _ => Returned None
                      | Returned v => Returned v
                      end |}.

(** ** The banner dialog of the frontend

    The component [BannerSetting] of [BannerSettingView.jsx] returns a tree
    of elements.  An element has the name of its component, its props and
    its children; a handler prop is the list of the calls that the arrow
    function makes on the function props of the dialog ([setOpen],
    [action.setSelected], [action.handleSave], [upload]). *)

Inductive Call :=
| setOpen (value : bool)
| action_setSelected (name : string)
| action_handleSave
| upload.

Inductive Value :=
| VString (s : string)
| VNumber (n : nat)
| VBool (b : bool)
| VObject (fields : list (string * string))
| VClass (name : string)             (* [classes.name] of the style module *)
| VHandler (calls : list Call).

#[warnings="-register-all"]
Inductive Element :=
| Node (component : string) (props : list (string * Value))
       (children : list Element)
| TextNode (text : string).

Record Banner := {
  banner_name : string;
  banner_imageUrl : string
}.

Record BannerSettingProps := {
  opened : bool;
  defaultBanners : list Banner;
  currentBanner : option string;
  selected : option string
}.

(** [data.name === selected], the negation of the test in the cell. *)
Definition is_selected (selected : option string) (data : Banner) : bool :=
  match selected with
  | Some s => String.eqb (banner_name data) s
  | None => false
  end.

(** The callback of [defaultBanners.map]. *)
Definition banner_cell (selected : option string) (data : Banner)
  : Element :=
  Node "Grid"
    [("key", VString (banner_name data)); ("item", VBool true);
     ("xs", VNumber 6);
     ("onClick", VHandler [action_setSelected (banner_name data)]);
     ("id", VString (banner_name data))]
    [ if negb (is_selected selected data)
      then
        Node "Card" []
          [Node "CardActionArea" []
             [Node "CardMedia"
                [("component", VString "img"); ("height", VString "50");
                 ("image", VString (banner_imageUrl data));
                 ("title", VString "default banner")] []]]
      else
        Node "SelectedCard" []
          [Node "CardActionArea" []
             [Node "CardMedia"
                [("component", VString "img"); ("height", VString "50");
                 ("image", VString (banner_imageUrl data));
                 ("title", VString "default banner")] []]] ].

Definition BannerSetting (props : BannerSettingProps) : Element :=
  Node "Dialog"
    [("open", VBool (opened props)); ("fullWidth", VBool true);
     ("maxWidth", VString "xl"); ("id", VString "dialog")]
    [Node "Grid" [("container", VBool true); ("direction", VString "column")]
       [Node "Grid" [("item", VBool true)]
          [Node "Card" []
             [Node "DialogTitle" []
                [Node "Grid"
                   [("container", VBool true);
                    ("sx", VObject [("justifyContent", "space-between")])]
                   [Node "Grid" [("item", VBool true)]
                      [Node "Typography" [("variant", VString "h6")]
                         [Node "strong" [] [TextNode "Change Banner"]]];
                    Node "Grid" [("item", VBool true)]
                      [Node "CloseIcon"
                         [("onClick", VHandler [setOpen false]);
                          ("id", VString "closeButton")] []];
                    Node "Grid"
                      [("container", VBool true); ("spacing", VNumber 2);
                       ("className", VClass "defaultBannerContainer")]
                      (map (banner_cell (selected props))
                           (defaultBanners props))]]]];
        Node "Grid" [("item", VBool true)]
          [Node "Grid"
             [("container", VBool true); ("direction", VString "column");
              ("spacing", VNumber 3); ("className", VClass "container");
              ("sx", VObject [("alignItems", "center")])]
             [Node "Grid" [("item", VBool true)]
                [Node "Grid"
                   [("container", VBool true);
                    ("direction", VString "column");
                    ("sx", VObject [("alignItems", "center")])]
                   [Node "Grid" [("item", VBool true)]
                      [Node "Button"
                         [("display", VString "flex");
                          ("sx", VObject [("justifyContent", "center");
                                          ("alignItems", "center")])]
                         [Node "DriveFolderUploadIcon"
                            [("sx", VObject [("height", "40%");
                                             ("width", "40%")])] []]];
                    Node "Grid" [("item", VBool true)]
                      [Node "Grid"
                         [("item", VBool true);
                          ("className", VClass "typography")]
                         [Node "Typography" []
                            [Node "strong" []
                               [TextNode
                                  "Choose image from your device"]]]]]];
              Node "Grid"
                [("item", VBool true); ("alignSelf", VString "center")]
                [Node "Button"
                   [("variant", VString "contained");
                    ("onClick", VHandler [action_handleSave]);
                    ("className", VClass "saveButton");
                    ("id", VString "saveButton")]
                   [TextNode "Save"]]]]]].

(** *** Reading a tree of elements *)

(** The elements of a tree, parents before children, in document order. *)
Fixpoint nodes (e : Element) : list Element :=
  match e with
  | Node _ _ children => e :: flat_map nodes children
  | TextNode _ => [e]
  end.

Definition component_of (e : Element) : option string :=
  match e with
  | Node component _ _ => Some component
  | TextNode _ => None
  end.

Definition children_of (e : Element) : list Element :=
  match e with
  | Node _ _ children => children
  | TextNode _ => []
  end.

Definition prop_of (name : string) (e : Element) : option Value :=
  match e with
  | Node _ props _ =>
      option_map snd (find (fun p => String.eqb (fst p) name) props)
  | TextNode _ => None
  end.

(** The calls that a click on the element itself makes. *)
Definition onClick_of (e : Element) : list Call :=
  match prop_of "onClick" e with
  | Some (VHandler calls) => calls
  | _ => []
  end.

(** What the clickable elements of a tree do, in document order. *)
Definition clicks (e : Element) : list (list Call) :=
  filter (fun calls => negb (length calls =? 0)) (map onClick_of (nodes e)).

Definition has_child (component : string) (e : Element) : bool :=
  existsb (fun c => match component_of c with
                    | Some name => String.eqb name component
                    | None => false
                    end) (children_of e).

(** The ids of the elements that hold a [SelectedCard]. *)
Definition highlighted (e : Element) : list (option Value) :=
  map (prop_of "id") (filter (has_child "SelectedCard") (nodes e)).

(** A store in which the post, the like and the share of Alice were all
    made in the same millisecond. *)
Definition Reference_ties : Database :=
  {| users := [Reference.alice; Reference.bob];
     posts := [ {| post_id := 10; post_author := 1; post_createdAt := 5000 |};
                {| post_id := 11; post_author := 1; post_createdAt := 5000 |} ];
     sharedPost := [ {| ref_id := 1; ref_userID := 1; ref_postId := 30;
                        ref_createdAt := 5000 |} ];
     likedPost := [ {| ref_id := 1; ref_userID := 1; ref_postId := 20;
                       ref_createdAt := 5000 |} ];
     next_user_id := 3 |}.

(* ===================================================================== *)
(** ** Facts about the engine's sort *)

Module ArraySortFacts.
Import ArraySort ArraySortNotions.

(** *** The two searches *)

Section Search.

Variable goLeft : nat -> bool.
Variable len : nat.

Hypothesis mono : monotone_test goLeft len.

Lemma mono_false : forall i j, i <= j -> j < len ->
  goLeft j = false -> goLeft i = false.
Proof.
  intros i j Hij Hj Hf. destruct (goLeft i) eqn:E; auto.
  rewrite (mono Hij Hj E) in Hf. discriminate.
Qed.

Lemma gallop_bisect_turning :
  forall fuel lo hi,
    hi - lo <= fuel -> lo <= hi -> hi <= len ->
    (forall i, i < lo -> goLeft i = false) ->
    (forall i, hi <= i -> i < len -> goLeft i = true) ->
    turning_point goLeft len (gallop_bisect fuel goLeft lo hi).
Proof.
  induction fuel as [|fuel IH]; intros lo hi Hf Hle Hlen Hlo Hhi;
    cbn [gallop_bisect].
  - assert (lo = hi) by lia. subst. repeat split; auto.
  - destruct (lo <? hi) eqn:E.
    + apply Nat.ltb_lt in E.
      assert (Hm : lo <= lo + (hi - lo) / 2 < hi).
      { split; [lia|].
        assert ((hi - lo) / 2 < hi - lo) by (apply Nat.div_lt; lia). lia. }
      destruct (goLeft (lo + (hi - lo) / 2)) eqn:G.
      * apply IH; try lia; auto.
        intros i Hi1 Hi2. apply (mono Hi1 Hi2 G).
      * apply IH; try lia; auto.
        intros i Hi. apply mono_false with (j := lo + (hi - lo) / 2);
          auto; lia.
    + apply Nat.ltb_ge in E. assert (lo = hi) by lia. subst.
      repeat split; auto.
Qed.

Lemma gallop_phase_spec :
  forall fuel stop maxOfs lastOfs offset,
    maxOfs - offset <= fuel ->
    lastOfs < offset -> lastOfs < maxOfs -> stop lastOfs = false ->
    let r := gallop_phase fuel stop maxOfs lastOfs offset in
    fst r < snd r /\ fst r < maxOfs /\ stop (fst r) = false
    /\ (snd r < maxOfs -> stop (snd r) = true).
Proof.
  induction fuel as [|fuel IH]; intros stop maxOfs lastOfs offset Hf H1 H2 H3;
    cbn [gallop_phase].
  - simpl. repeat split; auto. intros. lia.
  - destruct (offset <? maxOfs) eqn:E.
    + apply Nat.ltb_lt in E. destruct (stop offset) eqn:S.
      * simpl. auto.
      * apply IH; auto; lia.
    + apply Nat.ltb_ge in E. simpl. repeat split; auto. intros. lia.
Qed.

Lemma gallop_turning : forall hint,
  hint < len -> turning_point goLeft len (gallop goLeft len hint).
Proof.
  intros hint Hh. unfold gallop. destruct (goLeft hint) eqn:G.
  - pose proof (@gallop_phase_spec (hint + 1)
                  (fun o => negb (goLeft (hint - o))) (hint + 1) 0 1) as P.
    destruct (gallop_phase (hint + 1) (fun o => negb (goLeft (hint - o)))
                           (hint + 1) 0 1) as [l o].
    simpl in P. rewrite Nat.sub_0_r, G in P.
    destruct P as (P1 & P2 & P3 & P4); try lia; auto.
    apply negb_false_iff in P3.
    apply gallop_bisect_turning; try lia.
    + intros i Hi.
      destruct (le_lt_dec (hint + 1) o) as [Ho|Ho].
      * rewrite Nat.min_r in Hi by lia. lia.
      * rewrite Nat.min_l in Hi by lia.
        specialize (P4 Ho). apply negb_true_iff in P4.
        apply mono_false with (j := hint - o); auto; lia.
    + intros i Hi1 Hi2. apply (mono Hi1 Hi2 P3).
  - pose proof (@gallop_phase_spec (len - hint)
                  (fun o => goLeft (hint + o)) (len - hint) 0 1) as P.
    destruct (gallop_phase (len - hint) (fun o => goLeft (hint + o))
                           (len - hint) 0 1) as [l o].
    simpl in P. rewrite Nat.add_0_r, G in P.
    destruct P as (P1 & P2 & P3 & P4); try lia; auto.
    apply gallop_bisect_turning; try lia.
    + intros i Hi. apply mono_false with (j := hint + l); auto; lia.
    + intros i Hi1 Hi2.
      destruct (le_lt_dec (len - hint) o) as [Ho|Ho].
      * rewrite Nat.min_r in Hi1 by lia. lia.
      * rewrite Nat.min_l in Hi1 by lia.
        apply (@mono (hint + o) i); auto; lia.
Qed.

End Search.

(** *** Plain facts about lists *)

Section Lists.

Context {A : Type}.

Lemma Forall_firstn_nth : forall (P : A -> Prop) k (l : list A),
  (forall i x, i < k -> nth_error l i = Some x -> P x) ->
  Forall P (firstn k l).
Proof.
  intros P k l H. apply Forall_forall. intros x Hx.
  apply In_nth_error in Hx. destruct Hx as [i Hi].
  assert (i < length (firstn k l)) by (apply nth_error_Some; congruence).
  rewrite length_firstn in H0.
  rewrite nth_error_firstn in Hi.
  destruct (i <? k) eqn:E; [|apply Nat.ltb_ge in E; lia].
  apply Nat.ltb_lt in E. eauto.
Qed.

Lemma Forall_skipn_nth : forall (P : A -> Prop) k (l : list A),
  (forall i x, k <= i -> nth_error l i = Some x -> P x) ->
  Forall P (skipn k l).
Proof.
  intros P k l H. apply Forall_forall. intros x Hx.
  apply In_nth_error in Hx. destruct Hx as [i Hi].
  rewrite nth_error_skipn in Hi. apply (H (k + i)); auto. lia.
Qed.

Lemma unsnoc_Some : forall (l l' : list A) x,
  unsnoc l = Some (l', x) -> l = l' ++ [x].
Proof.
  unfold unsnoc. intros l l' x H. destruct (rev l) eqn:E; [discriminate|].
  inversion H; subst. rewrite <- (rev_involutive l), E. reflexivity.
Qed.

Lemma unsnoc_None : forall (l : list A), unsnoc l = None -> l = [].
Proof.
  unfold unsnoc. intros l H. destruct (rev l) eqn:E; [|discriminate].
  rewrite <- (rev_involutive l), E. reflexivity.
Qed.

End Lists.

(** *** Comparators that order the whole array

    [before x y] is the answer [Compare(x, y) < 0].  The facts below hold
    for every comparator for which that answer is given for at least one of
    [(x, y)] and [(y, x)] and is transitive; the comparator of the activity
    feed is one of them ([x] is before [y] when [x] is not older than
    [y]). *)

Section Ordered.

Context {A : Type}.
Variable comparefn : A -> A -> Z.

Local Notation "'before'" := (ArraySortNotions.before comparefn).
Local Notation "'cuts'" := (ArraySortNotions.cuts comparefn).
Local Notation "'merged'" := (ArraySortNotions.merged comparefn).
Local Notation "'low_state'" := (ArraySortNotions.low_state comparefn).
Local Notation "'high_state'" := (ArraySortNotions.high_state comparefn).
Local Notation "'collapsed'" := (ArraySortNotions.collapsed comparefn).

Hypothesis before_total : forall x y, before x y \/ before y x.
Hypothesis before_trans :
  forall x y z, before x y -> before y z -> before x z.

Local Notation "'sorted'" := (StronglySorted before).

Lemma before_refl : forall x, before x x.
Proof. intros x. destruct (before_total x x); auto. Qed.

Lemma not_lt_before : forall x y,
  order_lt comparefn x y = false -> before y x.
Proof.
  intros x y H. destruct (before_total x y) as [H1|H1]; auto.
  unfold ArraySortNotions.before in H1. congruence.
Qed.

Lemma sorted_app : forall l1 l2,
  sorted (l1 ++ l2) <->
  sorted l1 /\ sorted l2 /\
  (forall x y, In x l1 -> In y l2 -> before x y).
Proof.
  induction l1 as [|a l1 IH]; intros l2; simpl.
  - split.
    + intros H. repeat split; auto. constructor. intros x y [].
    + intros (_ & H & _). exact H.
  - split.
    + intros H. inversion H as [|? ? Hs Hf]; subst.
      apply IH in Hs. destruct Hs as (S1 & S2 & S3).
      rewrite Forall_app in Hf. destruct Hf as [F1 F2].
      repeat split; auto.
      * constructor; auto.
      * intros x y [->|Hx] Hy; auto.
        rewrite Forall_forall in F2. auto.
    + intros (S1 & S2 & S3). inversion S1 as [|? ? Hs Hf]; subst.
      constructor.
      * apply IH. repeat split; auto.
      * rewrite Forall_app. split; auto.
        apply Forall_forall. intros y Hy. apply S3; auto.
Qed.

Lemma sorted_nth : forall l i j x y,
  sorted l -> i <= j ->
  nth_error l i = Some x -> nth_error l j = Some y -> before x y.
Proof.
  induction l as [|a l IH]; intros i j x y Hs Hij Hi Hj.
  - destruct i; discriminate.
  - inversion Hs as [|? ? Hs' Hf]; subst.
    destruct i as [|i], j as [|j]; simpl in *.
    + inversion Hi; inversion Hj; subst. apply before_refl.
    + inversion Hi; subst. rewrite Forall_forall in Hf.
      apply Hf. eapply nth_error_In; eauto.
    + lia.
    + apply (IH i j x y); auto. lia.
Qed.

Lemma GallopRight_cuts : forall key arr hint,
  sorted arr -> hint < length arr ->
  cuts key arr (GallopRight comparefn key arr hint).
Proof.
  intros key arr hint Hs Hh. unfold GallopRight.
  assert (M : monotone_test
                (fun i => test_at arr i (order_lt comparefn key))
                (length arr)).
  { intros i j Hij Hj. unfold test_at.
    destruct (nth_error arr i) as [x|] eqn:Ei; [|discriminate].
    destruct (nth_error arr j) as [y|] eqn:Ej.
    - intros H. apply (@before_trans key x y); [exact H|].
      apply (sorted_nth Hs Hij Ei Ej).
    - apply nth_error_None in Ej. lia. }
  destruct (gallop_turning M Hh) as (T1 & T2 & T3).
  split; [exact T1|]. split.
  - apply Forall_firstn_nth. intros i x Hi Hx.
    specialize (T2 i Hi). unfold test_at in T2. rewrite Hx in T2.
    apply not_lt_before; auto.
  - apply Forall_skipn_nth. intros i x Hi Hx.
    assert (i < length arr) by (apply nth_error_Some; congruence).
    specialize (T3 i Hi H). unfold test_at in T3. rewrite Hx in T3.
    exact T3.
Qed.

Lemma GallopLeft_cuts : forall key arr hint,
  sorted arr -> hint < length arr ->
  cuts key arr (GallopLeft comparefn key arr hint).
Proof.
  intros key arr hint Hs Hh. unfold GallopLeft.
  assert (M : monotone_test
                (fun i => negb (test_at arr i
                                  (fun x => order_lt comparefn x key)))
                (length arr)).
  { intros i j Hij Hj. unfold test_at.
    destruct (nth_error arr i) as [x|] eqn:Ei.
    - destruct (nth_error arr j) as [y|] eqn:Ej; [|reflexivity].
      intros H. apply negb_true_iff in H. apply negb_true_iff.
      destruct (order_lt comparefn y key) eqn:E; auto.
      assert (before x key).
      { apply (@before_trans x y key); [|exact E].
        apply (sorted_nth Hs Hij Ei Ej). }
      unfold ArraySortNotions.before in H0. congruence.
    - apply nth_error_None in Ei. lia. }
  destruct (gallop_turning M Hh) as (T1 & T2 & T3).
  split; [exact T1|]. split.
  - apply Forall_firstn_nth. intros i x Hi Hx.
    specialize (T2 i Hi). unfold test_at in T2. rewrite Hx in T2.
    apply negb_false_iff in T2. exact T2.
  - apply Forall_skipn_nth. intros i x Hi Hx.
    assert (i < length arr) by (apply nth_error_Some; congruence).
    specialize (T3 i Hi H). unfold test_at in T3. rewrite Hx in T3.
    apply negb_true_iff in T3. apply not_lt_before; auto.
Qed.

(** *** Merging two runs *)

Lemma head_before : forall x l y,
  sorted (x :: l) -> In y (x :: l) -> before x y.
Proof.
  intros x l y Hs [->|Hy].
  - apply before_refl.
  - inversion Hs as [|? ? _ Hf]; subst. rewrite Forall_forall in Hf. auto.
Qed.

Lemma last_before : forall x l y,
  sorted (l ++ [x]) -> In y (l ++ [x]) -> before y x.
Proof.
  intros x l y Hs Hy. apply in_app_or in Hy. destruct Hy as [Hy|[->|[]]].
  - apply sorted_app in Hs. destruct Hs as (_ & _ & H). apply H; simpl; auto.
  - apply before_refl.
Qed.

Lemma low_takeA : forall orig out p ta rb,
  low_state orig out (p ++ ta) rb ->
  (forall x y, In x p -> In y rb -> before x y) ->
  low_state orig (out ++ p) ta rb.
Proof.
  intros orig out p ta rb [H1 H2 H3 H4] Hp. split.
  - rewrite <- app_assoc. exact H1.
  - rewrite <- app_assoc. apply sorted_app in H1, H2.
    destruct H1 as (S1 & S2 & S3), H2 as (T1 & T2 & T3).
    apply sorted_app in S2. destruct S2 as (U1 & U2 & U3).
    apply sorted_app. repeat split; auto.
    + apply sorted_app. repeat split; auto.
    + intros x y Hx Hy. apply in_app_or in Hy. destruct Hy; auto.
      apply S3; auto. apply in_or_app; auto.
  - intros b z pre Hb ->. apply (H3 b z (p ++ pre)); auto.
    rewrite app_assoc. reflexivity.
  - rewrite <- !app_assoc in *. exact H4.
Qed.

Lemma low_takeB : forall orig out p ta rb,
  low_state orig out ta (p ++ rb) ->
  (forall x y, In x p -> In y ta -> before x y) ->
  low_state orig (out ++ p) ta rb.
Proof.
  intros orig out p ta rb [H1 H2 H3 H4] Hp. split.
  - rewrite <- app_assoc. apply sorted_app in H1, H2.
    destruct H1 as (S1 & S2 & S3), H2 as (T1 & T2 & T3).
    apply sorted_app in T2. destruct T2 as (U1 & U2 & U3).
    apply sorted_app. repeat split; auto.
    + apply sorted_app. repeat split; auto.
    + intros x y Hx Hy. apply in_app_or in Hy. destruct Hy; auto.
      apply T3; auto. apply in_or_app; auto.
  - rewrite <- app_assoc. exact H2.
  - intros b z pre Hb Hz. apply (H3 b z pre); auto. apply in_or_app; auto.
  - rewrite <- H4. rewrite <- !app_assoc. apply Permutation_app_head.
    rewrite !app_assoc. apply Permutation_app_tail.
    apply Permutation_app_comm.
Qed.

Lemma low_Succeed : forall orig dest ta rb,
  low_state orig (rev dest) ta rb -> ta = [] \/ rb = [] ->
  merged orig (MergeLow_Succeed dest ta rb).
Proof.
  intros orig dest ta rb [H1 H2 H3 H4] [-> | ->]; unfold MergeLow_Succeed;
    split; auto; simpl; rewrite ?app_nil_r in *; auto.
Qed.

Lemma low_CopyB : forall orig dest ta rb,
  low_state orig (rev dest) ta rb -> length ta = 1 ->
  merged orig (MergeLow_CopyB dest ta rb).
Proof.
  intros orig dest ta rb [H1 H2 H3 H4] Hl. unfold MergeLow_CopyB.
  destruct ta as [|z [|? ?]]; try discriminate. split.
  - rewrite app_assoc. apply sorted_app. repeat split; auto.
    + repeat constructor.
    + intros x y Hx [->|[]]. apply in_app_or in Hx. destruct Hx as [Hx|Hx].
      * apply sorted_app in H1. destruct H1 as (_ & _ & H). apply H; simpl; auto.
      * apply (H3 x y []); auto.
  - rewrite <- H4. apply Permutation_app_head. apply Permutation_app_comm.
Qed.

Lemma low_pushA : forall orig dest p ta rb,
  low_state orig (rev dest) (p ++ ta) rb ->
  (forall x y, In x p -> In y rb -> before x y) ->
  low_state orig (rev (rev p ++ dest)) ta rb.
Proof.
  intros. rewrite rev_app_distr, rev_involutive. apply low_takeA; auto.
Qed.

Lemma low_pushB : forall orig dest p ta rb,
  low_state orig (rev dest) ta (p ++ rb) ->
  (forall x y, In x p -> In y ta -> before x y) ->
  low_state orig (rev (rev p ++ dest)) ta rb.
Proof.
  intros. rewrite rev_app_distr, rev_involutive. apply low_takeB; auto.
Qed.

Lemma low_sorted_ta : forall orig out ta rb,
  low_state orig out ta rb -> sorted ta.
Proof.
  intros orig out ta rb [H _ _ _]. apply sorted_app in H. tauto.
Qed.

Lemma low_sorted_rb : forall orig out ta rb,
  low_state orig out ta rb -> sorted rb.
Proof.
  intros orig out ta rb [_ H _ _]. apply sorted_app in H. tauto.
Qed.

Lemma cuts_head : forall key arr k x y l,
  cuts key arr k -> sorted (key :: l) ->
  In x (firstn k arr) -> In y (key :: l) -> before x y.
Proof.
  intros key arr k x y l (_ & C & _) Hs Hx Hy.
  rewrite Forall_forall in C.
  apply (@before_trans x key y); auto. apply (head_before Hs Hy).
Qed.

Lemma cuts_tail : forall key arr k x y,
  cuts key arr k -> In x [key] -> In y (skipn k arr) -> before x y.
Proof.
  intros key arr k x y (_ & _ & C) [->|[]] Hy.
  rewrite Forall_forall in C. auto.
Qed.

Lemma MergeLow_loop_merged : forall orig fuel g wA wB mg dest ta rb,
  length ta + length rb <= fuel -> 2 <= length ta -> 1 <= length rb ->
  low_state orig (rev dest) ta rb ->
  merged orig (fst (MergeLow_loop comparefn fuel g wA wB mg dest ta rb)).
Proof.
  intros orig. induction fuel as [|fuel IH];
    intros g wA wB mg dest ta rb Hf Hta Hrb St; [lia|].
  cbn [MergeLow_loop]. destruct g.
  - (* a round of galloping *)
    destruct rb as [|keyB rb1]; [simpl in Hrb; lia|]. cbv zeta.
    assert (Ck : cuts keyB ta (GallopRight comparefn keyB ta 0)).
    { apply GallopRight_cuts; [apply (low_sorted_ta St)|lia]. }
    remember (GallopRight comparefn keyB ta 0) as k eqn:Hk. clear Hk.
    assert (S1 : low_state orig (rev (rev (firstn k ta) ++ dest))
                           (skipn k ta) (keyB :: rb1)).
    { apply low_pushA; [rewrite firstn_skipn; exact St|].
      intros x y Hx Hy.
      eapply cuts_head; [exact Ck|exact (low_sorted_rb St)|auto|auto]. }
    assert (Lk : length (skipn k ta) = length ta - k)
      by apply length_skipn.
    destruct ((0 <? k) && (length (skipn k ta) =? 1)) eqn:E1.
    { apply andb_prop in E1. destruct E1 as [_ E1].
      apply Nat.eqb_eq in E1. apply low_CopyB; auto. }
    destruct ((0 <? k) && (length (skipn k ta) =? 0)) eqn:E2.
    { apply andb_prop in E2. destruct E2 as [_ E2].
      apply Nat.eqb_eq in E2. apply low_Succeed; auto.
      left. apply length_zero_iff_nil. exact E2. }
    assert (La : 2 <= length (skipn k ta)).
    { destruct (0 <? k) eqn:Ek; cbn [andb] in E1, E2.
      - apply Nat.eqb_neq in E1, E2. lia.
      - apply Nat.ltb_ge in Ek. lia. }
    assert (S2 : low_state orig (rev (keyB :: rev (firstn k ta) ++ dest))
                           (skipn k ta) rb1).
    { apply (@low_pushB orig _ [keyB]); [exact S1|].
      intros x y Hx Hy. eapply cuts_tail; [exact Ck|auto|auto]. }
    clear S1 E1 E2.
    destruct rb1 as [|b1 rb1'].
    { apply low_Succeed; auto. }
    destruct (skipn k ta) as [|keyA ta1] eqn:Eta; [simpl in La; lia|].
    assert (Cn : cuts keyA (b1 :: rb1')
                      (GallopLeft comparefn keyA (b1 :: rb1') 0)).
    { apply GallopLeft_cuts; [apply (low_sorted_rb S2)|simpl; lia]. }
    remember (GallopLeft comparefn keyA (b1 :: rb1') 0) as n eqn:Hn.
    clear Hn.
    assert (S3 : low_state orig
                   (rev (rev (firstn n (b1 :: rb1')) ++
                         keyB :: rev (firstn k ta) ++ dest))
                   (keyA :: ta1) (skipn n (b1 :: rb1'))).
    { apply low_pushB; [rewrite firstn_skipn; exact S2|].
      intros x y Hx Hy.
      eapply cuts_head; [exact Cn|exact (low_sorted_ta S2)|auto|auto]. }
    assert (Ln : length (skipn n (b1 :: rb1')) = length (b1 :: rb1') - n)
      by apply length_skipn.
    destruct ((0 <? n) && (length (skipn n (b1 :: rb1')) =? 0)) eqn:E3.
    { apply andb_prop in E3. destruct E3 as [_ E3].
      apply Nat.eqb_eq in E3. apply low_Succeed; auto.
      right. apply length_zero_iff_nil. exact E3. }
    assert (Lb : 1 <= length (skipn n (b1 :: rb1'))).
    { destruct (0 <? n) eqn:En; cbn [andb] in E3.
      - apply Nat.eqb_neq in E3. lia.
      - apply Nat.ltb_ge in En.
        change (length (b1 :: rb1')) with (S (length rb1')) in Ln. lia. }
    assert (S4 : low_state orig
                   (rev (keyA :: rev (firstn n (b1 :: rb1')) ++
                         keyB :: rev (firstn k ta) ++ dest))
                   ta1 (skipn n (b1 :: rb1'))).
    { apply (@low_pushA orig _ [keyA]); [exact S3|].
      intros x y Hx Hy. eapply cuts_tail; [exact Cn|auto|auto]. }
    destruct (length ta1 =? 1) eqn:E4.
    { apply Nat.eqb_eq in E4. apply low_CopyB; auto. }
    apply Nat.eqb_neq in E4.
    destruct ((kMinGallopWins <=? k) || (kMinGallopWins <=? n));
      apply IH; auto; cbn [length] in *; lia.
  - (* one element at a time *)
    destruct rb as [|b rb1]; [simpl in Hrb; lia|].
    destruct ta as [|a ta1]; [simpl in Hta; lia|].
    simpl in Hf, Hta.
    destruct (order_lt comparefn b a) eqn:E.
    + assert (S1 : low_state orig (rev (b :: dest)) (a :: ta1) rb1).
      { apply (@low_pushB orig _ [b]); [exact St|].
        intros x y [->|[]] Hy. apply (@before_trans x a y); [exact E|].
        apply (head_before (low_sorted_ta St) Hy). }
      cbv zeta. destruct rb1 as [|b1 rb1'].
      { simpl. apply low_Succeed; auto. }
      cbn [length Nat.eqb].
      destruct (mg <=? S wB); apply IH; auto; cbn [length] in *; lia.
    + assert (S1 : low_state orig (rev (a :: dest)) ta1 (b :: rb1)).
      { apply (@low_pushA orig _ [a]); [exact St|].
        intros x y [->|[]] Hy.
        apply (@before_trans x b y); [apply not_lt_before; exact E|].
        apply (head_before (low_sorted_rb St) Hy). }
      cbv zeta. destruct (length ta1 =? 1) eqn:E4.
      { apply Nat.eqb_eq in E4. apply low_CopyB; auto. }
      apply Nat.eqb_neq in E4.
      destruct (mg <=? S wA); apply IH; auto; cbn [length] in *; lia.
Qed.

Lemma MergeLow_merged : forall mg runA runB b0 runB1,
  runB = b0 :: runB1 -> runA <> [] ->
  sorted runA -> sorted runB ->
  (forall a, In a runA -> before b0 a) ->
  (forall b z pre, In b runB -> runA = pre ++ [z] -> before b z) ->
  merged (runA ++ runB) (fst (MergeLow comparefn mg runA runB)).
Proof.
  intros mg runA runB b0 runB1 -> HA SA SB Hb0 Hlast.
  assert (St : low_state (runA ++ b0 :: runB1) (rev [b0]) runA runB1).
  { simpl. split.
    - simpl. constructor; auto. apply Forall_forall. exact Hb0.
    - exact SB.
    - intros b z pre Hb. apply Hlast. simpl; auto.
    - simpl. apply Permutation_middle. }
  unfold MergeLow. destruct runB1 as [|b1 runB1'].
  { simpl. apply low_Succeed; auto. }
  cbn [length Nat.eqb]. destruct (length runA =? 1) eqn:E.
  { apply Nat.eqb_eq in E. apply low_CopyB; auto. }
  apply Nat.eqb_neq in E. apply MergeLow_loop_merged; auto.
  - destruct runA; [congruence|]. simpl in *. lia.
  - simpl. lia.
Qed.

Lemma high_takeA : forall orig ra p tb dest,
  high_state orig (ra ++ p) tb dest ->
  (forall x y, In x tb -> In y p -> before x y) ->
  high_state orig ra tb (p ++ dest).
Proof.
  intros orig ra p tb dest [H1 H2 H3 H4] Hp. split.
  - rewrite <- app_assoc in H1. exact H1.
  - rewrite <- app_assoc in H1. apply sorted_app in H1, H2.
    destruct H1 as (S1 & S2 & S3), H2 as (T1 & T2 & T3).
    apply sorted_app. repeat split; auto.
    intros x y Hx Hy. apply in_app_or in Hy. destruct Hy; auto.
  - intros a z post Ha. apply H3. apply in_or_app; auto.
  - rewrite <- H4. rewrite <- !app_assoc. apply Permutation_app_head.
    rewrite !app_assoc. apply Permutation_app_tail.
    apply Permutation_app_comm.
Qed.

Lemma high_takeB : forall orig ra tb p dest,
  high_state orig ra (tb ++ p) dest ->
  (forall x y, In x ra -> In y p -> before x y) ->
  high_state orig ra tb (p ++ dest).
Proof.
  intros orig ra tb p dest [H1 H2 H3 H4] Hp. split.
  - rewrite <- app_assoc in H2. apply sorted_app in H1, H2.
    destruct H1 as (S1 & S2 & S3), H2 as (T1 & T2 & T3).
    apply sorted_app. repeat split; auto.
    intros x y Hx Hy. apply in_app_or in Hy. destruct Hy; auto.
  - rewrite <- app_assoc in H2. exact H2.
  - intros a z post Ha ->. apply (H3 a z (post ++ p)); auto.
  - rewrite <- !app_assoc in H4. exact H4.
Qed.

Lemma high_Succeed : forall orig ra tb dest,
  high_state orig ra tb dest -> ra = [] \/ tb = [] ->
  merged orig (MergeHigh_Succeed ra tb dest).
Proof.
  intros orig ra tb dest [H1 H2 H3 H4] [-> | ->];
    unfold MergeHigh_Succeed; split; auto.
Qed.

Lemma high_CopyA : forall orig ra tb dest,
  high_state orig ra tb dest -> length tb = 1 ->
  merged orig (MergeHigh_CopyA ra tb dest).
Proof.
  intros orig ra tb dest [H1 H2 H3 H4] Hl. unfold MergeHigh_CopyA.
  destruct tb as [|z [|? ?]]; try discriminate. split.
  - simpl. constructor; auto. rewrite Forall_app. split.
    + apply Forall_forall. intros a Ha. apply (H3 a z []); auto.
    + inversion H2; auto.
  - rewrite <- H4. rewrite !app_assoc. apply Permutation_app_tail.
    apply Permutation_app_comm.
Qed.

Lemma high_sorted_ra : forall orig ra tb dest,
  high_state orig ra tb dest -> sorted ra.
Proof.
  intros orig ra tb dest [H _ _ _]. apply sorted_app in H. tauto.
Qed.

Lemma high_sorted_tb : forall orig ra tb dest,
  high_state orig ra tb dest -> sorted tb.
Proof.
  intros orig ra tb dest [_ H _ _]. apply sorted_app in H. tauto.
Qed.

Lemma cuts_last : forall key arr k x y l,
  cuts key arr k -> sorted (l ++ [key]) ->
  In x (l ++ [key]) -> In y (skipn k arr) -> before x y.
Proof.
  intros key arr k x y l (_ & _ & C) Hs Hx Hy.
  rewrite Forall_forall in C.
  apply (@before_trans x key y); auto. eapply last_before; eauto.
Qed.

Lemma cuts_front : forall key arr k x y,
  cuts key arr k -> In x (firstn k arr) -> In y [key] -> before x y.
Proof.
  intros key arr k x y (_ & C & _) Hx [->|[]].
  rewrite Forall_forall in C. auto.
Qed.

Lemma MergeHigh_loop_merged : forall orig fuel g wA wB mg ra tb dest,
  length ra + length tb <= fuel -> 1 <= length ra -> 2 <= length tb ->
  high_state orig ra tb dest ->
  merged orig (fst (MergeHigh_loop comparefn fuel g wA wB mg ra tb dest)).
Proof.
  intros orig. induction fuel as [|fuel IH];
    intros g wA wB mg ra tb dest Hf Hra Htb St; [lia|].
  cbn [MergeHigh_loop]. destruct g.
  - (* a round of galloping *)
    cbv zeta. destruct (unsnoc tb) as [[tb1 keyB]|] eqn:Etb.
    2:{ apply unsnoc_None in Etb. subst. simpl in Htb. lia. }
    apply unsnoc_Some in Etb.
    assert (Ltb : length tb = length tb1 + 1)
      by (rewrite Etb, length_app; reflexivity).
    assert (Ck : cuts keyB ra
                   (GallopRight comparefn keyB ra (length ra - 1))).
    { apply GallopRight_cuts; [apply (high_sorted_ra St)|lia]. }
    remember (GallopRight comparefn keyB ra (length ra - 1)) as k eqn:Hk.
    clear Hk.
    assert (S1 : high_state orig (firstn k ra) tb (skipn k ra ++ dest)).
    { apply high_takeA; [rewrite firstn_skipn; exact St|].
      intros x y Hx Hy. pose proof (high_sorted_tb St) as Hs.
      rewrite Etb in Hx, Hs.
      eapply cuts_last; [exact Ck|exact Hs|auto|auto]. }
    assert (Lk : length (firstn k ra) = k).
    { rewrite length_firstn. destruct Ck as (Ck & _). lia. }
    destruct ((0 <? length ra - k) && (length (firstn k ra) =? 0)) eqn:E1.
    { apply andb_prop in E1. destruct E1 as [_ E1].
      apply Nat.eqb_eq in E1. apply high_Succeed; auto.
      left. apply length_zero_iff_nil. exact E1. }
    assert (La : 1 <= length (firstn k ra)).
    { destruct (0 <? length ra - k) eqn:Ek; cbn [andb] in E1.
      - apply Nat.eqb_neq in E1. lia.
      - apply Nat.ltb_ge in Ek. lia. }
    assert (S2 : high_state orig (firstn k ra) tb1
                            (keyB :: skipn k ra ++ dest)).
    { apply (@high_takeB orig _ tb1 [keyB]); [rewrite <- Etb; exact S1|].
      intros x y Hx Hy. eapply cuts_front; [exact Ck|auto|auto]. }
    clear S1 E1.
    destruct (length tb1 =? 1) eqn:E2.
    { apply Nat.eqb_eq in E2. apply high_CopyA; auto. }
    apply Nat.eqb_neq in E2.
    destruct (unsnoc (firstn k ra)) as [[ra2 keyA]|] eqn:Era.
    2:{ apply unsnoc_None in Era. apply high_Succeed; auto. }
    apply unsnoc_Some in Era.
    assert (Lra : length (firstn k ra) = length ra2 + 1)
      by (rewrite Era, length_app; reflexivity).
    assert (Cn : cuts keyA tb1
                   (GallopLeft comparefn keyA tb1 (length tb1 - 1))).
    { apply GallopLeft_cuts; [apply (high_sorted_tb S2)|lia]. }
    remember (GallopLeft comparefn keyA tb1 (length tb1 - 1)) as n eqn:Hn.
    clear Hn.
    assert (S3 : high_state orig (firstn k ra) (firstn n tb1)
                            (skipn n tb1 ++ keyB :: skipn k ra ++ dest)).
    { apply high_takeB; [rewrite firstn_skipn; exact S2|].
      intros x y Hx Hy. pose proof (high_sorted_ra S2) as Hs.
      rewrite Era in Hx, Hs.
      eapply cuts_last; [exact Cn|exact Hs|auto|auto]. }
    assert (Ln : length (firstn n tb1) = n).
    { rewrite length_firstn. destruct Cn as (Cn & _). lia. }
    destruct ((0 <? length tb1 - n) && (length (firstn n tb1) =? 1))
      eqn:E3.
    { apply andb_prop in E3. destruct E3 as [_ E3].
      apply Nat.eqb_eq in E3. apply high_CopyA; auto. }
    destruct ((0 <? length tb1 - n) && (length (firstn n tb1) =? 0))
      eqn:E4.
    { apply andb_prop in E4. destruct E4 as [_ E4].
      apply Nat.eqb_eq in E4. apply high_Succeed; auto.
      right. apply length_zero_iff_nil. exact E4. }
    assert (Lb : 2 <= length (firstn n tb1)).
    { destruct (0 <? length tb1 - n) eqn:En; cbn [andb] in E3, E4.
      - apply Nat.eqb_neq in E3, E4. lia.
      - apply Nat.ltb_ge in En. destruct Cn as (Cn & _). lia. }
    assert (S4 : high_state orig ra2 (firstn n tb1)
                   (keyA :: skipn n tb1 ++ keyB :: skipn k ra ++ dest)).
    { apply (@high_takeA orig ra2 [keyA]); [rewrite <- Era; exact S3|].
      intros x y Hx Hy. eapply cuts_front; [exact Cn|auto|auto]. }
    destruct (length ra2 =? 0) eqn:E5.
    { apply Nat.eqb_eq in E5. apply high_Succeed; auto.
      left. apply length_zero_iff_nil. exact E5. }
    apply Nat.eqb_neq in E5.
    assert (length ra2 + length (firstn n tb1) <= fuel).
    { assert (length (firstn k ra) <= length ra)
        by (rewrite length_firstn; lia).
      assert (length (firstn n tb1) <= length tb1)
        by (rewrite length_firstn; lia).
      lia. }
    destruct ((kMinGallopWins <=? length ra - k)
              || (kMinGallopWins <=? length tb1 - n));
      apply IH; auto; lia.
  - (* one element at a time *)
    destruct (unsnoc tb) as [[tb1 b]|] eqn:Etb.
    2:{ apply unsnoc_None in Etb. subst. simpl in Htb. lia. }
    destruct (unsnoc ra) as [[ra1 a]|] eqn:Era.
    2:{ apply unsnoc_None in Era. subst. simpl in Hra. lia. }
    apply unsnoc_Some in Etb, Era.
    assert (Ltb : length tb = length tb1 + 1)
      by (rewrite Etb, length_app; reflexivity).
    assert (Lra : length ra = length ra1 + 1)
      by (rewrite Era, length_app; reflexivity).
    pose proof (high_sorted_tb St) as Stb.
    pose proof (high_sorted_ra St) as Sra.
    destruct (order_lt comparefn b a) eqn:E; cbv zeta.
    + assert (S1 : high_state orig ra1 tb (a :: dest)).
      { apply (@high_takeA orig ra1 [a]); [rewrite <- Era; exact St|].
        intros x y Hx [->|[]]. apply (@before_trans x b y); [|exact E].
        rewrite Etb in Hx, Stb. eapply last_before; eauto. }
      destruct (length ra1 =? 0) eqn:E1.
      { apply Nat.eqb_eq in E1. apply high_Succeed; auto.
        left. apply length_zero_iff_nil. exact E1. }
      apply Nat.eqb_neq in E1.
      destruct (mg <=? S wA); apply IH; auto; lia.
    + assert (S1 : high_state orig ra tb1 (b :: dest)).
      { apply (@high_takeB orig ra tb1 [b]); [rewrite <- Etb; exact St|].
        intros x y Hx [->|[]].
        apply (@before_trans x a y); [|apply not_lt_before; exact E].
        rewrite Era in Hx, Sra. eapply last_before; eauto. }
      destruct (length tb1 =? 1) eqn:E1.
      { apply Nat.eqb_eq in E1. apply high_CopyA; auto. }
      apply Nat.eqb_neq in E1.
      destruct (mg <=? S wB); apply IH; auto; lia.
Qed.

Lemma MergeHigh_merged : forall mg runA runB runA1 a0,
  runA = runA1 ++ [a0] -> runB <> [] ->
  sorted runA -> sorted runB ->
  (forall b, In b runB -> before b a0) ->
  (forall a z post, In a runA -> runB = z :: post -> before z a) ->
  merged (runA ++ runB) (fst (MergeHigh comparefn mg runA runB)).
Proof.
  intros mg runA runB runA1 a0 -> HB SA SB Ha0 Hfirst.
  assert (St : high_state ((runA1 ++ [a0]) ++ runB) runA1 runB [a0]).
  { split.
    - exact SA.
    - apply sorted_app. repeat split; auto.
      + repeat constructor.
      + intros x y Hx [->|[]]. auto.
    - intros a z post Ha. apply Hfirst. apply in_or_app; auto.
    - rewrite <- app_assoc. apply Permutation_app_head.
      apply Permutation_app_comm. }
  unfold MergeHigh. unfold unsnoc. rewrite rev_app_distr. simpl.
  rewrite rev_involutive.
  destruct (length runA1 =? 0) eqn:E0.
  { apply Nat.eqb_eq in E0. apply high_Succeed; auto.
    left. apply length_zero_iff_nil. exact E0. }
  apply Nat.eqb_neq in E0.
  destruct (length runB =? 1) eqn:E.
  { apply Nat.eqb_eq in E. apply high_CopyA; auto. }
  apply Nat.eqb_neq in E. apply MergeHigh_loop_merged; auto.
  - lia.
  - destruct runB; [congruence|]. simpl in *. lia.
Qed.

(** *** MergeAt *)

Lemma merged_in : forall orig res x,
  merged orig res -> In x res -> In x orig.
Proof. intros orig res x [_ P] Hx. eapply Permutation_in; eauto. Qed.

Lemma MergeAt_merged : forall mg runA runB,
  sorted runA -> sorted runB ->
  merged (runA ++ runB) (fst (MergeAt comparefn mg runA runB)).
Proof.
  intros mg runA runB SA SB. unfold MergeAt.
  destruct runB as [|keyRight runB'] eqn:EB.
  { simpl. rewrite app_nil_r. split; auto. }
  rewrite <- EB in *.
  assert (In0 : forall y, In y runB -> before keyRight y).
  { intros y Hy. rewrite EB in Hy, SB. eapply head_before; eauto. }
  destruct runA as [|a0 runA'] eqn:EA.
  { simpl. split; auto. }
  rewrite <- EA in *.
  assert (Ck : cuts keyRight runA (GallopRight comparefn keyRight runA 0)).
  { apply GallopRight_cuts; auto. rewrite EA. simpl. lia. }
  remember (GallopRight comparefn keyRight runA 0) as k eqn:Hk. clear Hk.
  pose proof Ck as (Ck1 & Ck2 & Ck3). rewrite Forall_forall in Ck2, Ck3.
  pose proof SA as SA'. rewrite <- (firstn_skipn k runA) in SA'.
  apply sorted_app in SA'. destruct SA' as (SA1 & SA2 & SA3).
  destruct (unsnoc (skipn k runA)) as [[pre keyLeft]|] eqn:Eu.
  2:{ apply unsnoc_None in Eu. simpl. split; auto.
      apply sorted_app. repeat split; auto.
      intros x y Hx Hy. rewrite <- (firstn_skipn k runA), Eu, app_nil_r in Hx.
      apply (@before_trans x keyRight y); auto. }
  apply unsnoc_Some in Eu.
  assert (InL : forall x, In x runA -> before x keyLeft).
  { intros x Hx. pose proof SA as SA'.
    rewrite <- (firstn_skipn k runA), Eu, app_assoc in SA', Hx.
    eapply last_before; eauto. }
  assert (Cn : cuts keyLeft runB
                 (GallopLeft comparefn keyLeft runB (length runB - 1))).
  { apply GallopLeft_cuts; auto. rewrite EB. simpl. lia. }
  remember (GallopLeft comparefn keyLeft runB (length runB - 1)) as n
    eqn:Hn. clear Hn.
  pose proof Cn as (Cn1 & Cn2 & Cn3). rewrite Forall_forall in Cn2, Cn3.
  destruct (n =? 0) eqn:En.
  { apply Nat.eqb_eq in En. subst n. simpl in Cn3. simpl. split; auto.
    apply sorted_app. repeat split; auto.
    intros x y Hx Hy. apply (@before_trans x keyLeft y); auto. }
  apply Nat.eqb_neq in En.
  pose proof SB as SB'. rewrite <- (firstn_skipn n runB) in SB'.
  apply sorted_app in SB'. destruct SB' as (SB1 & SB2 & SB3).
  assert (M : merged (skipn k runA ++ firstn n runB)
                (fst (if length (skipn k runA) <=? n
                      then MergeLow comparefn mg (skipn k runA)
                                    (firstn n runB)
                      else MergeHigh comparefn mg (skipn k runA)
                                     (firstn n runB)))).
  { assert (EB1 : firstn n runB = keyRight :: firstn (n - 1) runB').
    { rewrite EB. destruct n; [lia|]. simpl. rewrite Nat.sub_0_r.
      reflexivity. }
    destruct (length (skipn k runA) <=? n).
    - eapply MergeLow_merged; eauto.
      + rewrite Eu. destruct pre; discriminate.
      + intros b z pre' Hb Hz. rewrite Eu in Hz.
        apply app_inj_tail in Hz. destruct Hz as [_ <-]. auto.
    - eapply MergeHigh_merged; eauto.
      + rewrite EB1. discriminate.
      + intros a z post Ha Hz. rewrite EB1 in Hz. inversion Hz; subst.
        auto. }
  destruct (if length (skipn k runA) <=? n
            then MergeLow comparefn mg (skipn k runA) (firstn n runB)
            else MergeHigh comparefn mg (skipn k runA) (firstn n runB))
    as [m mg'].
  simpl in M. simpl. destruct M as [M1 M2]. split.
  - assert (Hm : forall y, In y m ->
                   In y (skipn k runA) \/ In y (firstn n runB)).
    { intros y Hy. apply in_app_or. eapply Permutation_in; eauto. }
    apply sorted_app. repeat split; auto.
    + apply sorted_app. repeat split; auto.
      intros x y Hx Hy. destruct (Hm x Hx) as [H|H]; auto.
      apply (@before_trans x keyLeft y); auto.
      apply InL. rewrite <- (firstn_skipn k runA). apply in_or_app; auto.
    + intros x y Hx Hy.
      assert (Hxk : before x keyRight) by auto.
      apply in_app_or in Hy. destruct Hy as [Hy|Hy].
      * destruct (Hm y Hy) as [H|H]; auto.
        apply (@before_trans x keyRight y); auto. apply In0.
        rewrite <- (firstn_skipn n runB). apply in_or_app; auto.
      * apply (@before_trans x keyRight y); auto. apply In0.
        rewrite <- (firstn_skipn n runB). apply in_or_app; auto.
  - rewrite <- (firstn_skipn k runA) at 2.
    rewrite <- (firstn_skipn n runB) at 2.
    rewrite <- !app_assoc. apply Permutation_app_head.
    rewrite !app_assoc. apply Permutation_app_tail. exact M2.
Qed.

(** *** Runs *)

Lemma run_extent_le : forall d prev l,
  run_extent comparefn d prev l <= length l.
Proof.
  intros d prev l. revert prev. induction l as [|c l IH]; intros prev;
    simpl; [lia|].
  destruct d, (order_lt comparefn c prev); try lia;
    specialize (IH c); lia.
Qed.

Lemma run_ascending : forall prev l,
  Sorted before (prev :: firstn (run_extent comparefn false prev l) l).
Proof.
  intros prev l. revert prev. induction l as [|c l IH]; intros prev; simpl.
  - repeat constructor.
  - destruct (order_lt comparefn c prev) eqn:E; simpl.
    + repeat constructor.
    + constructor; [apply IH|]. constructor. apply not_lt_before. exact E.
Qed.

Lemma run_descending : forall prev l,
  Sorted (fun x y => before y x)
         (prev :: firstn (run_extent comparefn true prev l) l).
Proof.
  intros prev l. revert prev. induction l as [|c l IH]; intros prev; simpl.
  - repeat constructor.
  - destruct (order_lt comparefn c prev) eqn:E; simpl.
    + constructor; [apply IH|]. constructor. exact E.
    + repeat constructor.
Qed.

Lemma Sorted_sorted : forall l, Sorted before l -> sorted l.
Proof.
  intros l H. apply Sorted_StronglySorted; [|exact H].
  intros x y z. apply before_trans.
Qed.

Lemma sorted_rev : forall l,
  Sorted (fun x y => before y x) l -> sorted (rev l).
Proof.
  intros l H. apply Sorted_StronglySorted in H.
  2:{ intros x y z H1 H2. eapply before_trans; eauto. }
  induction H as [|a l Hs IH Hf]; simpl.
  - constructor.
  - apply sorted_app. repeat split; auto.
    + repeat constructor.
    + intros x y Hx [->|[]]. rewrite Forall_forall in Hf.
      apply Hf. apply in_rev. exact Hx.
Qed.

Lemma CountAndMakeRun_sorted : forall l run rest,
  CountAndMakeRun comparefn l = (run, rest) ->
  sorted run /\ Permutation (run ++ rest) l
  /\ (l <> [] -> 1 <= length run).
Proof.
  intros l run rest H. destruct l as [|x [|y l']]; simpl in H.
  - inversion H; subst. split; [constructor|]. split; [reflexivity|].
    congruence.
  - inversion H; subst. split; [repeat constructor|].
    split; [reflexivity|]. simpl. lia.
  - set (d := order_lt comparefn y x) in *.
    set (n := run_extent comparefn d y l') in *.
    assert (Hrun : exists r, (if d then rev r else r) = run
                             /\ r ++ rest = x :: y :: l'
                             /\ r = x :: y :: firstn n l').
    { exists (x :: y :: firstn n l'). inversion H; subst.
      repeat split. simpl. rewrite firstn_skipn. reflexivity. }
    destruct Hrun as (r & R1 & R2 & R3). clear H. split; [|split].
    + destruct d eqn:Ed; subst run r.
      * apply sorted_rev. constructor; [apply run_descending|].
        constructor. exact Ed.
      * apply Sorted_sorted. constructor; [apply run_ascending|].
        constructor. apply not_lt_before. exact Ed.
    + rewrite <- R2. apply Permutation_app_tail.
      destruct d; subst run; auto. apply Permutation_sym, Permutation_rev.
    + intros _. destruct d; subst run r; simpl; try lia.
      rewrite length_app. simpl. lia.
Qed.

(** *** Binary insertion *)

Lemma pivot_test_monotone : forall pivot arr,
  sorted arr ->
  monotone_test (fun i => test_at arr i (order_lt comparefn pivot))
                (length arr).
Proof.
  intros pivot arr Hs i j Hij Hj. unfold test_at.
  destruct (nth_error arr i) as [x|] eqn:Ei; [|discriminate].
  destruct (nth_error arr j) as [y|] eqn:Ej.
  - intros H. apply (@before_trans pivot x y); [exact H|].
    apply (sorted_nth Hs Hij Ei Ej).
  - apply nth_error_None in Ej. lia.
Qed.

Lemma insertion_point_bisect : forall fuel pivot arr lo hi,
  hi - lo <= fuel -> lo <= hi ->
  insertion_point comparefn fuel pivot arr lo hi
  = gallop_bisect fuel (fun i => test_at arr i (order_lt comparefn pivot))
                  lo hi.
Proof.
  induction fuel as [|fuel IH]; intros pivot arr lo hi Hf Hle;
    cbn [insertion_point gallop_bisect].
  - lia.
  - destruct (lo <? hi) eqn:E.
    + apply Nat.ltb_lt in E.
      assert ((hi - lo) / 2 < hi - lo) by (apply Nat.div_lt; lia).
      destruct (test_at arr (lo + (hi - lo) / 2)
                        (order_lt comparefn pivot)); apply IH; lia.
    + apply Nat.ltb_ge in E. lia.
Qed.

Lemma insertion_point_cuts : forall pivot arr,
  sorted arr ->
  cuts pivot arr
       (insertion_point comparefn (length arr) pivot arr 0 (length arr)).
Proof.
  intros pivot arr Hs. rewrite insertion_point_bisect by lia.
  pose proof (pivot_test_monotone pivot Hs) as M.
  assert (T : turning_point
                (fun i => test_at arr i (order_lt comparefn pivot))
                (length arr)
                (gallop_bisect (length arr)
                   (fun i => test_at arr i (order_lt comparefn pivot))
                   0 (length arr))).
  { apply gallop_bisect_turning; auto; intros; lia. }
  destruct T as (T1 & T2 & T3).
  split; [exact T1|]. split.
  - apply Forall_firstn_nth. intros i x Hi Hx.
    specialize (T2 i Hi). unfold test_at in T2. rewrite Hx in T2.
    apply not_lt_before; auto.
  - apply Forall_skipn_nth. intros i x Hi Hx.
    assert (i < length arr) by (apply nth_error_Some; congruence).
    specialize (T3 i Hi H). unfold test_at in T3. rewrite Hx in T3.
    exact T3.
Qed.

Lemma insert_at_sorted : forall pivot arr k,
  sorted arr -> cuts pivot arr k -> sorted (insert_at k pivot arr).
Proof.
  intros pivot arr k Hs (C1 & C2 & C3). unfold insert_at.
  rewrite Forall_forall in C2.
  rewrite <- (firstn_skipn k arr) in Hs. apply sorted_app in Hs.
  destruct Hs as (S1 & S2 & S3).
  apply sorted_app. repeat split; auto.
  - constructor; auto.
  - intros x y Hx [->|Hy]; auto.
Qed.

Lemma insert_at_perm : forall (pivot : A) arr k,
  Permutation (insert_at k pivot arr) (pivot :: arr).
Proof.
  intros pivot arr k. unfold insert_at.
  rewrite <- (firstn_skipn k arr) at 3.
  apply Permutation_sym, Permutation_middle.
Qed.

Lemma BinaryInsertionSort_sorted : forall pending srt,
  sorted srt ->
  sorted (BinaryInsertionSort comparefn srt pending)
  /\ Permutation (BinaryInsertionSort comparefn srt pending)
                 (srt ++ pending).
Proof.
  induction pending as [|pivot pending IH]; intros srt Hs; simpl.
  - rewrite app_nil_r. auto.
  - pose proof (insertion_point_cuts pivot Hs) as C.
    destruct (IH _ (insert_at_sorted Hs C)) as [I1 I2]. split; auto.
    rewrite I2. rewrite insert_at_perm.
    apply Permutation_sym.
    change (srt ++ pivot :: pending) with (srt ++ [pivot] ++ pending).
    rewrite app_assoc. apply Permutation_app_tail.
    apply Permutation_sym, Permutation_cons_append.
Qed.

(** *** The stack of pending runs *)

Lemma workArray_of_cons : forall (r : list A) runs,
  workArray_of (r :: runs) = workArray_of runs ++ r.
Proof.
  intros r runs. unfold workArray_of. simpl.
  rewrite concat_app. simpl. rewrite app_nil_r. reflexivity.
Qed.

Lemma collapsed_refl : forall runs,
  Forall (StronglySorted before) runs -> collapsed runs runs.
Proof. intros runs H. split; auto. Qed.

Lemma collapsed_trans : forall r1 r2 r3,
  collapsed r1 r2 -> collapsed r2 r3 -> collapsed r1 r3.
Proof.
  intros r1 r2 r3 [H1 H2] [H3 H4]. split; auto.
  eapply Permutation_trans; eauto.
Qed.

Lemma collapsed_top : forall mg r0 r1 below,
  Forall (StronglySorted before) (r0 :: r1 :: below) ->
  collapsed (r0 :: r1 :: below)
            (fst (MergeAt comparefn mg r1 r0) :: below).
Proof.
  intros mg r0 r1 below H.
  inversion H as [|? ? H0 H']; subst. inversion H' as [|? ? H1 Hb]; subst.
  destruct (MergeAt_merged mg H1 H0) as [M1 M2]. split.
  - constructor; auto.
  - rewrite !workArray_of_cons. rewrite <- app_assoc.
    apply Permutation_app_head. exact M2.
Qed.

Lemma collapsed_second : forall mg r0 r1 r2 below,
  Forall (StronglySorted before) (r0 :: r1 :: r2 :: below) ->
  collapsed (r0 :: r1 :: r2 :: below)
            (r0 :: fst (MergeAt comparefn mg r2 r1) :: below).
Proof.
  intros mg r0 r1 r2 below H.
  inversion H as [|? ? H0 H']; subst. inversion H' as [|? ? H1 H'']; subst.
  inversion H'' as [|? ? H2 Hb]; subst.
  destruct (MergeAt_merged mg H2 H1) as [M1 M2]. split.
  - repeat constructor; auto.
  - rewrite !workArray_of_cons. apply Permutation_app_tail.
    rewrite <- app_assoc. apply Permutation_app_head. exact M2.
Qed.

Lemma MergeCollapse_collapsed : forall fuel mg runs,
  Forall (StronglySorted before) runs ->
  collapsed runs (fst (MergeCollapse comparefn fuel mg runs)).
Proof.
  induction fuel as [|fuel IH]; intros mg runs H; cbn [MergeCollapse].
  - apply collapsed_refl; auto.
  - destruct runs as [|r0 [|r1 below]]; try (apply collapsed_refl; auto).
    destruct (negb (RunInvariantEstablished r0 (r1 :: below))
              || negb (RunInvariantEstablished r1 below)).
    + destruct below as [|r2 below'].
      * pose proof (collapsed_top mg H) as C.
        destruct (MergeAt comparefn mg r1 r0) as [m mg'].
        eapply collapsed_trans; [exact C|]. apply IH. apply C.
      * destruct (length r2 <? length r0).
        -- pose proof (collapsed_second mg H) as C.
           destruct (MergeAt comparefn mg r2 r1) as [m mg'].
           eapply collapsed_trans; [exact C|]. apply IH. apply C.
        -- pose proof (collapsed_top mg H) as C.
           destruct (MergeAt comparefn mg r1 r0) as [m mg'].
           eapply collapsed_trans; [exact C|]. apply IH. apply C.
    + destruct (length r1 <=? length r0).
      * pose proof (collapsed_top mg H) as C.
        destruct (MergeAt comparefn mg r1 r0) as [m mg'].
        eapply collapsed_trans; [exact C|]. apply IH. apply C.
      * apply collapsed_refl; auto.
Qed.

Lemma MergeForceCollapse_collapsed : forall fuel mg runs,
  Forall (StronglySorted before) runs -> length runs <= S fuel ->
  collapsed runs (fst (MergeForceCollapse comparefn fuel mg runs))
  /\ length (fst (MergeForceCollapse comparefn fuel mg runs)) <= 1.
Proof.
  induction fuel as [|fuel IH]; intros mg runs H Hl;
    cbn [MergeForceCollapse].
  - split; [apply collapsed_refl; auto|exact Hl].
  - destruct runs as [|r0 [|r1 below]];
      try (split; [apply collapsed_refl; auto|simpl; lia]).
    destruct below as [|r2 below'].
    + pose proof (collapsed_top mg H) as C.
      destruct (MergeAt comparefn mg r1 r0) as [m mg'].
      destruct (IH mg' [m]) as [I1 I2]; [apply C|simpl; lia|].
      split; auto. eapply collapsed_trans; eauto.
    + destruct (length r2 <? length r0).
      * pose proof (collapsed_second mg H) as C.
        destruct (MergeAt comparefn mg r2 r1) as [m mg'].
        destruct (IH mg' (r0 :: m :: below')) as [I1 I2];
          [apply C|simpl in *; lia|].
        split; auto. eapply collapsed_trans; eauto.
      * pose proof (collapsed_top mg H) as C.
        destruct (MergeAt comparefn mg r1 r0) as [m mg'].
        destruct (IH mg' (m :: r2 :: below')) as [I1 I2];
          [apply C|simpl in *; lia|].
        split; auto. eapply collapsed_trans; eauto.
Qed.

(** *** The driver *)

Lemma ArrayTimSortImpl_loop_runs : forall fuel minRun mg runs remaining,
  length remaining <= fuel ->
  Forall (StronglySorted before) runs ->
  let runs' :=
    fst (ArrayTimSortImpl_loop comparefn fuel minRun mg runs remaining) in
  Forall (StronglySorted before) runs'
  /\ Permutation (workArray_of runs') (workArray_of runs ++ remaining).
Proof.
  induction fuel as [|fuel IH]; intros minRun mg runs remaining Hf Hr;
    cbn [ArrayTimSortImpl_loop].
  - destruct remaining; [|simpl in Hf; lia]. simpl.
    rewrite app_nil_r. auto.
  - destruct remaining as [|x rem'] eqn:Er.
    { simpl. rewrite app_nil_r. auto. }
    rewrite <- Er in *.
    destruct (CountAndMakeRun comparefn remaining) as [run rest] eqn:Ec.
    apply CountAndMakeRun_sorted in Ec. destruct Ec as (C1 & C2 & C3).
    assert (C4 : 1 <= length run) by (apply C3; rewrite Er; discriminate).
    set (forced := Nat.min minRun (length remaining) - length run).
    assert (Hstep : exists run' rest',
               (if length run <? minRun
                then (BinaryInsertionSort comparefn run
                        (firstn forced rest), skipn forced rest)
                else (run, rest)) = (run', rest')
               /\ StronglySorted before run'
               /\ Permutation (run' ++ rest') remaining
               /\ 1 <= length run').
    { destruct (length run <? minRun).
      - destruct (BinaryInsertionSort_sorted (firstn forced rest) C1)
          as [B1 B2].
        eexists. eexists. split; [reflexivity|]. split; [exact B1|].
        split.
        + rewrite B2. rewrite <- app_assoc. rewrite firstn_skipn.
          exact C2.
        + apply Permutation_length in B2. rewrite B2, length_app. lia.
      - exists run, rest. auto. }
    destruct Hstep as (run' & rest' & -> & S1 & S2 & S3).
    pose proof (@MergeCollapse_collapsed (S (length runs)) mg
                  (run' :: runs)) as MC.
    destruct (MergeCollapse comparefn (S (length runs)) mg (run' :: runs))
      as [runs2 mg2].
    simpl in MC. destruct MC as [M1 M2]; [constructor; auto|].
    assert (Hl : length rest' <= fuel).
    { apply Permutation_length in S2. rewrite length_app in S2. lia. }
    destruct (IH minRun mg2 runs2 rest' Hl M1) as [I1 I2].
    split; [exact I1|].
    rewrite I2, M2, workArray_of_cons, <- app_assoc.
    apply Permutation_app_head. exact S2.
Qed.

(** The sort puts every array in order and keeps its elements, for every
    comparator whose answer [< 0] is total and transitive. *)
Theorem ArrayTimSortImpl_sorted : forall l,
  StronglySorted before (ArrayTimSortImpl comparefn l)
  /\ Permutation (ArrayTimSortImpl comparefn l) l.
Proof.
  intros l. unfold ArrayTimSortImpl. destruct (length l <? 2) eqn:E.
  - apply Nat.ltb_lt in E. split; auto.
    destruct l as [|x [|y l']]; simpl in E; try lia; repeat constructor.
  - pose proof (@ArrayTimSortImpl_loop_runs (length l)
                  (ComputeMinRunLength (length l)) kMinGallopWins [] l
                  (le_n _) (Forall_nil _)) as L.
    destruct (ArrayTimSortImpl_loop comparefn (length l)
                (ComputeMinRunLength (length l)) kMinGallopWins [] l)
      as [runs mg].
    simpl in L. destruct L as [L1 L2].
    pose proof (@MergeForceCollapse_collapsed (length runs) mg runs L1)
      as F.
    destruct (MergeForceCollapse comparefn (length runs) mg runs)
      as [runs' mg'].
    simpl in F. destruct F as [[F1 F2] F3]; [lia|].
    split.
    + destruct runs' as [|r [|? ?]]; simpl in F3; try lia.
      * constructor.
      * rewrite workArray_of_cons. simpl. inversion F1; auto.
    + rewrite F2. exact L2.
Qed.

End Ordered.

(** *** A comparator that never reports a tie

    When the comparator answers [< 0] for every pair of elements of the
    array, the array is one descending run for [CountAndMakeRun], and the
    sort reverses it. *)

Section AlwaysBefore.

Context {A : Type}.
Variable comparefn : A -> A -> Z.

Lemma run_extent_all : forall l prev,
  (forall x y, In x (prev :: l) -> In y (prev :: l) ->
               order_lt comparefn x y = true) ->
  run_extent comparefn true prev l = length l.
Proof.
  induction l as [|c l IH]; intros prev H; simpl; [reflexivity|].
  rewrite (H c prev) by (simpl; auto).
  rewrite IH; [reflexivity|].
  intros x y Hx Hy. apply H; simpl; simpl in Hx, Hy; tauto.
Qed.

Lemma CountAndMakeRun_all : forall x y l,
  (forall a b, In a (x :: y :: l) -> In b (x :: y :: l) ->
               order_lt comparefn a b = true) ->
  CountAndMakeRun comparefn (x :: y :: l) = (rev (x :: y :: l), []).
Proof.
  intros x y l H. unfold CountAndMakeRun.
  rewrite (H y x) by (simpl; auto).
  rewrite run_extent_all.
  2:{ intros a b Ha Hb. apply H; simpl; simpl in Ha, Hb; tauto. }
  change (2 + length l) with (length (x :: y :: l)).
  rewrite firstn_all, skipn_all. reflexivity.
Qed.

(** The sort reverses an array on which the comparator always answers
    [< 0]. *)
Theorem sort_all_before : forall l,
  (forall a b, In a l -> In b l -> order_lt comparefn a b = true) ->
  sort comparefn l = rev l.
Proof.
  intros l H. unfold sort, ArrayTimSortImpl.
  destruct l as [|x [|y l]]; try reflexivity.
  change (length (x :: y :: l) <? 2) with false. cbv iota.
  cbn [length ArrayTimSortImpl_loop].
  rewrite (CountAndMakeRun_all H).
  assert (E : forall n : nat,
             (if length (rev (x :: y :: l)) <? n
              then (BinaryInsertionSort comparefn (rev (x :: y :: l))
                      (firstn (Nat.min n (S (S (length l)))
                               - length (rev (x :: y :: l))) []),
                    skipn (Nat.min n (S (S (length l)))
                           - length (rev (x :: y :: l))) (@nil A))
              else (rev (x :: y :: l), []))
             = (rev (x :: y :: l), [])).
  { intros n. rewrite firstn_nil, skipn_nil.
    destruct (length (rev (x :: y :: l)) <? n); reflexivity. }
  rewrite E. cbn [length MergeCollapse].
  destruct (length l); cbn [ArrayTimSortImpl_loop length MergeForceCollapse];
    unfold workArray_of; cbn [rev app concat]; apply app_nil_r.
Qed.

End AlwaysBefore.

End ArraySortFacts.

(* ===================================================================== *)
(** ** Facts about the controller *)

Ltac run_handler :=
  unfold serve, rejection, start, try_catch, bind, send, record, ret, throw,
    get_db, put_db, users_findOne_username, users_findOne_email,
    users_create, users_destroy, users_destroy_by, models_update,
    posts_findAll,
    sharedPost_findAll, likedPost_findAll, property_id,
    Authentication_extractUser, response; cbn.

(** *** Lookups *)

Lemma user_by_username_In : forall d name u,
  user_by_username d name = Some u ->
  In u (users d) /\ user_username u = name.
Proof.
  unfold user_by_username. intros d name u H.
  apply find_some in H. destruct H as [H1 H2].
  apply String.eqb_eq in H2. auto.
Qed.

Lemma rows_kept_spec : forall d name v,
  In v (rows_kept d name) <-> In v (users d) /\ user_username v <> name.
Proof.
  intros d name v. unfold rows_kept. rewrite filter_In.
  rewrite negb_true_iff, String.eqb_neq. tauto.
Qed.

Lemma filter_length_lt : forall (A : Type) (f : A -> bool) l x,
  In x l -> f x = false -> length (filter f l) < length l.
Proof.
  intros A f l x. induction l as [|a l IH]; intros Hin Hf; [destruct Hin|].
  simpl. destruct Hin as [->|Hin].
  - rewrite Hf. pose proof (filter_length_le f l). lia.
  - specialize (IH Hin Hf). destruct (f a); simpl; lia.
Qed.

Lemma rows_removed_positive : forall d name u,
  user_by_username d name = Some u -> 0 < rows_removed d name.
Proof.
  intros d name u H. apply user_by_username_In in H. destruct H as [H1 H2].
  unfold rows_removed, rows_kept.
  assert (length (filter (fun u0 => negb (user_username u0 =? name)%string)
                         (users d)) < length (users d)).
  { apply filter_length_lt with (x := u); auto.
    rewrite negb_false_iff. apply String.eqb_eq. exact H2. }
  lia.
Qed.

Lemma user_by_email_unique : forall d u,
  unique_emails d -> In u (users d) ->
  user_by_email d (user_email u) = Some u.
Proof.
  unfold unique_emails, user_by_email. intros d u.
  induction (users d) as [|a l IH]; intros Hn Hin; [destruct Hin|].
  simpl in *. inversion Hn as [|? ? Hnot Hn']; subst.
  destruct Hin as [->|Hin].
  - rewrite String.eqb_refl. reflexivity.
  - destruct (String.eqb_spec (user_email a) (user_email u)) as [E|E].
    + exfalso. apply Hnot. rewrite E. apply in_map. exact Hin.
    + apply IH; auto.
Qed.

(** The registry has no model of the name the update handler asks for. *)
Lemma models_userOfInterest : models "userOfInterest" = None.
Proof. reflexivity. Qed.

(** *** The reference platform *)

Lemma count_unary : forall n, Reference.count (Reference.unary n) = Some n.
Proof.
  induction n as [|n IH]; simpl; [reflexivity|]. rewrite IH. reflexivity.
Qed.

Lemma reference_round_trip : token_round_trip Reference.platform.
Proof.
  intros u. exists {| identity_id := user_id u |}. simpl.
  rewrite count_unary. auto.
Qed.

(** *** Creating a user *)

(** C10: when the username and the e-mail address of a create-user request
    are both taken, the answer is the 409 of the username check, the e-mail
    lookup is not made, and no row is written. *)
Theorem addUser_username_first : forall P req d u1 u2,
  user_by_username d (body_username (body req)) = Some u1 ->
  user_by_email d (body_email (body req)) = Some u2 ->
  sent (serve (addUser P req) d)
  = response 409 (ErrorJson "Username already taken")
  /\ log (serve (addUser P req) d)
     = [FindOneByUsername (body_username (body req));
        Send 409 (ErrorJson "Username already taken")]
  /\ db (serve (addUser P req) d) = d
  /\ rejection (addUser P req) d = None.
Proof.
  intros P req d u1 u2 H1 _. unfold addUser. run_handler.
  rewrite H1. cbn. destruct d; auto.
Qed.

Lemma addUser_username_first_witness :
  sent (serve (addUser Reference.platform
                 (Reference.create_request "alice" "bob@updog.nz"))
              Reference.database)
  = response 409 (ErrorJson "Username already taken")
  /\ log (serve (addUser Reference.platform
                   (Reference.create_request "alice" "bob@updog.nz"))
                Reference.database)
     = [FindOneByUsername "alice";
        Send 409 (ErrorJson "Username already taken")]
  /\ db (serve (addUser Reference.platform
                  (Reference.create_request "alice" "bob@updog.nz"))
               Reference.database)
     = Reference.database
  /\ rejection (addUser Reference.platform
                  (Reference.create_request "alice" "bob@updog.nz"))
               Reference.database
     = None.
Proof.
  apply (@addUser_username_first Reference.platform
           (Reference.create_request "alice" "bob@updog.nz")
           Reference.database Reference.alice Reference.bob); reflexivity.
Defined.

(** C9, as the controller has it: a taken username is answered with 409 and
    writes nothing; otherwise a taken e-mail address is answered with 409
    and writes nothing; otherwise, when the e-mail address is valid, one row
    is written and the answer is 201 with a token issued for that row; an
    e-mail address that is not valid is answered with 500 and writes
    nothing. *)
Theorem addUser_outcomes : forall P req d,
  (forall u, user_by_username d (body_username (body req)) = Some u ->
     sent (serve (addUser P req) d)
     = response 409 (ErrorJson "Username already taken")
     /\ db (serve (addUser P req) d) = d)
  /\ (forall u, user_by_username d (body_username (body req)) = None ->
        user_by_email d (body_email (body req)) = Some u ->
        sent (serve (addUser P req) d)
        = response 409 (ErrorJson "Email has already been taken")
        /\ db (serve (addUser P req) d) = d)
  /\ (user_by_username d (body_username (body req)) = None ->
      user_by_email d (body_email (body req)) = None ->
      isEmail P (body_email (body req)) = true ->
      sent (serve (addUser P req) d)
      = response 201
          (TokenJson "User successfully created"
                     (generateAuthToken P (created_row P d (body req))))
      /\ users (db (serve (addUser P req) d))
         = users d ++ [created_row P d (body req)])
  /\ (user_by_username d (body_username (body req)) = None ->
      user_by_email d (body_email (body req)) = None ->
      isEmail P (body_email (body req)) = false ->
      sent (serve (addUser P req) d)
      = response 500
          (ErrorObject (ValidationError
                          "The email address you entered is invalid"))
      /\ db (serve (addUser P req) d) = d).
Proof.
  intros P req d. unfold addUser.
  split; [|split; [|split]].
  - intros u H. run_handler. rewrite H. cbn. destruct d; auto.
  - intros u H H0. run_handler. rewrite H. cbn. rewrite H0. cbn.
    destruct d; auto.
  - intros H H0 H1. run_handler. rewrite H. cbn. rewrite H0. cbn.
    rewrite H1. cbn. auto.
  - intros H H0 H1. run_handler. rewrite H. cbn. rewrite H0. cbn.
    rewrite H1. cbn. destruct d; auto.
Qed.

Lemma addUser_outcomes_witness :
  (sent (serve (addUser Reference.platform
                  (Reference.create_request "alice" "carol@updog.nz"))
               Reference.database)
   = response 409 (ErrorJson "Username already taken")
   /\ db (serve (addUser Reference.platform
                   (Reference.create_request "alice" "carol@updog.nz"))
                Reference.database)
      = Reference.database)
  /\ (sent (serve (addUser Reference.platform
                     (Reference.create_request "carol" "bob@updog.nz"))
                  Reference.database)
      = response 409 (ErrorJson "Email has already been taken")
      /\ db (serve (addUser Reference.platform
                      (Reference.create_request "carol" "bob@updog.nz"))
                   Reference.database)
         = Reference.database)
  /\ (sent (serve (addUser Reference.platform
                     (Reference.create_request "carol" "carol@updog.nz"))
                  Reference.database)
      = response 201
          (TokenJson "User successfully created"
             (generateAuthToken Reference.platform
                (created_row Reference.platform Reference.database
                   (body (Reference.create_request "carol"
                                                   "carol@updog.nz")))))
      /\ users (db (serve (addUser Reference.platform
                             (Reference.create_request "carol"
                                                       "carol@updog.nz"))
                          Reference.database))
         = users Reference.database
           ++ [created_row Reference.platform Reference.database
                 (body (Reference.create_request "carol"
                                                 "carol@updog.nz"))])
  /\ (sent (serve (addUser Reference.platform
                     (Reference.create_request "carol" "qweqwewq"))
                  Reference.database)
      = response 500 (ErrorObject (ValidationError
                        "The email address you entered is invalid"))
      /\ db (serve (addUser Reference.platform
                      (Reference.create_request "carol" "qweqwewq"))
                   Reference.database)
         = Reference.database).
Proof.
  split; [|split; [|split]].
  - apply (proj1 (addUser_outcomes Reference.platform
                    (Reference.create_request "alice" "carol@updog.nz")
                    Reference.database)
                 Reference.alice).
    reflexivity.
  - apply (proj1 (proj2 (addUser_outcomes Reference.platform
                           (Reference.create_request "carol" "bob@updog.nz")
                           Reference.database))
                 Reference.bob); reflexivity.
  - apply (proj1 (proj2 (proj2 (addUser_outcomes Reference.platform
                           (Reference.create_request "carol"
                                                     "carol@updog.nz")
                           Reference.database)))); reflexivity.
  - apply (proj2 (proj2 (proj2 (addUser_outcomes Reference.platform
                           (Reference.create_request "carol" "qweqwewq")
                           Reference.database)))); reflexivity.
Defined.

(** C9 as the specification words it does not hold: a request whose
    username and e-mail address are both free, but whose e-mail address is
    not valid, is not answered with 201. *)
Lemma create_succeeds_when_free_fails : ~ create_succeeds_when_free.
Proof.
  intros H.
  destruct (H Reference.platform
              (Reference.create_request "carol" "qweqwewq")
              Reference.database eq_refl eq_refl) as [authToken E].
  vm_compute in E. discriminate E.
Qed.

(** *** Logging in *)

(** C7, as the controller has it: the e-mail address of the request
    resolves to at most one row, the first one that has it.  When the
    password verifies against the digest of that row, the answer is 200 with
    a token that decodes to the id of that user; with an e-mail address of
    no user, or with a password that does not verify against that row, the
    answer is 401 with the body [{error: "Incorrect email or password"}].
    Every stored user is the row that their address resolves to when e-mail
    addresses are unique in the store. *)
Theorem authenticateUser_outcomes : forall P req d,
  (forall u,
     token_round_trip P ->
     user_by_email d (body_email (body req)) = Some u ->
     validatePassword P (user_password u) (body_password (body req)) = true ->
     exists authToken who,
       sent (serve (authenticateUser P req) d)
       = response 200 (TokenJson "Authentication successful" authToken)
       /\ extractUser P (Some (String.append "Bearer " authToken))
          = Returned (Some who)
       /\ identity_id who = user_id u)
  /\ (user_by_email d (body_email (body req)) = None ->
      sent (serve (authenticateUser P req) d)
      = response 401 (ErrorJson "Incorrect email or password"))
  /\ (forall u,
        user_by_email d (body_email (body req)) = Some u ->
        validatePassword P (user_password u) (body_password (body req))
        = false ->
        sent (serve (authenticateUser P req) d)
        = response 401 (ErrorJson "Incorrect email or password"))
  /\ (unique_emails d ->
      forall u, In u (users d) -> user_by_email d (user_email u) = Some u).
Proof.
  intros P req d. unfold authenticateUser.
  split; [|split; [|split]].
  - intros u Hrt Hfind Hpw.
    destruct (Hrt u) as (who & Hx & Hid).
    exists (generateAuthToken P u), who.
    run_handler. rewrite Hfind. cbn. rewrite Hpw. cbn. auto.
  - intros H. run_handler. rewrite H. reflexivity.
  - intros u H Hpw. run_handler. rewrite H. cbn. rewrite Hpw. reflexivity.
  - intros Hun u Hin. apply user_by_email_unique; assumption.
Qed.

Lemma authenticateUser_outcomes_witness :
  (exists authToken who,
     sent (serve (authenticateUser Reference.platform
                    (Reference.login_request "bob@updog.nz" "builder"))
                 Reference.database)
     = response 200 (TokenJson "Authentication successful" authToken)
     /\ extractUser Reference.platform
          (Some (String.append "Bearer " authToken))
        = Returned (Some who)
     /\ identity_id who = user_id Reference.bob)
  /\ sent (serve (authenticateUser Reference.platform
                    (Reference.login_request "wrong@email.com" "builder"))
                 Reference.database)
     = response 401 (ErrorJson "Incorrect email or password")
  /\ sent (serve (authenticateUser Reference.platform
                    (Reference.login_request "bob@updog.nz"
                                             "WrongPassword"))
                 Reference.database)
     = response 401 (ErrorJson "Incorrect email or password")
  /\ sent (serve (authenticateUser Reference.platform
                    (Reference.login_request "alice@updog.nz" "mirror"))
                 Reference_shared_address)
     = response 401 (ErrorJson "Incorrect email or password")
  /\ user_by_email Reference.database (user_email Reference.bob)
     = Some Reference.bob.
Proof.
  split; [|split; [|split; [|split]]].
  - apply (proj1 (authenticateUser_outcomes Reference.platform
                    (Reference.login_request "bob@updog.nz" "builder")
                    Reference.database)
                 Reference.bob).
    + exact reference_round_trip.
    + reflexivity.
    + reflexivity.
  - apply (proj1 (proj2 (authenticateUser_outcomes Reference.platform
                           (Reference.login_request "wrong@email.com"
                                                    "builder")
                           Reference.database))).
    reflexivity.
  - apply (proj1 (proj2 (proj2 (authenticateUser_outcomes
                                  Reference.platform
                                  (Reference.login_request "bob@updog.nz"
                                                           "WrongPassword")
                                  Reference.database)))
                 Reference.bob);
      reflexivity.
  - apply (proj1 (proj2 (proj2 (authenticateUser_outcomes
                                  Reference.platform
                                  (Reference.login_request "alice@updog.nz"
                                                           "mirror")
                                  Reference_shared_address)))
                 Reference.alice);
      reflexivity.
  - apply (proj2 (proj2 (proj2 (authenticateUser_outcomes
                                  Reference.platform
                                  (Reference.login_request "bob@updog.nz"
                                                           "builder")
                                  Reference.database)))).
    + unfold unique_emails. simpl.
      repeat constructor; simpl; intuition discriminate.
    + simpl. auto.
Defined.

(** C7 as the specification words it does not hold: Alix is stored with the
    e-mail address of Alice, and Alix's own password is refused, because it
    is checked against the row that the address resolves to, which is the
    row of Alice. *)
Lemma every_stored_user_logs_in_fails : ~ every_stored_user_logs_in.
Proof.
  intros H.
  destruct (H Reference.platform
              (Reference.login_request "alice@updog.nz" "mirror")
              Reference_shared_address Reference_alix
              reference_round_trip)
    as (authToken & who & S & _).
  - simpl. auto.
  - reflexivity.
  - reflexivity.
  - discriminate S.
Qed.

(** *** Updating and deleting a profile *)

(** What the update handler leaves behind for a valid token and an existing
    user. *)
Lemma modify_authenticated : forall P req d who u,
  authenticated P req who ->
  user_by_username d (params_username req) = Some u ->
  serve (modifyUserByUsername P req) d
  = {| db := d;
       sent := response 500
                 (ErrorObject
                    (TypeError "Cannot read property 'update' of undefined"));
       log := [FindOneByUsername (params_username req);
               ExtractUser (Authorization req);
               Send 500 (ErrorObject
                 (TypeError "Cannot read property 'update' of undefined"))]
    |}.
Proof.
  intros P req d who u [Ht Hx] Hu. unfold modifyUserByUsername.
  run_handler. rewrite Hu, Ht. cbn. rewrite Hx. cbn. reflexivity.
Qed.

(** What the delete handler leaves behind for a valid token and an existing
    user. *)
Lemma delete_authenticated : forall P req d who u,
  authenticated P req who ->
  user_by_username d (params_username req) = Some u ->
  db (serve (deleteUserByUsername P req) d)
  = with_users d (rows_kept d (params_username req)) (next_user_id d)
  /\ sent (serve (deleteUserByUsername P req) d)
     = (if rows_removed d (params_username req) =? 0
        then response 500 (Text "Failed to destroy the user.")
        else response 200 (Text "The user has been deleted.")).
Proof.
  intros P req d who u [Ht Hx] Hu. unfold deleteUserByUsername.
  run_handler. rewrite Hu, Ht. cbn. rewrite Hx. cbn. unfold rows_removed.
  destruct (length (users d)
            - length (rows_kept d (params_username req)) =? 0);
    run_handler; auto.
Qed.

Lemma delete_authenticated_unknown : forall P req d who,
  authenticated P req who ->
  user_by_username d (params_username req) = None ->
  sent (serve (deleteUserByUsername P req) d)
  = response 404 (Text "Invalid username.")
  /\ db (serve (deleteUserByUsername P req) d) = d.
Proof.
  intros P req d who [Ht Hx] Hu. unfold deleteUserByUsername.
  run_handler. rewrite Hu, Ht. cbn. rewrite Hx. cbn. destruct d; auto.
Qed.

Lemma delete_answer : forall d name u,
  user_by_username d name = Some u ->
  (if rows_removed d name =? 0
   then response 500 (Text "Failed to destroy the user.")
   else response 200 (Text "The user has been deleted."))
  = response 200 (Text "The user has been deleted.").
Proof.
  intros d name u Hu. pose proof (rows_removed_positive _ _ Hu) as Hpos.
  destruct (rows_removed d name =? 0) eqn:Z; [|reflexivity].
  apply Nat.eqb_eq in Z. lia.
Qed.

(** What the delete handler leaves behind over any store, for a valid
    token and an existing user. *)
Lemma delete_over_authenticated : forall destroy P req d who u,
  authenticated P req who ->
  user_by_username d (params_username req) = Some u ->
  db (serve (deleteUserByUsername_over destroy P req) d)
  = fst (destroy d (params_username req))
  /\ sent (serve (deleteUserByUsername_over destroy P req) d)
     = (if snd (destroy d (params_username req)) =? 0
        then response 500 (Text "Failed to destroy the user.")
        else response 200 (Text "The user has been deleted.")).
Proof.
  intros destroy P req d who u [Ht Hx] Hu. unfold deleteUserByUsername_over.
  run_handler. rewrite Hu, Ht. cbn. rewrite Hx. cbn.
  destruct (snd (destroy d (params_username req)) =? 0);
    run_handler; auto.
Qed.

Lemma delete_over_authenticated_unknown : forall destroy P req d who,
  authenticated P req who ->
  user_by_username d (params_username req) = None ->
  serve (deleteUserByUsername_over destroy P req) d
  = {| db := d;
       sent := response 404 (Text "Invalid username.");
       log := [FindOneByUsername (params_username req);
               ExtractUser (Authorization req);
               Send 404 (Text "Invalid username.")] |}.
Proof.
  intros destroy P req d who [Ht Hx] Hu. unfold deleteUserByUsername_over.
  run_handler. rewrite Hu, Ht. cbn. rewrite Hx. cbn. reflexivity.
Qed.

(** C8: a delete request with a valid token is answered with 404 and
    removes nothing, [destroy] is not even called, when the username
    resolves to no user.  When it resolves to a user, the handler calls
    [destroy] and answers by what the call reports, whatever the store
    does: 500 exactly when it reports that no row was removed, 200 exactly
    when it reports a row, and the store is the one that [destroy] leaves
    behind.  [deleteUserByUsername] is this handler over [store_destroy],
    which removes every row of the username and reports their number, at
    least one, so that the record of the user is removed and the answer is
    200. *)
Theorem deleteUserByUsername_outcomes : forall destroy P req d who,
  authenticated P req who ->
  (user_by_username d (params_username req) = None ->
     serve (deleteUserByUsername_over destroy P req) d
     = {| db := d;
          sent := response 404 (Text "Invalid username.");
          log := [FindOneByUsername (params_username req);
                  ExtractUser (Authorization req);
                  Send 404 (Text "Invalid username.")] |})
  /\ (forall u, user_by_username d (params_username req) = Some u ->
        db (serve (deleteUserByUsername_over destroy P req) d)
        = fst (destroy d (params_username req))
        /\ (sent (serve (deleteUserByUsername_over destroy P req) d)
            = response 500 (Text "Failed to destroy the user.")
            <-> snd (destroy d (params_username req)) = 0)
        /\ (sent (serve (deleteUserByUsername_over destroy P req) d)
            = response 200 (Text "The user has been deleted.")
            <-> snd (destroy d (params_username req)) <> 0))
  /\ deleteUserByUsername P req
     = deleteUserByUsername_over store_destroy P req
  /\ (user_by_username d (params_username req) = None ->
      sent (serve (deleteUserByUsername P req) d)
      = response 404 (Text "Invalid username.")
      /\ db (serve (deleteUserByUsername P req) d) = d)
  /\ (forall u, user_by_username d (params_username req) = Some u ->
        users (db (serve (deleteUserByUsername P req) d))
        = rows_kept d (params_username req)
        /\ ~ In u (users (db (serve (deleteUserByUsername P req) d)))
        /\ (forall v,
              In v (users (db (serve (deleteUserByUsername P req) d))) ->
              user_username v <> params_username req)
        /\ snd (store_destroy d (params_username req))
           = rows_removed d (params_username req)
        /\ sent (serve (deleteUserByUsername P req) d)
           = (if rows_removed d (params_username req) =? 0
              then response 500 (Text "Failed to destroy the user.")
              else response 200 (Text "The user has been deleted."))
        /\ rows_removed d (params_username req) <> 0
        /\ sent (serve (deleteUserByUsername P req) d)
           = response 200 (Text "The user has been deleted.")).
Proof.
  intros destroy P req d who A.
  split; [|split; [|split; [|split]]].
  - intros Hu. apply (delete_over_authenticated_unknown destroy d A Hu).
  - intros u Hu.
    destruct (delete_over_authenticated destroy d A Hu) as [E S].
    split; [exact E|]. rewrite S.
    destruct (snd (destroy d (params_username req)) =? 0) eqn:Z.
    + apply Nat.eqb_eq in Z. split; split; intros H.
      * exact Z.
      * reflexivity.
      * discriminate H.
      * contradiction.
    + apply Nat.eqb_neq in Z. split; split; intros H.
      * discriminate H.
      * contradiction.
      * exact Z.
      * reflexivity.
  - reflexivity.
  - intros Hu. apply (delete_authenticated_unknown d A Hu).
  - intros u Hu.
    destruct (delete_authenticated d A Hu) as [E S].
    pose proof (rows_removed_positive _ _ Hu) as Hpos.
    pose proof (delete_answer _ _ Hu) as Hans.
    apply user_by_username_In in Hu. destruct Hu as [Hin Hname].
    rewrite E. cbn [users with_users].
    split; [reflexivity|]. split.
    { intros C. apply rows_kept_spec in C. tauto. }
    split.
    { intros v Hv. apply rows_kept_spec in Hv. tauto. }
    split; [reflexivity|].
    split; [exact S|]. split; [lia|].
    rewrite S. exact Hans.
Qed.

Lemma deleteUserByUsername_outcomes_witness :
  (sent (serve (deleteUserByUsername Reference.platform
                  (Reference.profile_request "nobody"
                     (Some Reference.token_of_bob)))
               Reference.database)
   = response 404 (Text "Invalid username.")
   /\ db (serve (deleteUserByUsername Reference.platform
                   (Reference.profile_request "nobody"
                      (Some Reference.token_of_bob)))
                Reference.database)
      = Reference.database)
  /\ (users (db (serve (deleteUserByUsername Reference.platform
                          (Reference.profile_request "alice"
                             (Some Reference.token_of_bob)))
                       Reference.database))
      = [Reference.bob]
      /\ sent (serve (deleteUserByUsername Reference.platform
                        (Reference.profile_request "alice"
                           (Some Reference.token_of_bob)))
                     Reference.database)
         = response 200 (Text "The user has been deleted."))
  /\ (db (serve (deleteUserByUsername_over (fun d _ => (d, 0))
                   Reference.platform
                   (Reference.profile_request "alice"
                      (Some Reference.token_of_bob)))
                Reference.database)
      = Reference.database
      /\ sent (serve (deleteUserByUsername_over (fun d _ => (d, 0))
                        Reference.platform
                        (Reference.profile_request "alice"
                           (Some Reference.token_of_bob)))
                     Reference.database)
         = response 500 (Text "Failed to destroy the user."))
  /\ sent (serve (deleteUserByUsername_over store_destroy
                    Reference.platform
                    (Reference.profile_request "alice"
                       (Some Reference.token_of_bob)))
                 Reference.database)
     = response 200 (Text "The user has been deleted.")
  /\ serve (deleteUserByUsername_over (fun d _ => (d, 0))
              Reference.platform
              (Reference.profile_request "nobody"
                 (Some Reference.token_of_bob)))
           Reference.database
     = {| db := Reference.database;
          sent := response 404 (Text "Invalid username.");
          log := [FindOneByUsername "nobody";
                  ExtractUser (Some Reference.token_of_bob);
                  Send 404 (Text "Invalid username.")] |}.
Proof.
  assert (A : forall name,
             authenticated Reference.platform
               (Reference.profile_request name
                  (Some Reference.token_of_bob))
               {| identity_id := 2 |})
    by (intros name; split; reflexivity).
  split; [|split; [|split; [|split]]].
  - apply (proj1 (proj2 (proj2 (proj2
             (deleteUserByUsername_outcomes store_destroy
                Reference.database (A "nobody")))))).
    reflexivity.
  - destruct (proj2 (proj2 (proj2 (proj2
                (deleteUserByUsername_outcomes store_destroy
                   Reference.database (A "alice")))))
                Reference.alice eq_refl)
      as (H1 & _ & _ & _ & _ & _ & H2).
    split; [exact H1|exact H2].
  - destruct (proj1 (proj2
                (deleteUserByUsername_outcomes (fun d _ => (d, 0))
                   Reference.database (A "alice")))
                Reference.alice eq_refl)
      as (H1 & H2 & _).
    split; [exact H1|]. apply H2. reflexivity.
  - destruct (proj1 (proj2
                (deleteUserByUsername_outcomes store_destroy
                   Reference.database (A "alice")))
                Reference.alice eq_refl)
      as (_ & _ & H3).
    apply H3. cbn. lia.
  - apply (proj1 (deleteUserByUsername_outcomes (fun d _ => (d, 0))
                    Reference.database (A "nobody"))).
    reflexivity.
Defined.

(** C1: an update request with a valid token for an existing user is
    answered with 500 and changes no row, because the registry has no model
    of the name the handler asks for; no update reaches the store. *)
Theorem modifyUserByUsername_not_applied : forall P req d who u,
  authenticated P req who ->
  user_by_username d (params_username req) = Some u ->
  sent (serve (modifyUserByUsername P req) d)
  = response 500
      (ErrorObject (TypeError "Cannot read property 'update' of undefined"))
  /\ db (serve (modifyUserByUsername P req) d) = d
  /\ (forall property username,
        ~ In (Update property username)
             (log (serve (modifyUserByUsername P req) d))).
Proof.
  intros P req d who u A Hu. rewrite (modify_authenticated d A Hu). cbn.
  split; [reflexivity|]. split; [reflexivity|].
  intros property username [C|[C|[C|[]]]]; discriminate C.
Qed.

Lemma modifyUserByUsername_not_applied_witness :
  sent (serve (modifyUserByUsername Reference.platform
                 (Reference.profile_request "alice"
                    (Some Reference.token_of_alice)))
              Reference.database)
  = response 500
      (ErrorObject (TypeError "Cannot read property 'update' of undefined"))
  /\ db (serve (modifyUserByUsername Reference.platform
                  (Reference.profile_request "alice"
                     (Some Reference.token_of_alice)))
               Reference.database)
     = Reference.database
  /\ (forall property username,
        ~ In (Update property username)
             (log (serve (modifyUserByUsername Reference.platform
                            (Reference.profile_request "alice"
                               (Some Reference.token_of_alice)))
                         Reference.database))).
Proof.
  apply (@modifyUserByUsername_not_applied Reference.platform
           (Reference.profile_request "alice"
              (Some Reference.token_of_alice))
           Reference.database {| identity_id := 1 |} Reference.alice).
  - split; reflexivity.
  - reflexivity.
Defined.

(** C2: two update or delete requests for the same existing user that
    differ only in the token, each token decoding to some identity, are
    answered alike and leave the same database; the delete removes the
    rows of the user, the update changes nothing and is answered with
    500. *)
Theorem mutation_ignores_identity : forall P req1 req2 d who1 who2 u,
  params_username req1 = params_username req2 ->
  body req1 = body req2 ->
  authenticated P req1 who1 ->
  authenticated P req2 who2 ->
  user_by_username d (params_username req1) = Some u ->
  (sent (serve (deleteUserByUsername P req1) d)
   = sent (serve (deleteUserByUsername P req2) d)
   /\ db (serve (deleteUserByUsername P req1) d)
      = db (serve (deleteUserByUsername P req2) d)
   /\ users (db (serve (deleteUserByUsername P req1) d))
      = rows_kept d (params_username req1)
   /\ sent (serve (deleteUserByUsername P req1) d)
      = response 200 (Text "The user has been deleted."))
  /\ (sent (serve (modifyUserByUsername P req1) d)
      = sent (serve (modifyUserByUsername P req2) d)
      /\ db (serve (modifyUserByUsername P req1) d)
         = db (serve (modifyUserByUsername P req2) d)
      /\ db (serve (modifyUserByUsername P req1) d) = d
      /\ sent (serve (modifyUserByUsername P req1) d)
         = response 500
             (ErrorObject
                (TypeError "Cannot read property 'update' of undefined"))).
Proof.
  intros P req1 req2 d who1 who2 u Hn Hb A1 A2 Hu.
  pose proof Hu as Hu2. rewrite Hn in Hu2.
  destruct (delete_authenticated d A1 Hu) as [D1 D2].
  destruct (delete_authenticated d A2 Hu2) as [E1 E2].
  rewrite (modify_authenticated d A1 Hu), (modify_authenticated d A2 Hu2).
  rewrite D1, D2, E1, E2, <- Hn. cbn.
  rewrite (delete_answer _ _ Hu). auto.
Qed.

Lemma mutation_ignores_identity_witness :
  (sent (serve (deleteUserByUsername Reference.platform
                  (Reference.profile_request "alice"
                     (Some Reference.token_of_alice)))
               Reference.database)
   = sent (serve (deleteUserByUsername Reference.platform
                    (Reference.profile_request "alice"
                       (Some Reference.token_of_bob)))
                 Reference.database)
   /\ db (serve (deleteUserByUsername Reference.platform
                   (Reference.profile_request "alice"
                      (Some Reference.token_of_alice)))
                Reference.database)
      = db (serve (deleteUserByUsername Reference.platform
                     (Reference.profile_request "alice"
                        (Some Reference.token_of_bob)))
                  Reference.database)
   /\ users (db (serve (deleteUserByUsername Reference.platform
                          (Reference.profile_request "alice"
                             (Some Reference.token_of_alice)))
                       Reference.database))
      = rows_kept Reference.database "alice"
   /\ sent (serve (deleteUserByUsername Reference.platform
                     (Reference.profile_request "alice"
                        (Some Reference.token_of_alice)))
                  Reference.database)
      = response 200 (Text "The user has been deleted."))
  /\ (sent (serve (modifyUserByUsername Reference.platform
                     (Reference.profile_request "alice"
                        (Some Reference.token_of_alice)))
                  Reference.database)
      = sent (serve (modifyUserByUsername Reference.platform
                       (Reference.profile_request "alice"
                          (Some Reference.token_of_bob)))
                    Reference.database)
      /\ db (serve (modifyUserByUsername Reference.platform
                      (Reference.profile_request "alice"
                         (Some Reference.token_of_alice)))
                   Reference.database)
         = db (serve (modifyUserByUsername Reference.platform
                        (Reference.profile_request "alice"
                           (Some Reference.token_of_bob)))
                     Reference.database)
      /\ db (serve (modifyUserByUsername Reference.platform
                      (Reference.profile_request "alice"
                         (Some Reference.token_of_alice)))
                   Reference.database)
         = Reference.database
      /\ sent (serve (modifyUserByUsername Reference.platform
                        (Reference.profile_request "alice"
                           (Some Reference.token_of_alice)))
                     Reference.database)
         = response 500
             (ErrorObject
                (TypeError "Cannot read property 'update' of undefined"))).
Proof.
  apply (@mutation_ignores_identity Reference.platform
           (Reference.profile_request "alice"
              (Some Reference.token_of_alice))
           (Reference.profile_request "alice"
              (Some Reference.token_of_bob))
           Reference.database
           {| identity_id := 1 |} {| identity_id := 2 |} Reference.alice).
  - reflexivity.
  - reflexivity.
  - split; reflexivity.
  - split; reflexivity.
  - reflexivity.
Defined.

(** C6: an update or delete request without a token is answered with 400,
    but the handler does not stop there: it goes on to decode the absent
    token and to send a second response, which throws, so that the promise
    of the handler is rejected.  The database stays as it is unless the
    absent token decodes to an identity. *)
Theorem missing_token_handler_continues : forall P req d,
  falsy (Authorization req) = true ->
  (sent (serve (modifyUserByUsername P req) d)
   = response 400 (ErrorMessageJson "Auth token not provided")
   /\ (exists later,
         log (serve (modifyUserByUsername P req) d)
         = [FindOneByUsername (params_username req);
            Send 400 (ErrorMessageJson "Auth token not provided");
            ExtractUser (Authorization req)] ++ later)
   /\ rejection (modifyUserByUsername P req) d = Some ERR_HTTP_HEADERS_SENT
   /\ ((forall who,
          extractUser P (Authorization req) <> Returned (Some who)) ->
       db (serve (modifyUserByUsername P req) d) = d))
  /\ (sent (serve (deleteUserByUsername P req) d)
      = response 400 (ErrorMessageJson "Auth token not provided")
      /\ (exists later,
            log (serve (deleteUserByUsername P req) d)
            = [FindOneByUsername (params_username req);
               Send 400 (ErrorMessageJson "Auth token not provided");
               ExtractUser (Authorization req)] ++ later)
      /\ rejection (deleteUserByUsername P req) d
         = Some ERR_HTTP_HEADERS_SENT
      /\ ((forall who,
             extractUser P (Authorization req) <> Returned (Some who)) ->
          db (serve (deleteUserByUsername P req) d) = d)).
Proof.
  intros P req d Hf.
  split.
  - unfold modifyUserByUsername. run_handler. rewrite Hf. cbn.
    destruct (extractUser P (Authorization req)) as [e|[who|]] eqn:Hx; cbn.
    + split; [reflexivity|]. split; [eexists; reflexivity|].
      split; [reflexivity|]. intros _. destruct d; reflexivity.
    + destruct (user_by_username d (params_username req)); cbn.
      * split; [reflexivity|]. split; [eexists; reflexivity|].
        split; [reflexivity|].
        intros C. exfalso. apply (C who). reflexivity.
      * split; [reflexivity|]. split; [eexists; reflexivity|].
        split; [reflexivity|]. intros _. destruct d; reflexivity.
    + split; [reflexivity|]. split; [eexists; reflexivity|].
      split; [reflexivity|]. intros _. destruct d; reflexivity.
  - unfold deleteUserByUsername. run_handler. rewrite Hf. cbn.
    destruct (extractUser P (Authorization req)) as [e|[who|]] eqn:Hx; cbn.
    + split; [reflexivity|]. split; [eexists; reflexivity|].
      split; [reflexivity|]. intros _. destruct d; reflexivity.
    + destruct (user_by_username d (params_username req)); cbn.
      * destruct (length (users d)
                  - length (rows_kept d (params_username req)) =? 0);
          run_handler;
          (split; [reflexivity|]; split; [eexists; reflexivity|];
           split; [reflexivity|];
           intros C; exfalso; apply (C who); reflexivity).
      * split; [reflexivity|]. split; [eexists; reflexivity|].
        split; [reflexivity|]. intros _. destruct d; reflexivity.
    + split; [reflexivity|]. split; [eexists; reflexivity|].
      split; [reflexivity|]. intros _. destruct d; reflexivity.
Qed.

Lemma missing_token_handler_continues_witness :
  (sent (serve (modifyUserByUsername Reference.platform
                  (Reference.profile_request "alice" None))
               Reference.database)
   = response 400 (ErrorMessageJson "Auth token not provided")
   /\ (exists later,
         log (serve (modifyUserByUsername Reference.platform
                       (Reference.profile_request "alice" None))
                    Reference.database)
         = [FindOneByUsername "alice";
            Send 400 (ErrorMessageJson "Auth token not provided");
            ExtractUser None] ++ later)
   /\ rejection (modifyUserByUsername Reference.platform
                   (Reference.profile_request "alice" None))
                Reference.database
      = Some ERR_HTTP_HEADERS_SENT
   /\ ((forall who,
          extractUser Reference.platform None <> Returned (Some who)) ->
       db (serve (modifyUserByUsername Reference.platform
                    (Reference.profile_request "alice" None))
                 Reference.database)
       = Reference.database))
  /\ (sent (serve (deleteUserByUsername Reference.platform
                     (Reference.profile_request "alice" None))
                  Reference.database)
      = response 400 (ErrorMessageJson "Auth token not provided")
      /\ (exists later,
            log (serve (deleteUserByUsername Reference.platform
                          (Reference.profile_request "alice" None))
                       Reference.database)
            = [FindOneByUsername "alice";
               Send 400 (ErrorMessageJson "Auth token not provided");
               ExtractUser None] ++ later)
      /\ rejection (deleteUserByUsername Reference.platform
                      (Reference.profile_request "alice" None))
                   Reference.database
         = Some ERR_HTTP_HEADERS_SENT
      /\ ((forall who,
             extractUser Reference.platform None <> Returned (Some who)) ->
          db (serve (deleteUserByUsername Reference.platform
                       (Reference.profile_request "alice" None))
                    Reference.database)
          = Reference.database)).
Proof.
  apply (@missing_token_handler_continues Reference.platform
           (Reference.profile_request "alice" None) Reference.database).
  reflexivity.
Defined.

(** The delete request without a token on the reference platform: after the
    400 the handler decodes the absent token, which throws, and the 500 of
    the catch block throws again, so the promise of the handler is
    rejected. *)
Lemma deleteUserByUsername_without_token :
  log (serve (deleteUserByUsername Reference.platform
                (Reference.profile_request "alice" None))
             Reference.database)
  = [FindOneByUsername "alice";
     Send 400 (ErrorMessageJson "Auth token not provided");
     ExtractUser None;
     Send 500 (ErrorObject
       (TypeError "Cannot read property 'split' of undefined"))]
  /\ rejection (deleteUserByUsername Reference.platform
                  (Reference.profile_request "alice" None))
               Reference.database
     = Some ERR_HTTP_HEADERS_SENT.
Proof. split; reflexivity. Qed.

(** *** The activity feed *)

Lemma activity_before : forall a b,
  ArraySortNotions.before activity_comparefn a b
  <-> (timestamp b <= timestamp a)%Z.
Proof.
  intros a b. unfold ArraySortNotions.before, ArraySort.order_lt,
    activity_comparefn.
  destruct (timestamp a <? timestamp b)%Z eqn:E; simpl.
  - apply Z.ltb_lt in E. split; [intros H; discriminate H|intros H; lia].
  - apply Z.ltb_ge in E. split; [intros _; lia|reflexivity].
Qed.

Lemma activity_before_total : forall a b,
  ArraySortNotions.before activity_comparefn a b
  \/ ArraySortNotions.before activity_comparefn b a.
Proof. intros a b. rewrite !activity_before. lia. Qed.

Lemma activity_before_trans : forall a b c,
  ArraySortNotions.before activity_comparefn a b ->
  ArraySortNotions.before activity_comparefn b c ->
  ArraySortNotions.before activity_comparefn a c.
Proof. intros a b c. rewrite !activity_before. lia. Qed.

(** The feed that is sent for an existing user and a valid token. *)
Lemma getUserActivity_feed : forall P req d who u,
  authenticated P req who ->
  user_by_username d (params_username req) = Some u ->
  sent (serve (getUserActivity P req) d)
  = response 200
      (ActivityJson (ArraySort.sort activity_comparefn (concatenation d u))).
Proof.
  intros P req d who u [Ht Hx] Hu. unfold getUserActivity. run_handler.
  rewrite Hu, Ht. cbn. rewrite Hx. cbn. reflexivity.
Qed.

Lemma sort_activity : forall l,
  StronglySorted (ArraySortNotions.before activity_comparefn)
                 (ArraySort.sort activity_comparefn l)
  /\ Permutation (ArraySort.sort activity_comparefn l) l.
Proof.
  intros l. unfold ArraySort.sort.
  apply ArraySortFacts.ArrayTimSortImpl_sorted.
  - exact activity_before_total.
  - exact activity_before_trans.
Qed.

(** C3: the entries of the feed of an existing user are the POSTED entries
    of the posts the user wrote (post id and creation time of the post), the
    SHARED entries of the shares of the user (id of the shared post, time of
    the share) and the LIKED entries of the likes of the user (id of the
    liked post, time of the like), and nothing else. *)
Theorem getUserActivity_entries : forall P req d who u,
  authenticated P req who ->
  user_by_username d (params_username req) = Some u ->
  exists feed,
    sent (serve (getUserActivity P req) d) = response 200 (ActivityJson feed)
    /\ forall e,
         In e feed <->
         (exists p, In p (posts d) /\ post_author p = user_id u
                    /\ e = {| activity := POSTED; postID := post_id p;
                              timestamp := post_createdAt p |})
         \/ (exists s, In s (sharedPost d) /\ ref_userID s = user_id u
                       /\ e = {| activity := SHARED; postID := ref_postId s;
                                 timestamp := ref_createdAt s |})
         \/ (exists l, In l (likedPost d) /\ ref_userID l = user_id u
                       /\ e = {| activity := LIKED; postID := ref_postId l;
                                 timestamp := ref_createdAt l |}).
Proof.
  intros P req d who u A Hu.
  exists (ArraySort.sort activity_comparefn (concatenation d u)).
  split; [apply (getUserActivity_feed d A Hu)|].
  intros e. destruct (sort_activity (concatenation d u)) as [_ Hp].
  assert (Hin : In e (ArraySort.sort activity_comparefn (concatenation d u))
                <-> In e (concatenation d u)).
  { split; apply Permutation_in; [exact Hp|apply Permutation_sym; exact Hp]. }
  rewrite Hin. unfold concatenation, posted_entries, liked_entries,
    shared_entries.
  rewrite !in_app_iff, !in_map_iff.
  split.
  - intros [(p & <- & Hp')|[(l & <- & Hl)|(s & <- & Hs)]].
    + apply filter_In in Hp'. destruct Hp' as [H1 H2].
      apply Nat.eqb_eq in H2. left. exists p. auto.
    + apply filter_In in Hl. destruct Hl as [H1 H2].
      apply Nat.eqb_eq in H2. right. right. exists l. auto.
    + apply filter_In in Hs. destruct Hs as [H1 H2].
      apply Nat.eqb_eq in H2. right. left. exists s. auto.
  - intros [(p & H1 & H2 & ->)|[(s & H1 & H2 & ->)|(l & H1 & H2 & ->)]].
    + left. exists p. split; auto. apply filter_In. split; auto.
      apply Nat.eqb_eq. exact H2.
    + right. right. exists s. split; auto. apply filter_In. split; auto.
      apply Nat.eqb_eq. exact H2.
    + right. left. exists l. split; auto. apply filter_In. split; auto.
      apply Nat.eqb_eq. exact H2.
Qed.

Lemma getUserActivity_entries_witness :
  exists feed,
    sent (serve (getUserActivity Reference.platform
                   (Reference.profile_request "alice"
                      (Some Reference.token_of_bob)))
                Reference.database)
    = response 200 (ActivityJson feed)
    /\ forall e,
         In e feed <->
         (exists p, In p (posts Reference.database)
                    /\ post_author p = user_id Reference.alice
                    /\ e = {| activity := POSTED; postID := post_id p;
                              timestamp := post_createdAt p |})
         \/ (exists s, In s (sharedPost Reference.database)
                       /\ ref_userID s = user_id Reference.alice
                       /\ e = {| activity := SHARED; postID := ref_postId s;
                                 timestamp := ref_createdAt s |})
         \/ (exists l, In l (likedPost Reference.database)
                       /\ ref_userID l = user_id Reference.alice
                       /\ e = {| activity := LIKED; postID := ref_postId l;
                                 timestamp := ref_createdAt l |}).
Proof.
  apply (@getUserActivity_entries Reference.platform
           (Reference.profile_request "alice" (Some Reference.token_of_bob))
           Reference.database {| identity_id := 2 |} Reference.alice).
  - split; reflexivity.
  - reflexivity.
Defined.

(** C4: the feed of an existing user is a permutation of the POSTED, LIKED
    and SHARED entries put one after the other, and no entry is older than
    an entry that comes after it. *)
Theorem getUserActivity_sorted : forall P req d who u,
  authenticated P req who ->
  user_by_username d (params_username req) = Some u ->
  exists feed,
    sent (serve (getUserActivity P req) d) = response 200 (ActivityJson feed)
    /\ Permutation feed
         (posted_entries d u ++ liked_entries d u ++ shared_entries d u)
    /\ forall i j a b,
         i < j -> nth_error feed i = Some a -> nth_error feed j = Some b ->
         (timestamp b <= timestamp a)%Z.
Proof.
  intros P req d who u A Hu.
  exists (ArraySort.sort activity_comparefn (concatenation d u)).
  split; [apply (getUserActivity_feed d A Hu)|].
  destruct (sort_activity (concatenation d u)) as [Hs Hp].
  split; [exact Hp|].
  intros i j a b Hij Ha Hb. apply activity_before.
  apply (ArraySortFacts.sorted_nth activity_before_total Hs
           (Nat.lt_le_incl _ _ Hij) Ha Hb).
Qed.

Lemma getUserActivity_sorted_witness :
  exists feed,
    sent (serve (getUserActivity Reference.platform
                   (Reference.profile_request "alice"
                      (Some Reference.token_of_bob)))
                Reference.database)
    = response 200 (ActivityJson feed)
    /\ Permutation feed
         (posted_entries Reference.database Reference.alice
          ++ liked_entries Reference.database Reference.alice
          ++ shared_entries Reference.database Reference.alice)
    /\ forall i j a b,
         i < j -> nth_error feed i = Some a -> nth_error feed j = Some b ->
         (timestamp b <= timestamp a)%Z.
Proof.
  apply (@getUserActivity_sorted Reference.platform
           (Reference.profile_request "alice" (Some Reference.token_of_bob))
           Reference.database {| identity_id := 2 |} Reference.alice).
  - split; reflexivity.
  - reflexivity.
Defined.

(** When all entries of the feed have the same timestamp, the feed is the
    concatenation in reverse: the comparator never reports a tie, so the
    engine takes the whole array for one descending run and reverses it. *)
Lemma getUserActivity_all_ties : forall P req d who u,
  authenticated P req who ->
  user_by_username d (params_username req) = Some u ->
  (forall a b, In a (concatenation d u) -> In b (concatenation d u) ->
               timestamp a = timestamp b) ->
  sent (serve (getUserActivity P req) d)
  = response 200 (ActivityJson (rev (concatenation d u))).
Proof.
  intros P req d who u A Hu Hties.
  rewrite (getUserActivity_feed d A Hu).
  rewrite ArraySortFacts.sort_all_before; [reflexivity|].
  intros a b Ha Hb. apply activity_before. rewrite (Hties a b Ha Hb). lia.
Qed.

(** C5 does not hold of the controller: the post and the like of Alice have
    the same timestamp, the POSTED entry stands before the LIKED entry in
    the concatenation, and the feed has the LIKED entry first. *)
Theorem getUserActivity_reverses_ties :
  concatenation Reference.database Reference.alice
  = [Reference.posted; Reference.liked; Reference.shared]
  /\ sent (serve (getUserActivity Reference.platform
                    (Reference.profile_request "alice"
                       (Some Reference.token_of_bob)))
                 Reference.database)
     = response 200
         (ActivityJson [Reference.shared; Reference.liked; Reference.posted])
  /\ ~ keeps_tie_order
        [Reference.posted; Reference.liked; Reference.shared]
        [Reference.shared; Reference.liked; Reference.posted].
Proof.
  split; [reflexivity|]. split; [reflexivity|].
  intros K.
  assert (Hp : precedes Reference.posted Reference.liked
                 [Reference.posted; Reference.liked; Reference.shared]).
  { exists [], [], [Reference.shared]. reflexivity. }
  destruct (K Reference.posted Reference.liked eq_refl Hp)
    as (l1 & l2 & l3 & E).
  destruct l1 as [|x1 l1]; simpl in E; [discriminate|].
  inversion E as [[E1 E2]]; subst x1.
  destruct l1 as [|x2 l1]; simpl in E2; [discriminate|].
  inversion E2 as [[E3 E4]]; subst x2.
  destruct l1 as [|x3 l1]; simpl in E4.
  - inversion E4 as [[E5]]. destruct l2; discriminate.
  - inversion E4 as [[E5 E6]]. destruct l1; discriminate.
Qed.

(* ===================================================================== *)
(** ** Further facts about the controller *)

Ltac run_read :=
  unfold getUsersByUsername, decodedUser_id, UserDTO_convertToDto;
  run_handler.

(** *** The profile read *)

(** X1: A profile read that carries a token never touches the store and its
    promise is fulfilled.  The answer is 500 with the text of the error when
    the token service throws, also 500 (a [TypeError]) when the service
    answers no identity, 401 when the identity has no id, and otherwise what
    the conversion of the row gives: 200 with the body, or 500 with the text
    of the error it throws. *)
Theorem getUsersByUsername_outcomes : forall P convertToDto req d,
  falsy (Authorization req) = false ->
  db (serve (getUsersByUsername P convertToDto req) d) = d
  /\ rejection (getUsersByUsername P convertToDto req) d = None
  /\ (forall e,
        extractUser P (Authorization req) = Threw e ->
        sent (serve (getUsersByUsername P convertToDto req) d)
        = response 500 (ErrorMessageJson (Error_toString e)))
  /\ (extractUser P (Authorization req) = Returned None ->
      exists m,
        sent (serve (getUsersByUsername P convertToDto req) d)
        = response 500 (ErrorMessageJson (Error_toString (TypeError m))))
  /\ (forall who,
        extractUser P (Authorization req) = Returned (Some who) ->
        identity_id who = 0 ->
        sent (serve (getUsersByUsername P convertToDto req) d)
        = response 401 (ErrorMessageJson "Auth token invalid"))
  /\ (forall who,
        extractUser P (Authorization req) = Returned (Some who) ->
        identity_id who <> 0 ->
        sent (serve (getUsersByUsername P convertToDto req) d)
        = match convertToDto (user_by_username d (params_username req)) with
          | Normal userDTO => response 200 userDTO
          | Thrown e => response 500 (ErrorMessageJson (Error_toString e))
          end).
Proof.
  intros P convertToDto req d Ht. run_read. rewrite Ht. cbn.
  destruct (extractUser P (Authorization req)) as [e|[who|]] eqn:Hx; cbn.
  - split; [destruct d; reflexivity|]. split; [reflexivity|].
    split; [intros e' E; inversion E; reflexivity|].
    split; [intros E; discriminate E|].
    split; intros who E; discriminate E.
  - destruct (identity_id who =? 0) eqn:Hid; cbn.
    + apply Nat.eqb_eq in Hid.
      split; [destruct d; reflexivity|]. split; [reflexivity|].
      split; [intros e' E; discriminate E|].
      split; [intros E; discriminate E|].
      split; intros who' E; inversion E; subst who'; intros Hw.
      * reflexivity.
      * contradiction.
    + apply Nat.eqb_neq in Hid.
      destruct (convertToDto (user_by_username d (params_username req)))
        as [userDTO|e] eqn:Hdto; cbn.
      * split; [destruct d; reflexivity|]. split; [reflexivity|].
        split; [intros e' E; discriminate E|].
        split; [intros E; discriminate E|].
        split; intros who' E; inversion E; subst who'; intros Hw.
        -- contradiction.
        -- reflexivity.
      * split; [destruct d; reflexivity|]. split; [reflexivity|].
        split; [intros e' E; discriminate E|].
        split; [intros E; discriminate E|].
        split; intros who' E; inversion E; subst who'; intros Hw.
        -- contradiction.
        -- reflexivity.
  - split; [destruct d; reflexivity|]. split; [reflexivity|].
    split; [intros e' E; discriminate E|].
    split; [intros _; eexists; reflexivity|].
    split; intros who E; discriminate E.
Qed.

Lemma getUsersByUsername_outcomes_witness :
  db (serve (getUsersByUsername Reference.platform Reference_convertToDto
               (Reference.profile_request "alice"
                  (Some Reference.token_of_bob)))
            Reference.database)
  = Reference.database
  /\ rejection (getUsersByUsername Reference.platform Reference_convertToDto
                  (Reference.profile_request "alice"
                     (Some Reference.token_of_bob)))
               Reference.database
     = None
  /\ sent (serve (getUsersByUsername Reference.platform
                    Reference_convertToDto
                    (Reference.profile_request "alice"
                       (Some Reference.token_of_bob)))
                 Reference.database)
     = response 200 (Text "alice")
  /\ sent (serve (getUsersByUsername Reference.platform
                    Reference_convertToDto
                    (Reference.profile_request "alice" (Some "Bearer ")))
                 Reference.database)
     = response 401 (ErrorMessageJson "Auth token invalid")
  /\ sent (serve (getUsersByUsername Reference.platform
                    Reference_convertToDto
                    (Reference.profile_request "alice" (Some "Bearer x")))
                 Reference.database)
     = response 500
         (ErrorMessageJson (Error_toString (TokenError "jwt malformed"))).
Proof.
  split; [|split; [|split; [|split]]].
  - apply (proj1 (@getUsersByUsername_outcomes Reference.platform
                    Reference_convertToDto
                    (Reference.profile_request "alice"
                       (Some Reference.token_of_bob))
                    Reference.database eq_refl)).
  - apply (proj1 (proj2 (@getUsersByUsername_outcomes Reference.platform
                    Reference_convertToDto
                    (Reference.profile_request "alice"
                       (Some Reference.token_of_bob))
                    Reference.database eq_refl))).
  - apply (proj2 (proj2 (proj2 (proj2 (proj2
             (@getUsersByUsername_outcomes Reference.platform
                Reference_convertToDto
                (Reference.profile_request "alice"
                   (Some Reference.token_of_bob))
                Reference.database eq_refl)))))
             {| identity_id := 2 |}).
    + reflexivity.
    + cbn. lia.
  - apply (proj1 (proj2 (proj2 (proj2 (proj2
             (@getUsersByUsername_outcomes Reference.platform
                Reference_convertToDto
                (Reference.profile_request "alice" (Some "Bearer "))
                Reference.database eq_refl)))))
             {| identity_id := 0 |}); reflexivity.
  - apply (proj1 (proj2 (proj2
             (@getUsersByUsername_outcomes Reference.platform
                Reference_convertToDto
                (Reference.profile_request "alice" (Some "Bearer x"))
                Reference.database eq_refl)))
             (TokenError "jwt malformed")); reflexivity.
Defined.

(** X2: A profile read without a token is answered with 400, but the handler
    does not stop there: it goes on to decode the absent token, every path
    from there ends in a second [send], which throws, also inside the catch
    block, so that the promise of the handler is rejected.  The store stays
    as it is. *)
Theorem getUsersByUsername_without_token : forall P convertToDto req d,
  falsy (Authorization req) = true ->
  sent (serve (getUsersByUsername P convertToDto req) d)
  = response 400 (ErrorMessageJson "Auth token not provided")
  /\ (exists later,
        log (serve (getUsersByUsername P convertToDto req) d)
        = [FindOneByUsername (params_username req);
           Send 400 (ErrorMessageJson "Auth token not provided");
           ExtractUser (Authorization req)] ++ later
        /\ send_attempts later <> [])
  /\ rejection (getUsersByUsername P convertToDto req) d
     = Some ERR_HTTP_HEADERS_SENT
  /\ db (serve (getUsersByUsername P convertToDto req) d) = d.
Proof.
  intros P convertToDto req d Hf. run_read. rewrite Hf. cbn.
  destruct (extractUser P (Authorization req)) as [e|[who|]] eqn:Hx; cbn.
  - split; [reflexivity|].
    split; [eexists; split; [reflexivity|discriminate]|].
    split; [reflexivity|destruct d; reflexivity].
  - destruct (identity_id who =? 0); cbn.
    + split; [reflexivity|].
      split; [eexists; split; [reflexivity|discriminate]|].
      split; [reflexivity|destruct d; reflexivity].
    + destruct (convertToDto (user_by_username d (params_username req)));
        cbn.
      * split; [reflexivity|].
        split; [eexists; split; [reflexivity|discriminate]|].
        split; [reflexivity|destruct d; reflexivity].
      * split; [reflexivity|].
        split; [eexists; split; [reflexivity|discriminate]|].
        split; [reflexivity|destruct d; reflexivity].
  - split; [reflexivity|].
    split; [eexists; split; [reflexivity|discriminate]|].
    split; [reflexivity|destruct d; reflexivity].
Qed.

Lemma getUsersByUsername_without_token_witness :
  sent (serve (getUsersByUsername Reference.platform Reference_convertToDto
                 (Reference.profile_request "alice" None))
              Reference.database)
  = response 400 (ErrorMessageJson "Auth token not provided")
  /\ (exists later,
        log (serve (getUsersByUsername Reference.platform
                      Reference_convertToDto
                      (Reference.profile_request "alice" None))
                   Reference.database)
        = [FindOneByUsername "alice";
           Send 400 (ErrorMessageJson "Auth token not provided");
           ExtractUser None] ++ later
        /\ send_attempts later <> [])
  /\ rejection (getUsersByUsername Reference.platform Reference_convertToDto
                  (Reference.profile_request "alice" None))
               Reference.database
     = Some ERR_HTTP_HEADERS_SENT
  /\ db (serve (getUsersByUsername Reference.platform Reference_convertToDto
                  (Reference.profile_request "alice" None))
               Reference.database)
     = Reference.database.
Proof.
  apply (@getUsersByUsername_without_token Reference.platform
           Reference_convertToDto (Reference.profile_request "alice" None)
           Reference.database).
  reflexivity.
Defined.

(** *** The activity feed: requests that are not served *)

(** X3: A request for the feed without a token is answered with 400 and then
    goes the same way as the mutations do: the handler decodes the absent
    token, ends in a second [send], and its promise is rejected.  The store
    stays as it is. *)
Theorem getUserActivity_without_token : forall P req d,
  falsy (Authorization req) = true ->
  sent (serve (getUserActivity P req) d)
  = response 400 (ErrorMessageJson "Auth token not provided")
  /\ (exists later,
        log (serve (getUserActivity P req) d)
        = [FindOneByUsername (params_username req);
           Send 400 (ErrorMessageJson "Auth token not provided");
           ExtractUser (Authorization req)] ++ later
        /\ send_attempts later <> [])
  /\ rejection (getUserActivity P req) d = Some ERR_HTTP_HEADERS_SENT
  /\ db (serve (getUserActivity P req) d) = d.
Proof.
  intros P req d Hf. unfold getUserActivity. run_handler. rewrite Hf. cbn.
  destruct (extractUser P (Authorization req)) as [e|[who|]] eqn:Hx; cbn.
  - split; [reflexivity|].
    split; [eexists; split; [reflexivity|discriminate]|].
    split; [reflexivity|destruct d; reflexivity].
  - destruct (user_by_username d (params_username req)); cbn.
    + split; [reflexivity|].
      split; [eexists; split; [reflexivity|]|].
      { cbn. discriminate. }
      split; [reflexivity|destruct d; reflexivity].
    + split; [reflexivity|].
      split; [eexists; split; [reflexivity|discriminate]|].
      split; [reflexivity|destruct d; reflexivity].
  - split; [reflexivity|].
    split; [eexists; split; [reflexivity|discriminate]|].
    split; [reflexivity|destruct d; reflexivity].
Qed.

Lemma getUserActivity_without_token_witness :
  sent (serve (getUserActivity Reference.platform
                 (Reference.profile_request "alice" None))
              Reference.database)
  = response 400 (ErrorMessageJson "Auth token not provided")
  /\ (exists later,
        log (serve (getUserActivity Reference.platform
                      (Reference.profile_request "alice" None))
                   Reference.database)
        = [FindOneByUsername "alice";
           Send 400 (ErrorMessageJson "Auth token not provided");
           ExtractUser None] ++ later
        /\ send_attempts later <> [])
  /\ rejection (getUserActivity Reference.platform
                  (Reference.profile_request "alice" None))
               Reference.database
     = Some ERR_HTTP_HEADERS_SENT
  /\ db (serve (getUserActivity Reference.platform
                  (Reference.profile_request "alice" None))
               Reference.database)
     = Reference.database.
Proof.
  apply (@getUserActivity_without_token Reference.platform
           (Reference.profile_request "alice" None) Reference.database).
  reflexivity.
Defined.

(** X4: The feed of a username that resolves to no user, asked for with a valid
    token, is not answered with 404 as the mutations are: reading the id of
    the missing row throws, the answer is 500 with the text of a
    [TypeError], and no post, share or like is looked up. *)
Theorem getUserActivity_unknown_user : forall P req d who,
  authenticated P req who ->
  user_by_username d (params_username req) = None ->
  exists m,
    serve (getUserActivity P req) d
    = {| db := d;
         sent := response 500
                   (ErrorMessageJson (Error_toString (TypeError m)));
         log := [FindOneByUsername (params_username req);
                 ExtractUser (Authorization req);
                 Send 500 (ErrorMessageJson (Error_toString (TypeError m)))]
      |}
    /\ rejection (getUserActivity P req) d = None.
Proof.
  intros P req d who [Ht Hx] Hu. eexists. unfold getUserActivity.
  run_handler. rewrite Hu, Ht. cbn. rewrite Hx. cbn.
  split; reflexivity.
Qed.

Lemma getUserActivity_unknown_user_witness :
  exists m,
    serve (getUserActivity Reference.platform
             (Reference.profile_request "carol"
                (Some Reference.token_of_bob)))
          Reference.database
    = {| db := Reference.database;
         sent := response 500
                   (ErrorMessageJson (Error_toString (TypeError m)));
         log := [FindOneByUsername "carol";
                 ExtractUser (Some Reference.token_of_bob);
                 Send 500 (ErrorMessageJson (Error_toString (TypeError m)))]
      |}
    /\ rejection (getUserActivity Reference.platform
                    (Reference.profile_request "carol"
                       (Some Reference.token_of_bob)))
                 Reference.database
       = None.
Proof.
  apply (@getUserActivity_unknown_user Reference.platform
           (Reference.profile_request "carol" (Some Reference.token_of_bob))
           Reference.database {| identity_id := 2 |}).
  - split; reflexivity.
  - reflexivity.
Defined.

(** *** Tokens that are not accepted *)

(** X5: When the token service answers no identity for the token of a request,
    the feed and the two mutations answer 401 and do nothing else: the only
    calls are the lookup of the username, the decoding and the [send], the
    store is as before and the promise is fulfilled. *)
Theorem invalid_token_is_refused : forall P req d,
  falsy (Authorization req) = false ->
  extractUser P (Authorization req) = Returned None ->
  let refused :=
    {| db := d;
       sent := response 401 (ErrorMessageJson "Auth token invalid");
       log := [FindOneByUsername (params_username req);
               ExtractUser (Authorization req);
               Send 401 (ErrorMessageJson "Auth token invalid")] |} in
  (serve (getUserActivity P req) d = refused
   /\ rejection (getUserActivity P req) d = None)
  /\ (serve (modifyUserByUsername P req) d = refused
      /\ rejection (modifyUserByUsername P req) d = None)
  /\ (serve (deleteUserByUsername P req) d = refused
      /\ rejection (deleteUserByUsername P req) d = None).
Proof.
  intros P req d Ht Hx refused. subst refused.
  unfold getUserActivity, modifyUserByUsername, deleteUserByUsername.
  run_handler. rewrite Ht. cbn. rewrite Hx. cbn.
  repeat split; reflexivity.
Qed.

(** X6: When the token service throws on the token of a request, the feed and
    the two mutations answer 500: the feed with the text of the error, the
    mutations with the error itself.  Nothing is written and the promise is
    fulfilled. *)
Theorem token_error_is_answered_500 : forall P req d e,
  falsy (Authorization req) = false ->
  extractUser P (Authorization req) = Threw e ->
  (sent (serve (getUserActivity P req) d)
   = response 500 (ErrorMessageJson (Error_toString e))
   /\ db (serve (getUserActivity P req) d) = d
   /\ rejection (getUserActivity P req) d = None)
  /\ (sent (serve (modifyUserByUsername P req) d)
      = response 500 (ErrorObject e)
      /\ db (serve (modifyUserByUsername P req) d) = d
      /\ rejection (modifyUserByUsername P req) d = None)
  /\ (sent (serve (deleteUserByUsername P req) d)
      = response 500 (ErrorObject e)
      /\ db (serve (deleteUserByUsername P req) d) = d
      /\ rejection (deleteUserByUsername P req) d = None).
Proof.
  intros P req d e Ht Hx.
  unfold getUserActivity, modifyUserByUsername, deleteUserByUsername.
  run_handler. rewrite Ht. cbn. rewrite Hx. cbn.
  destruct d; repeat split; reflexivity.
Qed.

Lemma invalid_token_is_refused_witness :
  (serve (getUserActivity Reference_quiet
            (Reference.profile_request "alice" (Some "Bearer x")))
         Reference.database
   = {| db := Reference.database;
        sent := response 401 (ErrorMessageJson "Auth token invalid");
        log := [FindOneByUsername "alice"; ExtractUser (Some "Bearer x");
                Send 401 (ErrorMessageJson "Auth token invalid")] |}
   /\ rejection (getUserActivity Reference_quiet
                   (Reference.profile_request "alice" (Some "Bearer x")))
                Reference.database
      = None)
  /\ (serve (modifyUserByUsername Reference_quiet
               (Reference.profile_request "alice" (Some "Bearer x")))
            Reference.database
      = {| db := Reference.database;
           sent := response 401 (ErrorMessageJson "Auth token invalid");
           log := [FindOneByUsername "alice"; ExtractUser (Some "Bearer x");
                   Send 401 (ErrorMessageJson "Auth token invalid")] |}
      /\ rejection (modifyUserByUsername Reference_quiet
                      (Reference.profile_request "alice" (Some "Bearer x")))
                   Reference.database
         = None)
  /\ (serve (deleteUserByUsername Reference_quiet
               (Reference.profile_request "alice" (Some "Bearer x")))
            Reference.database
      = {| db := Reference.database;
           sent := response 401 (ErrorMessageJson "Auth token invalid");
           log := [FindOneByUsername "alice"; ExtractUser (Some "Bearer x");
                   Send 401 (ErrorMessageJson "Auth token invalid")] |}
      /\ rejection (deleteUserByUsername Reference_quiet
                      (Reference.profile_request "alice" (Some "Bearer x")))
                   Reference.database
         = None).
Proof.
  apply (@invalid_token_is_refused Reference_quiet
           (Reference.profile_request "alice" (Some "Bearer x"))
           Reference.database); reflexivity.
Defined.

Lemma token_error_is_answered_500_witness :
  (sent (serve (getUserActivity Reference.platform
                  (Reference.profile_request "alice" (Some "Bearer x")))
               Reference.database)
   = response 500
       (ErrorMessageJson (Error_toString (TokenError "jwt malformed")))
   /\ db (serve (getUserActivity Reference.platform
                   (Reference.profile_request "alice" (Some "Bearer x")))
                Reference.database)
      = Reference.database
   /\ rejection (getUserActivity Reference.platform
                   (Reference.profile_request "alice" (Some "Bearer x")))
                Reference.database
      = None)
  /\ (sent (serve (modifyUserByUsername Reference.platform
                     (Reference.profile_request "alice" (Some "Bearer x")))
                  Reference.database)
      = response 500 (ErrorObject (TokenError "jwt malformed"))
      /\ db (serve (modifyUserByUsername Reference.platform
                      (Reference.profile_request "alice" (Some "Bearer x")))
                   Reference.database)
         = Reference.database
      /\ rejection (modifyUserByUsername Reference.platform
                      (Reference.profile_request "alice" (Some "Bearer x")))
                   Reference.database
         = None)
  /\ (sent (serve (deleteUserByUsername Reference.platform
                     (Reference.profile_request "alice" (Some "Bearer x")))
                  Reference.database)
      = response 500 (ErrorObject (TokenError "jwt malformed"))
      /\ db (serve (deleteUserByUsername Reference.platform
                      (Reference.profile_request "alice" (Some "Bearer x")))
                   Reference.database)
         = Reference.database
      /\ rejection (deleteUserByUsername Reference.platform
                      (Reference.profile_request "alice" (Some "Bearer x")))
                   Reference.database
         = None).
Proof.
  apply (@token_error_is_answered_500 Reference.platform
           (Reference.profile_request "alice" (Some "Bearer x"))
           Reference.database (TokenError "jwt malformed")); reflexivity.
Defined.

(** *** One response for each request *)

Ltac answers_once_now :=
  split; [reflexivity|eexists; split; reflexivity].

Ltac answers_twice_now :=
  let H := fresh in
  intros [H _]; discriminate H.

(** X7: Creating a user and logging in never end in a second [send]: whatever
    the request and the store, the handler calls [res.send] once, the client
    receives that response, and the promise is fulfilled. *)
Theorem open_handlers_answer_once : forall P req d,
  answers_once (addUser P req) d /\ answers_once (authenticateUser P req) d.
Proof.
  intros P req d. unfold answers_once, addUser, authenticateUser.
  split.
  - run_handler.
    destruct (user_by_username d (body_username (body req))); cbn;
      [answers_once_now|].
    destruct (user_by_email d (body_email (body req))); cbn;
      [answers_once_now|].
    destruct (isEmail P (body_email (body req))); cbn; answers_once_now.
  - run_handler.
    destruct (user_by_email d (body_email (body req))) as [u|]; cbn;
      [|answers_once_now].
    destruct (validatePassword P (user_password u)
                               (body_password (body req)));
      cbn; answers_once_now.
Qed.

(** X8: The four handlers that ask for a token answer exactly once precisely
    when the request carries one: with a token there is one [send] and the
    promise is fulfilled, without a token the 400 is followed by a second
    [send] and the promise is rejected. *)
Theorem guarded_handlers_answer_once : forall P convertToDto req d,
  (answers_once (getUsersByUsername P convertToDto req) d
   <-> falsy (Authorization req) = false)
  /\ (answers_once (getUserActivity P req) d
      <-> falsy (Authorization req) = false)
  /\ (answers_once (modifyUserByUsername P req) d
      <-> falsy (Authorization req) = false)
  /\ (answers_once (deleteUserByUsername P req) d
      <-> falsy (Authorization req) = false).
Proof.
  intros P convertToDto req d.
  unfold answers_once.
  destruct (falsy (Authorization req)) eqn:Hf.
  - (* no token *)
    split; [|split; [|split]]; (split; [|intros C; discriminate C]).
    + run_read. rewrite Hf. cbn.
      destruct (extractUser P (Authorization req)) as [e|[who|]]; cbn;
        [answers_twice_now| |answers_twice_now].
      destruct (identity_id who =? 0); cbn; [answers_twice_now|].
      destruct (convertToDto (user_by_username d (params_username req)));
        cbn; answers_twice_now.
    + unfold getUserActivity. run_handler. rewrite Hf. cbn.
      destruct (extractUser P (Authorization req)) as [e|[who|]]; cbn;
        [answers_twice_now| |answers_twice_now].
      destruct (user_by_username d (params_username req)); cbn;
        answers_twice_now.
    + unfold modifyUserByUsername. run_handler. rewrite Hf. cbn.
      destruct (extractUser P (Authorization req)) as [e|[who|]]; cbn;
        [answers_twice_now| |answers_twice_now].
      destruct (user_by_username d (params_username req)); cbn;
        answers_twice_now.
    + unfold deleteUserByUsername. run_handler. rewrite Hf. cbn.
      destruct (extractUser P (Authorization req)) as [e|[who|]]; cbn;
        [answers_twice_now| |answers_twice_now].
      destruct (user_by_username d (params_username req)); cbn;
        [|answers_twice_now].
      destruct (length (users d)
                - length (rows_kept d (params_username req)) =? 0);
        run_handler; answers_twice_now.
  - (* a token *)
    split; [|split; [|split]]; (split; [intros _; reflexivity|intros _]).
    + run_read. rewrite Hf. cbn.
      destruct (extractUser P (Authorization req)) as [e|[who|]]; cbn;
        [answers_once_now| |answers_once_now].
      destruct (identity_id who =? 0); cbn; [answers_once_now|].
      destruct (convertToDto (user_by_username d (params_username req)));
        cbn; answers_once_now.
    + unfold getUserActivity. run_handler. rewrite Hf. cbn.
      destruct (extractUser P (Authorization req)) as [e|[who|]]; cbn;
        [answers_once_now| |answers_once_now].
      destruct (user_by_username d (params_username req)); cbn;
        answers_once_now.
    + unfold modifyUserByUsername. run_handler. rewrite Hf. cbn.
      destruct (extractUser P (Authorization req)) as [e|[who|]]; cbn;
        [answers_once_now| |answers_once_now].
      destruct (user_by_username d (params_username req)); cbn;
        answers_once_now.
    + unfold deleteUserByUsername. run_handler. rewrite Hf. cbn.
      destruct (extractUser P (Authorization req)) as [e|[who|]]; cbn;
        [answers_once_now| |answers_once_now].
      destruct (user_by_username d (params_username req)); cbn;
        [|answers_once_now].
      destruct (length (users d)
                - length (rows_kept d (params_username req)) =? 0);
        run_handler; answers_once_now.
Qed.

(** *** What the handlers leave in the store *)

Lemma authenticateUser_store : forall P req d,
  db (serve (authenticateUser P req) d) = d
  /\ write_calls (log (serve (authenticateUser P req) d)) = [].
Proof.
  intros P req d. unfold authenticateUser. run_handler.
  destruct (user_by_email d (body_email (body req))) as [u|]; cbn.
  - destruct (validatePassword P (user_password u)
                               (body_password (body req)));
      cbn; destruct d; split; reflexivity.
  - destruct d; split; reflexivity.
Qed.

Lemma getUserActivity_store : forall P req d,
  db (serve (getUserActivity P req) d) = d
  /\ write_calls (log (serve (getUserActivity P req) d)) = [].
Proof.
  intros P req d. unfold getUserActivity. run_handler.
  destruct (falsy (Authorization req)); cbn;
    (destruct (extractUser P (Authorization req)) as [e|[who|]]; cbn;
     [destruct d; split; reflexivity
     |destruct (user_by_username d (params_username req)); cbn;
      destruct d; split; reflexivity
     |destruct d; split; reflexivity]).
Qed.

Lemma getUsersByUsername_store : forall P convertToDto req d,
  db (serve (getUsersByUsername P convertToDto req) d) = d
  /\ write_calls (log (serve (getUsersByUsername P convertToDto req) d))
     = [].
Proof.
  intros P convertToDto req d. run_read.
  destruct (falsy (Authorization req)); cbn;
    (destruct (extractUser P (Authorization req)) as [e|[who|]]; cbn;
     [destruct d; split; reflexivity
     |destruct (identity_id who =? 0); cbn;
      [destruct d; split; reflexivity
      |destruct (convertToDto
                   (user_by_username d (params_username req))); cbn;
       destruct d; split; reflexivity]
     |destruct d; split; reflexivity]).
Qed.

Lemma modifyUserByUsername_store : forall P req d,
  db (serve (modifyUserByUsername P req) d) = d
  /\ write_calls (log (serve (modifyUserByUsername P req) d)) = [].
Proof.
  intros P req d. unfold modifyUserByUsername. run_handler.
  destruct (falsy (Authorization req)); cbn;
    (destruct (extractUser P (Authorization req)) as [e|[who|]]; cbn;
     [destruct d; split; reflexivity
     |destruct (user_by_username d (params_username req)); cbn;
      destruct d; split; reflexivity
     |destruct d; split; reflexivity]).
Qed.

(** X9: Logging in, the profile read, the activity feed and the update never
    write: whatever the request, the platform and the store, the store is
    afterwards what it was before, and the handler made no call of
    [create], [update] or [destroy]. *)
Theorem handlers_that_never_write : forall P convertToDto req d,
  (db (serve (authenticateUser P req) d) = d
   /\ write_calls (log (serve (authenticateUser P req) d)) = [])
  /\ (db (serve (getUsersByUsername P convertToDto req) d) = d
      /\ write_calls (log (serve (getUsersByUsername P convertToDto req) d))
         = [])
  /\ (db (serve (getUserActivity P req) d) = d
      /\ write_calls (log (serve (getUserActivity P req) d)) = [])
  /\ (db (serve (modifyUserByUsername P req) d) = d
      /\ write_calls (log (serve (modifyUserByUsername P req) d)) = []).
Proof.
  intros P convertToDto req d.
  split; [apply authenticateUser_store|].
  split; [apply getUsersByUsername_store|].
  split; [apply getUserActivity_store|apply modifyUserByUsername_store].
Qed.

(** X10: The update never reports success: for every request the client receives
    400, 401, 404 or 500, never the 200 of ["The profile has been
    updated."], and never the 500 of ["Failed to update the profile."]
    either. *)
Theorem modifyUserByUsername_never_succeeds : forall P req d,
  exists code p,
    sent (serve (modifyUserByUsername P req) d) = response code p
    /\ In code [400; 401; 404; 500]
    /\ p <> Text "The profile has been updated."
    /\ p <> Text "Failed to update the profile.".
Proof.
  intros P req d. unfold modifyUserByUsername. run_handler.
  destruct (falsy (Authorization req)); cbn.
  - exists 400, (ErrorMessageJson "Auth token not provided").
    split.
    + destruct (extractUser P (Authorization req)) as [e|[who|]]; cbn;
        [reflexivity| |reflexivity].
      destruct (user_by_username d (params_username req)); reflexivity.
    + split; [cbn; tauto|]. split; discriminate.
  - destruct (extractUser P (Authorization req)) as [e|[who|]]; cbn.
    + exists 500, (ErrorObject e). split; [reflexivity|].
      split; [cbn; tauto|]. split; discriminate.
    + destruct (user_by_username d (params_username req)); cbn.
      * eexists 500, _. split; [reflexivity|].
        split; [cbn; tauto|]. split; discriminate.
      * exists 404, (Text "Invalid username."). split; [reflexivity|].
        split; [cbn; tauto|]. split; discriminate.
    + exists 401, (ErrorMessageJson "Auth token invalid").
      split; [reflexivity|]. split; [cbn; tauto|]. split; discriminate.
Qed.

(** X11: An update of a username that resolves to no user, sent with a valid
    token, is answered with 404 ["Invalid username."]; the handler does
    nothing but look the username up, decode the token and answer. *)
Theorem modifyUserByUsername_unknown_user : forall P req d who,
  authenticated P req who ->
  user_by_username d (params_username req) = None ->
  serve (modifyUserByUsername P req) d
  = {| db := d;
       sent := response 404 (Text "Invalid username.");
       log := [FindOneByUsername (params_username req);
               ExtractUser (Authorization req);
               Send 404 (Text "Invalid username.")] |}
  /\ rejection (modifyUserByUsername P req) d = None.
Proof.
  intros P req d who [Ht Hx] Hu. unfold modifyUserByUsername. run_handler.
  rewrite Hu, Ht. cbn. rewrite Hx. cbn. split; reflexivity.
Qed.

Lemma modifyUserByUsername_unknown_user_witness :
  serve (modifyUserByUsername Reference.platform
           (Reference.profile_request "carol"
              (Some Reference.token_of_bob)))
        Reference.database
  = {| db := Reference.database;
       sent := response 404 (Text "Invalid username.");
       log := [FindOneByUsername "carol";
               ExtractUser (Some Reference.token_of_bob);
               Send 404 (Text "Invalid username.")] |}
  /\ rejection (modifyUserByUsername Reference.platform
                  (Reference.profile_request "carol"
                     (Some Reference.token_of_bob)))
               Reference.database
     = None.
Proof.
  apply (@modifyUserByUsername_unknown_user Reference.platform
           (Reference.profile_request "carol" (Some Reference.token_of_bob))
           Reference.database {| identity_id := 2 |}).
  - split; reflexivity.
  - reflexivity.
Defined.

Ltac none_of_them := cbn; repeat constructor; discriminate.

(** X12: The delete handler never sends ["Failed to destroy the user."]: it
    calls [destroy] only after a row with the username was found, and then
    [destroy] removes at least that row. *)
Theorem deleteUserByUsername_never_fails_to_destroy : forall P req d,
  Forall (fun r => payload r <> Text "Failed to destroy the user.")
         (send_attempts (log (serve (deleteUserByUsername P req) d))).
Proof.
  intros P req d. unfold deleteUserByUsername. run_handler.
  destruct (falsy (Authorization req)); cbn;
    (destruct (extractUser P (Authorization req)) as [e|[who|]]; cbn;
     [none_of_them| |none_of_them];
     destruct (user_by_username d (params_username req)) as [u|] eqn:Hu;
     cbn; [|none_of_them];
     pose proof (rows_removed_positive _ _ Hu) as Hpos;
     unfold rows_removed in Hpos;
     destruct (length (users d)
               - length (rows_kept d (params_username req)) =? 0) eqn:Z;
     [apply Nat.eqb_eq in Z; lia|];
     run_handler; none_of_them).
Qed.

(** *** Unique usernames and e-mail addresses *)

Lemma find_none_not_in_map : forall (f : User -> string) key l,
  find (fun u => String.eqb (f u) key) l = None -> ~ In key (map f l).
Proof.
  intros f key l. induction l as [|a l IH]; cbn; [tauto|].
  destruct (String.eqb_spec (f a) key) as [E|E]; [discriminate|].
  intros H [C|C]; [contradiction|]. apply (IH H C).
Qed.

Lemma find_snoc : forall (A : Type) (f : A -> bool) l x,
  find f (l ++ [x])
  = match find f l with
    | Some y => Some y
    | None => if f x then Some x else None
    end.
Proof.
  intros A f l x. induction l as [|a l IH]; cbn; [reflexivity|].
  destruct (f a); [reflexivity|exact IH].
Qed.



Lemma NoDup_map_eq : forall (A B : Type) (f : A -> B) l a b,
  NoDup (map f l) -> In a l -> In b l -> f a = f b -> a = b.
Proof.
  intros A B f l a b. induction l as [|x l IH]; cbn; intros Hn Ha Hb E;
    [contradiction|].
  inversion Hn as [|? ? Hx Hl]; subst.
  destruct Ha as [->|Ha]; destruct Hb as [->|Hb]; [reflexivity| | |auto].
  - exfalso. apply Hx. rewrite E. apply in_map. exact Hb.
  - exfalso. apply Hx. rewrite <- E. apply in_map. exact Ha.
Qed.

(** What [addUser] leaves behind: either the store as it was, or one more
    row, for a username and an e-mail address that were both free. *)
Lemma addUser_store : forall P req d,
  (db (serve (addUser P req) d) = d
   /\ forall message authToken,
        sent (serve (addUser P req) d)
        <> response 201 (TokenJson message authToken))
  \/ (user_by_username d (body_username (body req)) = None
      /\ user_by_email d (body_email (body req)) = None
      /\ isEmail P (body_email (body req)) = true
      /\ db (serve (addUser P req) d)
         = with_users d (users d ++ [created_row P d (body req)])
                      (S (next_user_id d))
      /\ sent (serve (addUser P req) d)
         = response 201
             (TokenJson "User successfully created"
                (generateAuthToken P (created_row P d (body req))))).
Proof.
  intros P req d. unfold addUser. run_handler.
  destruct (user_by_username d (body_username (body req))); cbn.
  { left. split; [destruct d; reflexivity|discriminate]. }
  destruct (user_by_email d (body_email (body req))); cbn.
  { left. split; [destruct d; reflexivity|discriminate]. }
  destruct (isEmail P (body_email (body req))); cbn.
  - right. repeat split; reflexivity.
  - left. split; [destruct d; reflexivity|discriminate].
Qed.




(** *** One request after another *)

(** X14: A user who was created can log in: when [addUser] answered 201 with a
    token, a login on the resulting store with the e-mail address and the
    password of that request is answered with 200 and a token, and both
    tokens decode to the id of the row that was created, provided that a
    password verifies against its own digest and that a token decodes to
    the user it was issued for.  Nothing is said on whether the two tokens
    are the same string. *)
Theorem addUser_then_authenticateUser : forall P req login d authToken,
  password_round_trip P ->
  token_round_trip P ->
  sent (serve (addUser P req) d)
  = response 201 (TokenJson "User successfully created" authToken) ->
  body_email (body login) = body_email (body req) ->
  body_password (body login) = body_password (body req) ->
  exists loginToken who who',
    sent (serve (authenticateUser P login) (db (serve (addUser P req) d)))
    = response 200 (TokenJson "Authentication successful" loginToken)
    /\ extractUser P (Some (String.append "Bearer " loginToken))
       = Returned (Some who)
    /\ identity_id who = user_id (created_row P d (body req))
    /\ extractUser P (Some (String.append "Bearer " authToken))
       = Returned (Some who')
    /\ identity_id who' = user_id (created_row P d (body req))
    /\ In (created_row P d (body req))
          (users (db (serve (addUser P req) d))).
Proof.
  intros P req login d authToken Hpw Hrt H201 Hmail Hpass.
  destruct (addUser_store P req d) as [[_ C]|(Fu & Fe & Hv & E & S)].
  { exfalso. apply (C _ _ H201). }
  rewrite S in H201. inversion H201 as [Htok]. clear H201.
  destruct (Hrt (created_row P d (body req))) as (who & Hx & Hid).
  exists (generateAuthToken P (created_row P d (body req))), who, who.
  rewrite E. split.
  - unfold authenticateUser. run_handler.
    unfold user_by_email in *. cbn [users with_users].
    rewrite find_snoc, Hmail, Fe. cbn. rewrite String.eqb_refl. cbn.
    rewrite Hpass, Hpw. cbn. reflexivity.
  - split; [exact Hx|]. split; [exact Hid|].
    split; [exact Hx|]. split; [exact Hid|].
    cbn [users with_users]. apply in_or_app. right. left. reflexivity.
Qed.

Lemma addUser_then_authenticateUser_witness :
  exists loginToken who who',
    sent (serve (authenticateUser Reference.platform
                   (Reference.login_request "carol@updog.nz" "pw"))
                (db (serve (addUser Reference.platform
                              (Reference.create_request "carol"
                                                        "carol@updog.nz"))
                           Reference.database)))
    = response 200 (TokenJson "Authentication successful" loginToken)
    /\ extractUser Reference.platform
         (Some (String.append "Bearer " loginToken))
       = Returned (Some who)
    /\ identity_id who
       = user_id (created_row Reference.platform Reference.database
                    (body (Reference.create_request "carol"
                                                    "carol@updog.nz")))
    /\ extractUser Reference.platform (Some (String.append "Bearer " "III"))
       = Returned (Some who')
    /\ identity_id who'
       = user_id (created_row Reference.platform Reference.database
                    (body (Reference.create_request "carol"
                                                    "carol@updog.nz")))
    /\ In (created_row Reference.platform Reference.database
             (body (Reference.create_request "carol" "carol@updog.nz")))
          (users (db (serve (addUser Reference.platform
                               (Reference.create_request "carol"
                                                         "carol@updog.nz"))
                            Reference.database))).
Proof.
  apply (@addUser_then_authenticateUser Reference.platform
           (Reference.create_request "carol" "carol@updog.nz")
           (Reference.login_request "carol@updog.nz" "pw")
           Reference.database "III").
  - intros password. unfold Reference.platform, Reference.verify. cbn.
    apply String.eqb_refl.
  - exact reference_round_trip.
  - reflexivity.
  - reflexivity.
  - reflexivity.
Defined.

(** X15: After [addUser] answered 201, the username and the e-mail address are
    taken: a second request with the same username is answered with 409
    ["Username already taken"], one with another, free username and the
    same e-mail address with 409 ["Email has already been taken"], and
    neither writes a row. *)
Theorem addUser_twice : forall P req again d authToken,
  sent (serve (addUser P req) d)
  = response 201 (TokenJson "User successfully created" authToken) ->
  (body_username (body again) = body_username (body req) ->
   sent (serve (addUser P again) (db (serve (addUser P req) d)))
   = response 409 (ErrorJson "Username already taken")
   /\ db (serve (addUser P again) (db (serve (addUser P req) d)))
      = db (serve (addUser P req) d))
  /\ (body_username (body again) <> body_username (body req) ->
      user_by_username d (body_username (body again)) = None ->
      body_email (body again) = body_email (body req) ->
      sent (serve (addUser P again) (db (serve (addUser P req) d)))
      = response 409 (ErrorJson "Email has already been taken")
      /\ db (serve (addUser P again) (db (serve (addUser P req) d)))
         = db (serve (addUser P req) d)).
Proof.
  intros P req again d authToken H201.
  destruct (addUser_store P req d) as [[_ C]|(Fu & Fe & Hv & E & S)].
  { exfalso. apply (C _ _ H201). }
  rewrite E. split.
  - intros Hname. unfold addUser. run_handler.
    unfold user_by_username in *. cbn [users with_users].
    rewrite find_snoc, Hname, Fu. cbn. rewrite String.eqb_refl. cbn.
    split; reflexivity.
  - intros Hname Hfree Hmail. unfold addUser. run_handler.
    unfold user_by_username, user_by_email in *. cbn [users with_users].
    rewrite find_snoc, Hfree. cbn.
    apply String.eqb_neq in Hname. rewrite String.eqb_sym, Hname. cbn.
    rewrite find_snoc, Hmail, Fe. cbn.
    rewrite String.eqb_refl. cbn. split; reflexivity.
Qed.

Lemma addUser_twice_witness :
  (sent (serve (addUser Reference.platform
                  (Reference.create_request "carol" "other@updog.nz"))
               (db (serve (addUser Reference.platform
                             (Reference.create_request "carol"
                                                       "carol@updog.nz"))
                          Reference.database)))
   = response 409 (ErrorJson "Username already taken")
   /\ db (serve (addUser Reference.platform
                   (Reference.create_request "carol" "other@updog.nz"))
                (db (serve (addUser Reference.platform
                              (Reference.create_request "carol"
                                                        "carol@updog.nz"))
                           Reference.database)))
      = db (serve (addUser Reference.platform
                     (Reference.create_request "carol" "carol@updog.nz"))
                  Reference.database))
  /\ (sent (serve (addUser Reference.platform
                     (Reference.create_request "dave" "carol@updog.nz"))
                  (db (serve (addUser Reference.platform
                                (Reference.create_request "carol"
                                                          "carol@updog.nz"))
                             Reference.database)))
      = response 409 (ErrorJson "Email has already been taken")
      /\ db (serve (addUser Reference.platform
                      (Reference.create_request "dave" "carol@updog.nz"))
                   (db (serve (addUser Reference.platform
                                 (Reference.create_request "carol"
                                                           "carol@updog.nz"))
                              Reference.database)))
         = db (serve (addUser Reference.platform
                        (Reference.create_request "carol" "carol@updog.nz"))
                     Reference.database)).
Proof.
  split.
  - apply (proj1 (@addUser_twice Reference.platform
                    (Reference.create_request "carol" "carol@updog.nz")
                    (Reference.create_request "carol" "other@updog.nz")
                    Reference.database "III" eq_refl)).
    reflexivity.
  - apply (proj2 (@addUser_twice Reference.platform
                    (Reference.create_request "carol" "carol@updog.nz")
                    (Reference.create_request "dave" "carol@updog.nz")
                    Reference.database "III" eq_refl)).
    + cbn. discriminate.
    + reflexivity.
    + reflexivity.
Defined.

Lemma find_filter_other : forall name other l,
  other <> name ->
  find (fun u => String.eqb (user_username u) other)
       (filter (fun u => negb (String.eqb (user_username u) name)) l)
  = find (fun u => String.eqb (user_username u) other) l.
Proof.
  intros name other l Hne. induction l as [|a l IH]; cbn; [reflexivity|].
  destruct (String.eqb_spec (user_username a) name) as [E|E]; cbn.
  - destruct (String.eqb_spec (user_username a) other) as [E'|E'];
      [congruence|exact IH].
  - rewrite IH. reflexivity.
Qed.

Lemma find_filter_same : forall name l,
  find (fun u => String.eqb (user_username u) name)
       (filter (fun u => negb (String.eqb (user_username u) name)) l)
  = None.
Proof.
  intros name l. induction l as [|a l IH]; cbn; [reflexivity|].
  destruct (String.eqb (user_username a) name) eqn:E; cbn; [exact IH|].
  rewrite E. exact IH.
Qed.

Lemma filter_all : forall (A : Type) (f : A -> bool) l,
  (forall x, In x l -> f x = true) -> filter f l = l.
Proof.
  intros A f l. induction l as [|a l IH]; intros H; cbn; [reflexivity|].
  rewrite (H a (or_introl eq_refl)). f_equal. apply IH.
  intros x Hx. apply H. right. exact Hx.
Qed.

(** X16: After a user was deleted, the username resolves to no user and the
    rows of the other usernames are found as before; a second delete of the
    same username is answered with 404 and changes nothing; and, when
    e-mail addresses are unique, a login with the e-mail address of the
    deleted user is answered with 401. *)
Theorem deleteUserByUsername_then : forall P req d who u,
  authenticated P req who ->
  user_by_username d (params_username req) = Some u ->
  user_by_username (db (serve (deleteUserByUsername P req) d))
                   (params_username req) = None
  /\ (forall other,
        other <> params_username req ->
        user_by_username (db (serve (deleteUserByUsername P req) d)) other
        = user_by_username d other)
  /\ sent (serve (deleteUserByUsername P req)
                 (db (serve (deleteUserByUsername P req) d)))
     = response 404 (Text "Invalid username.")
  /\ db (serve (deleteUserByUsername P req)
               (db (serve (deleteUserByUsername P req) d)))
     = db (serve (deleteUserByUsername P req) d)
  /\ (unique_emails d ->
      forall login,
        body_email (body login) = user_email u ->
        sent (serve (authenticateUser P login)
                    (db (serve (deleteUserByUsername P req) d)))
        = response 401 (ErrorJson "Incorrect email or password")).
Proof.
  intros P req d who u A Hu.
  destruct (delete_authenticated d A Hu) as [E _].
  assert (Gone : user_by_username
                   (db (serve (deleteUserByUsername P req) d))
                   (params_username req) = None).
  { rewrite E. unfold user_by_username, rows_kept. cbn [users with_users].
    apply find_filter_same. }
  split; [exact Gone|]. split.
  { intros other Hne. rewrite E. unfold user_by_username, rows_kept.
    cbn [users with_users]. apply find_filter_other. exact Hne. }
  destruct (delete_authenticated_unknown
              (db (serve (deleteUserByUsername P req) d)) A Gone)
    as [S404 Same].
  split; [exact S404|]. split; [exact Same|].
  intros Hun login Hmail.
  assert (Free : user_by_email (db (serve (deleteUserByUsername P req) d))
                               (body_email (body login)) = None).
  { rewrite E. unfold user_by_email. cbn [users with_users].
    destruct (find _ (rows_kept d (params_username req))) as [v|] eqn:F;
      [exfalso|reflexivity].
    apply find_some in F. destruct F as [Hv Ev].
    apply String.eqb_eq in Ev. apply rows_kept_spec in Hv.
    destruct Hv as [Hin Hname].
    apply user_by_username_In in Hu. destruct Hu as [Hin' Hname'].
    assert (v = u).
    { apply (NoDup_map_eq user_email (users d)); auto. congruence. }
    subst v. contradiction. }
  revert Free.
  generalize (db (serve (deleteUserByUsername P req) d)). intros d' Free.
  unfold authenticateUser. run_handler. rewrite Free. reflexivity.
Qed.

Lemma deleteUserByUsername_then_witness :
  user_by_username
    (db (serve (deleteUserByUsername Reference.platform
                  (Reference.profile_request "alice"
                     (Some Reference.token_of_bob)))
               Reference.database))
    "alice" = None
  /\ user_by_username
       (db (serve (deleteUserByUsername Reference.platform
                     (Reference.profile_request "alice"
                        (Some Reference.token_of_bob)))
                  Reference.database))
       "bob" = Some Reference.bob
  /\ sent (serve (deleteUserByUsername Reference.platform
                    (Reference.profile_request "alice"
                       (Some Reference.token_of_bob)))
                 (db (serve (deleteUserByUsername Reference.platform
                               (Reference.profile_request "alice"
                                  (Some Reference.token_of_bob)))
                            Reference.database)))
     = response 404 (Text "Invalid username.")
  /\ sent (serve (authenticateUser Reference.platform
                    (Reference.login_request "alice@updog.nz" "wonderland"))
                 (db (serve (deleteUserByUsername Reference.platform
                               (Reference.profile_request "alice"
                                  (Some Reference.token_of_bob)))
                            Reference.database)))
     = response 401 (ErrorJson "Incorrect email or password").
Proof.
  assert (A : authenticated Reference.platform
                (Reference.profile_request "alice"
                   (Some Reference.token_of_bob))
                {| identity_id := 2 |}).
  { split; reflexivity. }
  assert (Hu : user_by_username Reference.database
                 (params_username
                    (Reference.profile_request "alice"
                       (Some Reference.token_of_bob)))
               = Some Reference.alice).
  { reflexivity. }
  pose proof (@deleteUserByUsername_then Reference.platform
                (Reference.profile_request "alice"
                   (Some Reference.token_of_bob))
                Reference.database {| identity_id := 2 |} Reference.alice
                A Hu) as (T1 & T2 & T3 & _ & T5).
  split; [exact T1|]. split.
  { rewrite (T2 "bob"); [reflexivity|]. cbn. discriminate. }
  split; [exact T3|].
  apply T5; [|reflexivity].
  unfold unique_emails. cbn. repeat constructor; cbn; intuition discriminate.
Defined.

(** X17: Creating a user and deleting them again gives back the rows the store
    had: when [addUser] answered 201, a delete of that username with a valid
    token is answered with 200 and leaves exactly the rows of before. *)
Theorem addUser_then_deleteUserByUsername : forall P req del d authToken who,
  sent (serve (addUser P req) d)
  = response 201 (TokenJson "User successfully created" authToken) ->
  authenticated P del who ->
  params_username del = body_username (body req) ->
  sent (serve (deleteUserByUsername P del) (db (serve (addUser P req) d)))
  = response 200 (Text "The user has been deleted.")
  /\ users (db (serve (deleteUserByUsername P del)
                      (db (serve (addUser P req) d))))
     = users d.
Proof.
  intros P req del d authToken who H201 A Hname.
  destruct (addUser_store P req d) as [[_ C]|(Fu & Fe & Hv & E & S)].
  { exfalso. apply (C _ _ H201). }
  assert (Hu : user_by_username (db (serve (addUser P req) d))
                                (params_username del)
               = Some (created_row P d (body req))).
  { rewrite E. unfold user_by_username in *. cbn [users with_users].
    rewrite find_snoc, Hname, Fu. cbn. rewrite String.eqb_refl.
    reflexivity. }
  destruct (delete_authenticated _ A Hu) as [Ed Sd].
  rewrite (delete_answer _ _ Hu) in Sd.
  split; [exact Sd|].
  rewrite Ed, E. unfold rows_kept. cbn [users with_users].
  rewrite filter_app. cbn. rewrite Hname, String.eqb_refl. cbn.
  rewrite app_nil_r. apply filter_all.
  intros x Hx. apply negb_true_iff. apply String.eqb_neq. intros Ex.
  apply (find_none_not_in_map user_username _ _ Fu).
  rewrite <- Ex. apply in_map. exact Hx.
Qed.

Lemma addUser_then_deleteUserByUsername_witness :
  sent (serve (deleteUserByUsername Reference.platform
                 (Reference.profile_request "carol"
                    (Some Reference.token_of_bob)))
              (db (serve (addUser Reference.platform
                            (Reference.create_request "carol"
                                                      "carol@updog.nz"))
                         Reference.database)))
  = response 200 (Text "The user has been deleted.")
  /\ users (db (serve (deleteUserByUsername Reference.platform
                         (Reference.profile_request "carol"
                            (Some Reference.token_of_bob)))
                      (db (serve (addUser Reference.platform
                                    (Reference.create_request
                                       "carol" "carol@updog.nz"))
                                 Reference.database))))
     = users Reference.database.
Proof.
  apply (@addUser_then_deleteUserByUsername Reference.platform
           (Reference.create_request "carol" "carol@updog.nz")
           (Reference.profile_request "carol" (Some Reference.token_of_bob))
           Reference.database "III" {| identity_id := 2 |}).
  - reflexivity.
  - split; reflexivity.
  - reflexivity.
Defined.

(** *** The feed when no two timestamps are equal *)

Lemma sorted_permutation_unique :
  forall (A : Type) (R : A -> A -> Prop) (l1 l2 : list A),
    (forall a b, In a l1 -> In b l1 -> R a b -> R b a -> a = b) ->
    StronglySorted R l1 -> StronglySorted R l2 -> Permutation l1 l2 ->
    l1 = l2.
Proof.
  intros A R l1. induction l1 as [|a l1 IH]; intros l2 Anti S1 S2 Hp.
  - apply Permutation_nil in Hp. symmetry. exact Hp.
  - destruct l2 as [|b l2].
    { apply Permutation_sym, Permutation_nil in Hp. discriminate Hp. }
    inversion S1 as [|? ? S1' F1]; subst.
    inversion S2 as [|? ? S2' F2]; subst.
    rewrite Forall_forall in F1, F2.
    assert (E : a = b).
    { assert (Ha : In a (b :: l2)).
      { apply (Permutation_in _ Hp). left. reflexivity. }
      assert (Hb : In b (a :: l1)).
      { apply (Permutation_in _ (Permutation_sym Hp)). left. reflexivity. }
      destruct Ha as [Ha|Ha]; [symmetry; exact Ha|].
      destruct Hb as [Hb|Hb]; [exact Hb|].
      apply Anti; [left; reflexivity|right; exact Hb|apply F1; exact Hb
                  |apply F2; exact Ha]. }
    subst b. f_equal. apply IH; [|exact S1'|exact S2'|].
    + intros x y Hx Hy. apply Anti; right; assumption.
    + apply (Permutation_cons_inv Hp).
Qed.

Lemma strictly_descending_before : forall l,
  strictly_descending l ->
  StronglySorted (ArraySortNotions.before activity_comparefn) l.
Proof.
  unfold strictly_descending. intros l H.
  induction H as [|a l Hs IH F]; constructor; [exact IH|].
  rewrite Forall_forall in *. intros x Hx. apply activity_before.
  specialize (F x Hx). lia.
Qed.

Lemma strictly_descending_distinct : forall l a b,
  strictly_descending l -> In a l -> In b l ->
  timestamp a = timestamp b -> a = b.
Proof.
  unfold strictly_descending. intros l a b H.
  induction H as [|x l Hs IH F]; cbn; [tauto|].
  rewrite Forall_forall in F.
  intros [->|Ha] [->|Hb] E; [reflexivity| | |auto].
  - specialize (F b Hb). lia.
  - specialize (F a Ha). lia.
Qed.

(** X18: When no two entries of a feed have the same timestamp, the feed is the
    one arrangement of the entries in which the timestamps strictly
    decrease, whatever order the store gave the rows in; a feed that is
    gathered in that order already is sent as it is. *)
Theorem getUserActivity_distinct_timestamps : forall P req d who u feed,
  authenticated P req who ->
  user_by_username d (params_username req) = Some u ->
  Permutation feed (concatenation d u) ->
  strictly_descending feed ->
  sent (serve (getUserActivity P req) d) = response 200 (ActivityJson feed).
Proof.
  intros P req d who u feed A Hu Hp Hd.
  rewrite (getUserActivity_feed d A Hu). do 2 f_equal.
  destruct (sort_activity (concatenation d u)) as [Hs Hperm].
  symmetry.
  apply (@sorted_permutation_unique _
           (ArraySortNotions.before activity_comparefn)).
  - intros a b Ha Hb Rab Rba. apply activity_before in Rab, Rba.
    eapply strictly_descending_distinct; [exact Hd|exact Ha|exact Hb|lia].
  - apply strictly_descending_before. exact Hd.
  - exact Hs.
  - apply (Permutation_trans Hp). apply Permutation_sym. exact Hperm.
Qed.

Lemma getUserActivity_distinct_timestamps_witness :
  sent (serve (getUserActivity Reference.platform
                 (Reference.profile_request "bob"
                    (Some Reference.token_of_alice)))
              Reference.database)
  = response 200
      (ActivityJson [ {| activity := POSTED; postID := 30;
                         timestamp := 4500 |};
                      {| activity := POSTED; postID := 20;
                         timestamp := 4000 |} ]).
Proof.
  apply (@getUserActivity_distinct_timestamps Reference.platform
           (Reference.profile_request "bob" (Some Reference.token_of_alice))
           Reference.database {| identity_id := 1 |} Reference.bob).
  - split; reflexivity.
  - reflexivity.
  - cbn. apply perm_swap.
  - unfold strictly_descending. repeat constructor.
Defined.

(** X19: When all the entries of a feed have the same timestamp, the feed
    comes in the reverse of the order in which it was gathered: the SHARED
    entries first, then the LIKED entries, then the POSTED entries, and
    each of the three groups with its last row first. *)
Theorem getUserActivity_ties_reversed : forall P req d who u,
  authenticated P req who ->
  user_by_username d (params_username req) = Some u ->
  (forall a b, In a (concatenation d u) -> In b (concatenation d u) ->
               timestamp a = timestamp b) ->
  sent (serve (getUserActivity P req) d)
  = response 200
      (ActivityJson (rev (shared_entries d u) ++ rev (liked_entries d u)
                     ++ rev (posted_entries d u))).
Proof.
  intros P req d who u A Hu Hties.
  rewrite (getUserActivity_all_ties d A Hu Hties).
  unfold concatenation. rewrite !rev_app_distr, app_assoc. reflexivity.
Qed.

Lemma getUserActivity_ties_reversed_witness :
  sent (serve (getUserActivity Reference.platform
                 (Reference.profile_request "alice"
                    (Some Reference.token_of_bob)))
              Reference_ties)
  = response 200
      (ActivityJson
         [ {| activity := SHARED; postID := 30; timestamp := 5000 |};
           {| activity := LIKED; postID := 20; timestamp := 5000 |};
           {| activity := POSTED; postID := 11; timestamp := 5000 |};
           {| activity := POSTED; postID := 10; timestamp := 5000 |} ]).
Proof.
  apply (@getUserActivity_ties_reversed Reference.platform
           (Reference.profile_request "alice" (Some Reference.token_of_bob))
           Reference_ties {| identity_id := 2 |} Reference.alice).
  - split; reflexivity.
  - reflexivity.
  - cbn. intros a b Ha Hb.
    repeat (destruct Ha as [Ha|Ha]; [subst a|]); try contradiction;
      repeat (destruct Hb as [Hb|Hb]; [subst b|]); try contradiction;
      reflexivity.
Defined.

(** *** Who may read *)

(** X20: The feed and the profile are served to any authenticated identity: for
    two requests on the same username whose tokens decode to two
    identities, the feed that is sent is the same, and so is the answer of
    the profile read when both identities have an id. *)
Theorem reads_ignore_identity : forall P convertToDto req1 req2 d who1 who2,
  params_username req1 = params_username req2 ->
  authenticated P req1 who1 ->
  authenticated P req2 who2 ->
  sent (serve (getUserActivity P req1) d)
  = sent (serve (getUserActivity P req2) d)
  /\ (identity_id who1 <> 0 -> identity_id who2 <> 0 ->
      sent (serve (getUsersByUsername P convertToDto req1) d)
      = sent (serve (getUsersByUsername P convertToDto req2) d)).
Proof.
  intros P convertToDto req1 req2 d who1 who2 Hname [Ht1 Hx1] [Ht2 Hx2].
  split.
  - unfold getUserActivity. run_handler.
    rewrite Ht1, Ht2. cbn. rewrite Hx1, Hx2. cbn. rewrite Hname.
    destruct (user_by_username d (params_username req2)); reflexivity.
  - intros H1 H2. apply Nat.eqb_neq in H1, H2. run_read.
    rewrite Ht1, Ht2. cbn. rewrite Hx1, Hx2. cbn. rewrite H1, H2, Hname.
    cbn.
    destruct (convertToDto (user_by_username d (params_username req2)));
      reflexivity.
Qed.

Lemma reads_ignore_identity_witness :
  sent (serve (getUserActivity Reference.platform
                 (Reference.profile_request "alice"
                    (Some Reference.token_of_alice)))
              Reference.database)
  = sent (serve (getUserActivity Reference.platform
                   (Reference.profile_request "alice"
                      (Some Reference.token_of_bob)))
                Reference.database)
  /\ sent (serve (getUsersByUsername Reference.platform
                    Reference_convertToDto
                    (Reference.profile_request "alice"
                       (Some Reference.token_of_alice)))
                 Reference.database)
     = sent (serve (getUsersByUsername Reference.platform
                      Reference_convertToDto
                      (Reference.profile_request "alice"
                         (Some Reference.token_of_bob)))
                   Reference.database).
Proof.
  destruct (@reads_ignore_identity Reference.platform
              Reference_convertToDto
              (Reference.profile_request "alice"
                 (Some Reference.token_of_alice))
              (Reference.profile_request "alice"
                 (Some Reference.token_of_bob))
              Reference.database
              {| identity_id := 1 |} {| identity_id := 2 |}
              eq_refl (conj eq_refl eq_refl) (conj eq_refl eq_refl))
    as [F R].
  split; [exact F|]. apply R; cbn; lia.
Defined.

(** ** Facts about the banner dialog *)

Lemma filter_map_flat_map :
  forall (A B : Type) (f : B -> bool) (g : A -> B) (h : A -> list A) l,
    filter f (map g (flat_map h l))
    = flat_map (fun e => filter f (map g (h e))) l.
Proof.
  intros A B f g h l. induction l as [|e l IH]; [reflexivity|].
  cbn [flat_map]. rewrite map_app, filter_app, IH. reflexivity.
Qed.

Lemma map_filter_flat_map :
  forall (A B : Type) (f : A -> bool) (g : A -> B) (h : A -> list A) l,
    map g (filter f (flat_map h l))
    = flat_map (fun e => map g (filter f (h e))) l.
Proof.
  intros A B f g h l. induction l as [|e l IH]; [reflexivity|].
  cbn [flat_map]. rewrite filter_app, map_app, IH. reflexivity.
Qed.

(** The clicks of an element are its own and those of its children. *)
Lemma clicks_Node : forall component props children,
  clicks (Node component props children)
  = clicks (Node component props []) ++ flat_map clicks children.
Proof.
  intros component props children. unfold clicks.
  cbn [nodes map flat_map filter].
  rewrite filter_map_flat_map.
  change (onClick_of (Node component props children))
    with (onClick_of (Node component props [])).
  destruct (negb (length (onClick_of (Node component props [])) =? 0));
    reflexivity.
Qed.

Lemma highlighted_Node : forall component props children,
  highlighted (Node component props children)
  = (if has_child "SelectedCard" (Node component props children)
     then [prop_of "id" (Node component props [])]
     else [])
    ++ flat_map highlighted children.
Proof.
  intros component props children. unfold highlighted.
  cbn [nodes filter]. rewrite <- map_filter_flat_map.
  destruct (has_child "SelectedCard" (Node component props children));
    reflexivity.
Qed.

Ltac children_first f lemma :=
  repeat match goal with
         | |- context [f (Node ?c ?ps (?x :: ?l))] =>
             rewrite (lemma c ps (x :: l)); cbn [flat_map]
         end.

Lemma banner_cell_clicks : forall selected data,
  clicks (banner_cell selected data)
  = [[action_setSelected (banner_name data)]].
Proof.
  intros selected data. unfold banner_cell.
  destruct (negb (is_selected selected data)); reflexivity.
Qed.

Lemma banner_cells_clicks : forall selected banners,
  flat_map clicks (map (banner_cell selected) banners)
  = map (fun data => [action_setSelected (banner_name data)]) banners.
Proof.
  intros selected banners. induction banners as [|data banners IH];
    [reflexivity|].
  cbn [map flat_map]. rewrite IH, banner_cell_clicks. reflexivity.
Qed.

(** X21: The clickable elements of the dialog are, in document order, the close
    icon, which calls [setOpen(false)], one cell for each default banner,
    which calls [action.setSelected] with the name of that banner, and the
    save button, which calls [action.handleSave].  Nothing else reacts to a
    click: the upload button has no handler, and [upload] is never
    called. *)
Theorem BannerSetting_clicks : forall props,
  clicks (BannerSetting props)
  = [[setOpen false]]
    ++ map (fun data => [action_setSelected (banner_name data)])
           (defaultBanners props)
    ++ [[action_handleSave]].
Proof.
  intros props. unfold BannerSetting.
  children_first clicks clicks_Node.
  rewrite (clicks_Node "Grid" _ (map _ _)), banner_cells_clicks.
  cbn. rewrite !app_nil_r. reflexivity.
Qed.

Lemma banner_cell_highlighted : forall selected data,
  highlighted (banner_cell selected data)
  = if is_selected selected data
    then [Some (VString (banner_name data))]
    else [].
Proof.
  intros selected data. unfold banner_cell.
  destruct (is_selected selected data); reflexivity.
Qed.

Lemma banner_cells_highlighted : forall selected banners,
  flat_map highlighted (map (banner_cell selected) banners)
  = map (fun data => Some (VString (banner_name data)))
        (filter (is_selected selected) banners).
Proof.
  intros selected banners. induction banners as [|data banners IH];
    [reflexivity|].
  cbn [map flat_map filter]. rewrite IH, banner_cell_highlighted.
  destruct (is_selected selected data); reflexivity.
Qed.

Lemma banner_cells_are_grids : forall selected banners,
  has_child "SelectedCard"
            (Node "Grid"
               [("container", VBool true); ("spacing", VNumber 2);
                ("className", VClass "defaultBannerContainer")]
               (map (banner_cell selected) banners))
  = false.
Proof.
  intros selected banners. unfold has_child. cbn [children_of].
  induction banners as [|data banners IH]; [reflexivity|].
  cbn [map existsb]. rewrite IH. reflexivity.
Qed.

Lemma BannerSetting_highlighted : forall props,
  highlighted (BannerSetting props)
  = map (fun data => Some (VString (banner_name data)))
        (filter (is_selected (selected props)) (defaultBanners props)).
Proof.
  intros props. unfold BannerSetting.
  children_first highlighted highlighted_Node.
  rewrite (highlighted_Node "Grid" _ (map _ _)), banner_cells_are_grids,
    banner_cells_highlighted.
  cbn. rewrite !app_nil_r. reflexivity.
Qed.

Lemma selected_absent : forall s banners,
  ~ In s (map banner_name banners) ->
  filter (is_selected (Some s)) banners = [].
Proof.
  intros s banners. induction banners as [|data banners IH];
    cbn [map filter is_selected]; [reflexivity|].
  intros H. destruct (String.eqb_spec (banner_name data) s) as [E|E].
  - exfalso. apply H. left. exact E.
  - apply IH. intros C. apply H. right. exact C.
Qed.

Lemma selected_unique : forall s banners,
  NoDup (map banner_name banners) ->
  In s (map banner_name banners) ->
  map (fun data => Some (VString (banner_name data)))
      (filter (is_selected (Some s)) banners)
  = [Some (VString s)].
Proof.
  intros s banners. induction banners as [|data banners IH];
    cbn [map filter is_selected]; [intros _ []|].
  intros Hn Hin. inversion Hn as [|? ? Hnot Hn']; subst.
  destruct (String.eqb_spec (banner_name data) s) as [E|E].
  - cbn [map]. rewrite E. f_equal.
    rewrite selected_absent; [reflexivity|]. rewrite <- E. exact Hnot.
  - destruct Hin as [C|C]; [contradiction|]. apply IH; assumption.
Qed.

(** X22: When the default banners have names of their own, the dialog
    highlights at most one of them: the cell of the banner whose name is
    [selected] holds the [SelectedCard], when there is such a banner, and
    every other cell holds a plain [Card]. *)
Theorem BannerSetting_highlights_selected : forall props,
  NoDup (map banner_name (defaultBanners props)) ->
  highlighted (BannerSetting props)
  = match selected props with
    | Some s =>
        if in_dec string_dec s (map banner_name (defaultBanners props))
        then [Some (VString s)]
        else []
    | None => []
    end.
Proof.
  intros props Hn. rewrite BannerSetting_highlighted.
  destruct (selected props) as [s|].
  - destruct (in_dec string_dec s (map banner_name (defaultBanners props)))
      as [Hin|Hout].
    + apply selected_unique; assumption.
    + rewrite selected_absent; [reflexivity|exact Hout].
  - clear Hn. induction (defaultBanners props) as [|data banners IH];
      [reflexivity|].
    cbn [filter is_selected]. exact IH.
Qed.

Lemma BannerSetting_highlights_selected_witness :
  highlighted
    (BannerSetting
       {| opened := true;
          defaultBanners :=
            [ {| banner_name := "ocean"; banner_imageUrl := "ocean.png" |};
              {| banner_name := "forest"; banner_imageUrl := "forest.png" |} ];
          currentBanner := None;
          selected := Some "forest" |})
  = [Some (VString "forest")].
Proof.
  apply (@BannerSetting_highlights_selected
           {| opened := true;
              defaultBanners :=
                [ {| banner_name := "ocean"; banner_imageUrl := "ocean.png" |};
                  {| banner_name := "forest";
                     banner_imageUrl := "forest.png" |} ];
              currentBanner := None;
              selected := Some "forest" |}).
  cbn. repeat constructor; cbn; intuition discriminate.
Defined.
